(** * mbox2sqlite-llm: the email cleaning pipeline of [mbox_to_sqlite/clean.py]

    A shallow embedding of [EmailCleaner] and of the fragment of Python's
    [str] and [re] it relies on, followed by the properties of the
    cleaning pipeline.

    Python strings are sequences of Unicode code points: [pystr] is a list
    of code points ([N]).  The third-party libraries the cleaner calls
    (html2text, BeautifulSoup, quotequail, hashlib) and the Unicode case
    tables are collected in the record [Libs], each library call being
    taken as a function of its argument; every operation that may raise in
    Python returns an [outcome].  The statistics use binary64 floats.

    The commands of [mbox_to_sqlite/cli.py] that feed and drive the
    cleaner follow: the rows built from a message, and the [clean] command
    as a loop over rows, with the header decoder, the codecs and the
    database calls collected in the record [CliLibs].

    The file has three parts: the model of the code, the vocabulary in
    which the properties are stated, and the properties, stage by stage. *)

From Stdlib Require Import ZArith NArith List String Ascii Bool Lia.
From Stdlib Require Import Floats Uint63.
From stdpp Require Import gmap.

Import ListNotations.
Local Open Scope N_scope.

(** ** Python strings *)

Definition pystr := list N.

(** [py "a\nb"] reads a literal the way Python reads ['a\nb']: the escapes
    [\n], [\t] and [\\] are interpreted, every other character stands for
    itself. *)
Fixpoint py_chars (l : list ascii) : pystr :=
  match l with
  | [] => []
  | a :: r =>
      match a, r with
      | "\"%char, "n"%char :: r' => 10 :: py_chars r'
      | "\"%char, "t"%char :: r' => 9 :: py_chars r'
      | "\"%char, "\"%char :: r' => 92 :: py_chars r'
      | _, _ => N_of_ascii a :: py_chars r
      end
  end.

Definition py (s : string) : pystr := py_chars (list_ascii_of_string s).


Definition len (s : pystr) : Z := Z.of_nat (List.length s).

(** [str.isspace] on one code point ([Py_UNICODE_ISSPACE]); [str.strip]
    and the [\s] class of [re] share it. *)
Definition isspace (c : N) : bool :=
  ((9 <=? c) && (c <=? 13)) || ((28 <=? c) && (c <=? 32))
  || (c =? 133) || (c =? 160) || (c =? 5760)
  || ((8192 <=? c) && (c <=? 8202))
  || (c =? 8232) || (c =? 8233) || (c =? 8239) || (c =? 8287)
  || (c =? 12288).

Fixpoint lstrip (s : pystr) : pystr :=
  match s with
  | c :: s' => if isspace c then lstrip s' else s
  | [] => []
  end.

Definition rstrip (s : pystr) : pystr := rev (lstrip (rev s)).

Definition strip (s : pystr) : pystr := lstrip (rstrip s).

Fixpoint startswith (p s : pystr) : bool :=
  match p, s with
  | [], _ => true
  | a :: p', b :: s' => (a =? b) && startswith p' s'
  | _ :: _, [] => false
  end.

(** [sub in s]. *)
Fixpoint contains (sub s : pystr) : bool :=
  startswith sub s ||
  match s with
  | [] => false
  | _ :: s' => contains sub s'
  end.

(** [find_from sub s i]: the index of the first occurrence of [sub] in [s],
    counting the head of [s] as index [i]; [-1] when there is none. *)
Fixpoint find_from (sub s : pystr) (i : Z) : Z :=
  if startswith sub s then i
  else match s with
       | [] => (-1)%Z
       | _ :: s' => find_from sub s' (i + 1)%Z
       end.

(** [s.find(sub, start)] for [0 <= start]. *)
Definition find (sub s : pystr) (start : nat) : Z :=
  if (start <=? List.length s)%nat
  then find_from sub (skipn start s) (Z.of_nat start)
  else (-1)%Z.

(** [s.split(sep)] for a non-empty separator: [skip] counts the characters
    of a separator still to be passed over, [cur] holds the piece being
    read, reversed. *)
Fixpoint split_go (sep s : pystr) (skip : nat) (cur : pystr) : list pystr :=
  match s with
  | [] => [rev cur]
  | c :: s' =>
      match skip with
      | S n => split_go sep s' n cur
      | O =>
          if startswith sep s
          then rev cur :: split_go sep s' (List.length sep - 1) []
          else split_go sep s' 0 (c :: cur)
      end
  end.

Definition split (sep s : pystr) : list pystr := split_go sep s 0 [].

(** [sep.join(l)]. *)
Fixpoint join (sep : pystr) (l : list pystr) : pystr :=
  match l with
  | [] => []
  | [x] => x
  | x :: r => x ++ sep ++ join sep r
  end.

(** [l[-n:]] for [0 < n]. *)
Definition last_n {A} (n : nat) (l : list A) : list A :=
  skipn (List.length l - n) l.

Definition ascii_lower (c : N) : N :=
  if (65 <=? c) && (c <=? 90) then c + 32 else c.

(** ** Outcomes of Python computations *)

Inductive pyexc :=
| ImportError
| AttributeError
| UnicodeEncodeError
| KeyError
| LibraryError.

Inductive outcome (A : Type) :=
| Return (a : A)
| Raise (e : pyexc).
Arguments Return {A} a.
Arguments Raise {A} e.

Definition bind {A B} (c : outcome A) (k : A -> outcome B) : outcome B :=
  match c with
  | Return a => k a
  | Raise e => Raise e
  end.

(** [try: c  except Exception: h]; every exception of the model derives
    from [Exception]. *)
Definition try_except {A} (c : outcome A) (h : outcome A) : outcome A :=
  match c with
  | Return a => Return a
  | Raise _ => h
  end.

Notation "x <- c ;; k" := (bind c (fun x => k))
  (at level 100, c at next level, right associativity).

(** The values the quoted-text routine may hand back. *)
Inductive pyobj :=
| OStr (s : pystr)
| ONone
| ODict.

(** [o.strip()]: only a [str] has the method. *)
Definition call_strip (o : pyobj) : outcome pystr :=
  match o with
  | OStr s => Return (strip s)
  | ONone | ODict => Raise AttributeError
  end.

(** The libraries and tables outside the repository.
    - [unicode_lower c]: what [str.lower] puts in the place of the
      non-ASCII code point [c];
    - [sre_ieq p c]: whether [re], under [IGNORECASE], lets the non-ASCII
      code point [c] of the text match the cased pattern literal [p]
      (CPython does for U+0130 and U+0131 with [i], U+017F with [s] and
      U+212A with [k]);
    - [html2text_handle]: [HTML2Text.handle] as configured by
      [_setup_html2text];
    - [bs4_get_text part]:
      [BeautifulSoup(part, 'html.parser').get_text(separator='\n', strip=True)];
    - [quotequail_unwrap]: [quotequail.unwrap], [None] when the module
      cannot be imported;
    - [md5_hexdigest]: [hashlib.md5(bytes).hexdigest()]. *)
Record Libs := {
  unicode_lower : N -> pystr;
  sre_ieq : N -> N -> bool;
  html2text_handle : pystr -> outcome pystr;
  bs4_get_text : pystr -> outcome pystr;
  quotequail_unwrap : option (pystr -> outcome pyobj);
  md5_hexdigest : list N -> pystr
}.

(** ** The fragment of [re] used by the cleaner

    Every repetition in the patterns of [clean.py] is over a single
    character or class, so a repetition carries a class, a minimum count
    and its greediness.  The patterns have at most one group. *)

Inductive cset :=
| CChar (c : N)            (* a literal character *)
| CAny                     (* [.] under DOTALL *)
| CSpace                   (* [\s] *)
| COneOf (l : list N)      (* [[...]] *)
| CNoneOf (l : list N).    (* [[^...]] *)

Inductive regex :=
| RSet (cs : cset)
| RRep (cs : cset) (min : nat) (greedy : bool)   (* cs{min,} or cs{min,}? *)
| RSeq (r1 r2 : regex)
| RAlt (r1 r2 : regex)
| RGroup (r : regex)                             (* group 1 *)
| RLook (r : regex)                              (* (?=r) *)
| REnd                                           (* \Z *)
| RDollar                                        (* $ without MULTILINE *)
| REmpty.

(** The literal string [s] as a pattern. *)
Fixpoint RLit (s : pystr) : regex :=
  match s with
  | [] => REmpty
  | [c] => RSet (CChar c)
  | c :: s' => RSeq (RSet (CChar c)) (RLit s')
  end.

Fixpoint RSeqs (l : list regex) : regex :=
  match l with
  | [] => REmpty
  | [r] => r
  | r :: l' => RSeq r (RSeqs l')
  end.

Definition is_ascii_letter (c : N) : bool :=
  ((65 <=? c) && (c <=? 90)) || ((97 <=? c) && (c <=? 122)).

(** A replacement template: literal text and references to group 1. *)
Inductive tpl_item :=
| TText (s : pystr)
| TGroup1.

(** A group that did not take part in the match expands to the empty
    string. *)
Fixpoint expand (t : list tpl_item) (g : option pystr) : pystr :=
  match t with
  | [] => []
  | TText s :: t' => s ++ expand t' g
  | TGroup1 :: t' => match g with Some x => x | None => [] end ++ expand t' g
  end.

Section Regex.

Variable L : Libs.
(** [ic]: the pattern was compiled with IGNORECASE. *)
Variable ic : bool.

(** A pattern literal against a character of the text.  Only cased
    literals are compared case-insensitively. *)
Definition lit_match (p c : N) : bool :=
  (c =? p) ||
  (ic && is_ascii_letter p &&
   (if c <? 128 then ascii_lower c =? ascii_lower p else sre_ieq L p c)).

(** The sets of [clean.py] hold no cased character; [re] matches such a
    set exactly also under IGNORECASE. *)
Definition cs_match (cs : cset) (c : N) : bool :=
  match cs with
  | CChar p => lit_match p c
  | CAny => true
  | CSpace => isspace c
  | COneOf l => existsb (N.eqb c) l
  | CNoneOf l => negb (existsb (N.eqb c) l)
  end.

(** What a match yields: the number of characters it consumed and
    group 1. *)
Definition mresult : Type := nat * option pystr.

(** A continuation receives the text still to read, its index counted
    from the start of the match, and group 1. *)
Definition mcont : Type := pystr -> nat -> option pystr -> option mresult.

(** [need cs n s pos g k]: [n] characters of the class, then [k]. *)
Fixpoint need (cs : cset) (n : nat) (s : pystr) (pos : nat)
    (g : option pystr) (k : mcont) : option mresult :=
  match n with
  | O => k s pos g
  | S n' =>
      match s with
      | c :: s' => if cs_match cs c then need cs n' s' (S pos) g k else None
      | [] => None
      end
  end.

(** [rep cs greedy s pos g k]: zero or more characters of the class, the
    longest run first when greedy, the shortest first otherwise;
    backtracks into [k]. *)
Fixpoint rep (cs : cset) (greedy : bool) (s : pystr) (pos : nat)
    (g : option pystr) (k : mcont) : option mresult :=
  match s with
  | c :: s' =>
      if cs_match cs c then
        if greedy then
          match rep cs greedy s' (S pos) g k with
          | Some r => Some r
          | None => k s pos g
          end
        else
          match k s pos g with
          | Some r => Some r
          | None => rep cs greedy s' (S pos) g k
          end
      else k s pos g
  | [] => k s pos g
  end.

(** The backtracking matcher: [mt r s pos g k] matches [r] at the head of
    [s], which is at index [pos] of the match, and hands the rest of the
    text, its index and group 1 to [k]. *)
Fixpoint mt (r : regex) (s : pystr) (pos : nat) (g : option pystr)
    (k : mcont) : option mresult :=
  match r with
  | RSet cs =>
      match s with
      | c :: s' => if cs_match cs c then k s' (S pos) g else None
      | [] => None
      end
  | RRep cs n greedy =>
      need cs n s pos g (fun s1 pos1 g1 => rep cs greedy s1 pos1 g1 k)
  | RSeq r1 r2 => mt r1 s pos g (fun s1 pos1 g1 => mt r2 s1 pos1 g1 k)
  | RAlt r1 r2 =>
      match mt r1 s pos g k with
      | Some x => Some x
      | None => mt r2 s pos g k
      end
  | RGroup r1 =>
      mt r1 s pos g
        (fun s1 pos1 _ => k s1 pos1 (Some (firstn (pos1 - pos) s)))
  | RLook r1 =>
      match mt r1 s pos g (fun _ pos1 g1 => Some (pos1, g1)) with
      | Some (_, g1) => k s pos g1
      | None => None
      end
  | REnd => match s with [] => k s pos g | _ :: _ => None end
  | RDollar =>
      match s with
      | [] => k s pos g
      | [c] => if c =? 10 then k s pos g else None
      | _ :: _ :: _ => None
      end
  | REmpty => k s pos g
  end.

(** The continuation that ends a match; [must_advance] refuses the empty
    match (set by [sub] right after an empty match). *)
Definition accept (must_advance : bool) : mcont :=
  fun _ pos g =>
    if must_advance && (pos =? 0)%nat then None else Some (pos, g).

(** One match attempt at the head of [s]. *)
Definition match_here (r : regex) (must_advance : bool) (s : pystr)
    : option mresult :=
  mt r s 0 None (accept must_advance).

(** [re.sub]: [skip] counts the characters of the current match still
    to be passed over. *)
Fixpoint sub_go (r : regex) (t : list tpl_item) (s : pystr) (skip : nat)
    : pystr :=
  match skip with
  | S n =>
      match s with
      | _ :: s' => sub_go r t s' n
      | [] => []
      end
  | O =>
      match match_here r false s with
      | None =>
          match s with
          | c :: s' => c :: sub_go r t s' 0
          | [] => []
          end
      | Some (S n, g1) =>
          expand t g1 ++
          match s with
          | _ :: s' => sub_go r t s' n
          | [] => []
          end
      | Some (O, g1) =>
          (* an empty match: replace it, then only a non-empty match
             may start here *)
          expand t g1 ++
          match match_here r true s with
          | Some (n, g2) =>
              expand t g2 ++
              match s with
              | _ :: s' => sub_go r t s' (n - 1)
              | [] => []
              end
          | None =>
              match s with
              | c :: s' => c :: sub_go r t s' 0
              | [] => []
              end
          end
      end
  end.

Definition re_sub (r : regex) (t : list tpl_item) (s : pystr) : pystr :=
  sub_go r t s 0.

End Regex.

(** ** Numbers of the statistics *)

(** A Python [int] as a binary64 float; exact below [2^53], which no
    string length reaches (and, for [round2], no percentage below
    [2^46]). *)
Definition float_of_Z (z : Z) : float :=
  if (z <? 0)%Z
  then PrimFloat.opp (PrimFloat.of_uint63 (Uint63.of_Z (- z)))
  else PrimFloat.of_uint63 (Uint63.of_Z z).

(** [a / b] on two ints: the correctly rounded quotient. *)
Definition int_truediv (a b : Z) : float :=
  PrimFloat.div (float_of_Z a) (float_of_Z b).

(** The integer nearest to [m * 2^e], ties to even. *)
Definition round_half_even (m e : Z) : Z :=
  if (0 <=? e)%Z then (m * 2 ^ e)%Z
  else
    let d := (2 ^ (- e))%Z in
    let q := (m / d)%Z in
    let r := (m mod d)%Z in
    match (2 * r ?= d)%Z with
    | Lt => q
    | Gt => (q + 1)%Z
    | Eq => if Z.even q then q else (q + 1)%Z
    end.

(** [round(x, 2)] on a float: the exact value of [x] is rounded, ties to
    even, to a multiple of 1/100, and the float nearest to that decimal is
    returned. *)
Definition round2 (x : float) : float :=
  match Prim2SF x with
  | S754_finite sign m e =>
      let q := round_half_even (Z.pos m * 100) e in
      let r := PrimFloat.div (float_of_Z q) (float_of_Z 100) in
      if sign then PrimFloat.opp r else r
  | _ => x
  end.

Inductive pynum :=
| PyInt (z : Z)
| PyFloat (f : float).

(** [round(v, 2)]: an [int] is returned as it is. *)
Definition py_round2 (v : pynum) : pynum :=
  match v with
  | PyInt z => PyInt z
  | PyFloat f => PyFloat (round2 f)
  end.

(** [str.encode()]: UTF-8, strict. *)
Definition utf8_char (c : N) : outcome (list N) :=
  if c <? 128 then Return [c]
  else if c <? 2048 then Return [192 + c / 64; 128 + c mod 64]
  else if (55296 <=? c) && (c <=? 57343) then Raise UnicodeEncodeError
  else if c <? 65536 then
    Return [224 + c / 4096; 128 + (c / 64) mod 64; 128 + c mod 64]
  else
    Return [240 + c / 262144; 128 + (c / 4096) mod 64;
            128 + (c / 64) mod 64; 128 + c mod 64].

Fixpoint encode (s : pystr) : outcome (list N) :=
  match s with
  | [] => Return []
  | c :: s' =>
      b <- utf8_char c ;;
      r <- encode s' ;;
      Return (b ++ r)
  end.

(** Slices [s[:i]] and [s[i:]]. *)
Definition clamp_index (n : nat) (i : Z) : nat :=
  if (i <? 0)%Z then Z.to_nat (Z.max 0 (Z.of_nat n + i))
  else Z.to_nat (Z.min i (Z.of_nat n)).

Definition slice_to (s : pystr) (i : Z) : pystr :=
  firstn (clamp_index (List.length s) i) s.

Definition slice_from (s : pystr) (i : Z) : pystr :=
  skipn (clamp_index (List.length s) i) s.

(** ** The data model *)

(** The three values of [level] that the command line accepts; any other
    string would act as [Minimal]. *)
Inductive CleaningLevel :=
| Minimal
| Standard
| Aggressive.

(** [self.level in ('standard', 'aggressive')] and
    [self.level == 'aggressive']. *)
Definition at_least_standard (l : CleaningLevel) : bool :=
  match l with Minimal => false | Standard | Aggressive => true end.

Definition is_aggressive (l : CleaningLevel) : bool :=
  match l with Aggressive => true | Minimal | Standard => false end.

(** The optional metadata of a message: the row it came from. *)
Definition MessageInfo : Type := list (pystr * pystr).

Record Stats := {
  original_bytes : Z;
  clean_bytes : Z;
  reduction_percent : pynum
}.

Record CleaningResult := {
  body_clean : pystr;
  stats : Stats
}.

(** ** The patterns of [clean.py] *)

Definition quotes : list N := [34; 39].

(** [<img[^>]*src=Qcid:([^Q]+)Q[^>]*>], where [Q] stands for the class of
    the two quote characters. *)
Definition img_cid_re : regex :=
  RSeqs [RLit (py "<img"); RRep (CNoneOf [62]) 0 true; RLit (py "src=");
         RSet (COneOf quotes); RLit (py "cid:");
         RGroup (RRep (CNoneOf quotes) 1 true);
         RSet (COneOf quotes); RRep (CNoneOf [62]) 0 true; RLit (py ">")].

(** [<img[^>]*alt=Q([^Q]+)Q[^>]*>] *)
Definition img_alt_re : regex :=
  RSeqs [RLit (py "<img"); RRep (CNoneOf [62]) 0 true; RLit (py "alt=");
         RSet (COneOf quotes);
         RGroup (RRep (CNoneOf quotes) 1 true);
         RSet (COneOf quotes); RRep (CNoneOf [62]) 0 true; RLit (py ">")].

(** [\n{4,}] *)
Definition blank_run4_re : regex := RRep (CChar 10) 4 true.

(** [<mailto:([^>]+)>] and [<tel:([^>]+)>] *)
Definition mailto_re : regex :=
  RSeqs [RLit (py "<mailto:"); RGroup (RRep (CNoneOf [62]) 1 true);
         RLit (py ">")].

Definition tel_re : regex :=
  RSeqs [RLit (py "<tel:"); RGroup (RRep (CNoneOf [62]) 1 true);
         RLit (py ">")].

(** [marker + r'.*'] for the five markers of [signature_markers]. *)
Definition to_end : regex := RRep CAny 0 true.

Definition mobile_marker (phrase : pystr) : regex :=
  RSeqs [RLit (10 :: phrase); RRep CSpace 0 true; RDollar; to_end].

Definition signature_markers : list regex :=
  [ RSeqs [RLit (py "\n-- \n"); to_end];
    mobile_marker (py "Sent from my iPhone");
    mobile_marker (py "Sent from my iPad");
    mobile_marker (py "Get Outlook for iOS");
    mobile_marker (py "Get Outlook for Android") ].

(** [\n*-+\s*TITLE\s*-+.*?(?=\n\n|\Z)] *)
Definition divider_block_re (title : pystr) : regex :=
  RSeqs [RRep (CChar 10) 0 true; RRep (CChar 45) 1 true; RRep CSpace 0 true;
         RLit title; RRep CSpace 0 true; RRep (CChar 45) 1 true;
         RRep CAny 0 false; RLook (RAlt (RLit (py "\n\n")) REnd)].

(** [[ \t]+], [\n{3,}] and [\s+] *)
Definition blanks_re : regex := RRep (COneOf [32; 9]) 1 true.
Definition blank_run3_re : regex := RRep (CChar 10) 3 true.
Definition spaces_re : regex := RRep CSpace 1 true.

Definition csr_marker : pystr := py "Company CSR Policy:".

Definition section_ends : list pystr :=
  [py "\n\nFrom:"; py "\n\n---PART---"; py "\n\n\n\n"].

Definition part_separator : pystr := py "\n\n---PART---\n\n".

(** ** [EmailCleaner] *)

Section EmailCleaner.

Variable L : Libs.

(** [str.lower], code point by code point. *)
Definition lower_char (c : N) : pystr :=
  if c <? 128 then [ascii_lower c] else unicode_lower L c.

Definition lower (s : pystr) : pystr := flat_map lower_char s.

(** The test at the head of [_extract_text]. *)
Definition looks_like_html (payload : pystr) : bool :=
  contains (py "<html") (lower payload)
  || contains (py "<div") (lower payload)
  || contains (py "<p>") (lower payload).

Definition _replace_inline_images (html : pystr) : pystr :=
  let html :=
    re_sub L true img_cid_re
      [TText (py "[Inline image: "); TGroup1; TText (py "]")] html in
  let html :=
    re_sub L true img_alt_re
      [TText (py "[Image: "); TGroup1; TText (py "]")] html in
  html.

(** The loop of [_extract_text] over the parts. *)
Fixpoint convert_parts (parts : list pystr) : outcome (list pystr) :=
  match parts with
  | [] => Return []
  | part :: rest =>
      let part := strip part in
      match part with
      | [] => convert_parts rest
      | _ :: _ =>
          if contains (py "<") part && contains (py ">") part then
            let part := _replace_inline_images part in
            cleaned <- try_except (html2text_handle L part)
                                  (bs4_get_text L part) ;;
            cleaned_parts <- convert_parts rest ;;
            Return (cleaned :: cleaned_parts)
          else
            cleaned_parts <- convert_parts rest ;;
            Return (part :: cleaned_parts)
      end
  end.

(** The branch of [_extract_text] taken when the payload looks like
    HTML. *)
Definition extract_html (payload : pystr) : outcome pystr :=
  let parts := split part_separator payload in
  cleaned_parts <- convert_parts parts ;;
  Return (match cleaned_parts with
          | [] => payload
          | _ :: _ => join (py "\n\n") cleaned_parts
          end).

Definition _extract_text (payload : pystr) : outcome pystr :=
  if looks_like_html payload then extract_html payload
  else Return payload.

Definition _minimal_clean (text : pystr) : pystr :=
  let text := re_sub L false blank_run4_re [TText (py "\n\n\n")] text in
  let text := re_sub L false mailto_re [TGroup1] text in
  let text := re_sub L false tel_re [TGroup1] text in
  text.

Definition _remove_signatures (text : pystr) : pystr :=
  fold_left (fun text marker => re_sub L true marker [] text)
            signature_markers text.

(** The loop over [section_ends], with its [break]. *)
Fixpoint resolve_end (text : pystr) (start end_ : Z) (markers : list pystr)
    : Z :=
  match markers with
  | [] => end_
  | end_marker :: rest =>
      let pos := find end_marker text (Z.to_nat start) in
      if (start <? pos)%Z && (pos <? end_)%Z then pos
      else resolve_end text start end_ rest
  end.

Definition _remove_boilerplate (text : pystr) : pystr :=
  if contains csr_marker text then
    let start := find csr_marker text 0 in
    let end_ := (start + 600)%Z in
    let end_ := resolve_end text start end_ section_ends in
    slice_to text start ++ slice_from text end_
  else text.

(** The [except] branch of [_remove_quoted_replies]. *)
Definition quoted_fallback (text : pystr) : pystr :=
  let lines := split (py "\n") text in
  let cleaned_lines :=
    List.filter (fun line => negb (startswith (py ">") (strip line))) lines in
  let text := join (py "\n") cleaned_lines in
  let text :=
    re_sub L true (divider_block_re (py "Original Message")) [] text in
  let text :=
    re_sub L true (divider_block_re (py "Forwarded Message")) [] text in
  text.

(** [import quotequail]. *)
Definition import_quotequail : outcome (pystr -> outcome pyobj) :=
  match quotequail_unwrap L with
  | Some f => Return f
  | None => Raise ImportError
  end.

Definition _remove_quoted_replies (text : pystr) : outcome pystr :=
  try_except
    (unwrap <- import_quotequail ;;
     unwrapped <- unwrap text ;;
     call_strip unwrapped)
    (Return (quoted_fallback text)).

Definition _add_attachment_placeholders (text : pystr)
    (message_info : option MessageInfo) : pystr :=
  text.

Definition _normalize_whitespace (text : pystr) : pystr :=
  let text := re_sub L false blanks_re [TText (py " ")] text in
  let text := re_sub L false blank_run3_re [TText (py "\n\n")] text in
  let lines := map rstrip (split (py "\n") text) in
  let text := join (py "\n") lines in
  strip text.

Definition reduction_of (original_bytes clean_bytes : Z) : pynum :=
  if (0 <? original_bytes)%Z
  then PyFloat (PrimFloat.mul
                  (int_truediv (original_bytes - clean_bytes) original_bytes)
                  (float_of_Z 100))
  else PyInt 0.

Definition clean (level : CleaningLevel) (payload : pystr)
    (message_info : option MessageInfo) : outcome CleaningResult :=
  let original_bytes := len payload in
  text <- _extract_text payload ;;
  let text := _minimal_clean text in
  let text :=
    if at_least_standard level
    then _remove_boilerplate (_remove_signatures text)
    else text in
  text <- (if is_aggressive level
           then (text <- _remove_quoted_replies text ;;
                 Return (_add_attachment_placeholders text message_info))
           else Return text) ;;
  let text := _normalize_whitespace text in
  let clean_bytes := len text in
  let reduction := reduction_of original_bytes clean_bytes in
  Return {| body_clean := text;
            stats := {| original_bytes := original_bytes;
                        clean_bytes := clean_bytes;
                        reduction_percent := py_round2 reduction |} |}.

(** The state of the loop of [build_signature_database]: the [Counter]
    [footer_hashes] and the dict [footer_text_map], both keyed by the
    digest. *)
Record FooterTables := {
  footer_hashes : gmap pystr Z;
  footer_text_map : gmap pystr pystr
}.

(** One turn of the loop over [emails]. *)
Definition scan_email (tables : FooterTables) (email : pystr)
    : outcome FooterTables :=
  let lines := split (py "\n") email in
  if (10 <? List.length lines)%nat then
    let footer := join (py "\n") (last_n 10 lines) in
    let footer_normalized :=
      strip (re_sub L false spaces_re [TText (py " ")] footer) in
    if (50 <? len footer_normalized)%Z then
      encoded <- encode footer_normalized ;;
      let footer_hash := md5_hexdigest L encoded in
      Return {| footer_hashes :=
                  <[footer_hash :=
                      (default 0%Z (footer_hashes tables !! footer_hash) + 1)%Z]>
                    (footer_hashes tables);
                footer_text_map :=
                  <[footer_hash := footer]> (footer_text_map tables) |}
    else Return tables
  else Return tables.

Fixpoint scan_emails (tables : FooterTables) (emails : list pystr)
    : outcome FooterTables :=
  match emails with
  | [] => Return tables
  | email :: rest =>
      tables <- scan_email tables email ;;
      scan_emails tables rest
  end.

(** The set comprehension over [footer_hashes.items()]. *)
Fixpoint frequent_footers (text_map : gmap pystr pystr)
    (items : list (pystr * Z)) (min_occurrences : Z) : outcome (gset pystr) :=
  match items with
  | [] => Return ∅
  | (h, count) :: rest =>
      if (min_occurrences <=? count)%Z then
        match text_map !! h with
        | Some footer =>
            db <- frequent_footers text_map rest min_occurrences ;;
            Return ({[footer]} ∪ db)
        | None => Raise KeyError
        end
      else frequent_footers text_map rest min_occurrences
  end.

(** [build_signature_database]: the new value of [self.signature_db] and
    the number returned. *)
Definition build_signature_database (emails : list pystr)
    (min_occurrences : Z) : outcome (gset pystr * Z) :=
  tables <- scan_emails {| footer_hashes := ∅; footer_text_map := ∅ |}
                        emails ;;
  signature_db <- frequent_footers (footer_text_map tables)
                    (map_to_list (footer_hashes tables)) min_occurrences ;;
  Return (signature_db, Z.of_nat (size signature_db)).

End EmailCleaner.


(** ** [analyze_cleaning_impact] *)

(** [s.count(sub)] for a non-empty [sub]: the occurrences are counted from
    the left and do not overlap; [skip] counts the characters of an
    occurrence still to be passed over. *)
Fixpoint count_go (sub s : pystr) (skip : nat) : Z :=
  match s with
  | [] => 0%Z
  | _ :: s' =>
      match skip with
      | S n => count_go sub s' n
      | O =>
          if startswith sub s
          then (1 + count_go sub s' (List.length sub - 1))%Z
          else count_go sub s' 0
      end
  end.

Definition count (sub s : pystr) : Z := count_go sub s 0.

(** The dict [analyze_cleaning_impact] returns; [impact_reduction_percent]
    is its key [reduction_percent]. *)
Record CleaningImpact := {
  original_chars : Z;
  cleaned_chars : Z;
  reduction_chars : Z;
  impact_reduction_percent : pynum;
  original_lines : Z;
  cleaned_lines : Z;
  estimated_original_tokens : Z;
  estimated_cleaned_tokens : Z
}.

Definition analyze_cleaning_impact (original cleaned : pystr)
    : CleaningImpact :=
  {| original_chars := len original;
     cleaned_chars := len cleaned;
     reduction_chars := (len original - len cleaned)%Z;
     impact_reduction_percent :=
       if (0 <? len original)%Z
       then py_round2
              (PyFloat (PrimFloat.mul
                          (int_truediv (len original - len cleaned)
                                       (len original))
                          (float_of_Z 100)))
       else PyInt 0;
     original_lines := count (py "\n") original;
     cleaned_lines := count (py "\n") cleaned;
     estimated_original_tokens := (len original / 2)%Z;
     estimated_cleaned_tokens := (len cleaned / 2)%Z |}.

(** ** The commands of [cli.py] *)

(** What [b.decode(encoding, errors='replace')] does: it returns a string,
    raises [LookupError] for an encoding it does not know, or raises
    something else. *)
Inductive decoding :=
| Decoded (s : pystr)
| NoSuchCodec
| DecodingRaises (e : pyexc).

(** A chunk of [email.header.decode_header]: bytes with the name of their
    charset, if any, or a string. *)
Inductive header_chunk :=
| ChunkBytes (b : list N) (encoding : option pystr)
| ChunkStr (s : pystr).

(** A value of a row read from the table the [mbox] command fills: text,
    or [None] for a column the message has no header for. *)
Inductive cell :=
| CNone
| CStr (s : pystr).

(** The standard library and the destination database as the commands use
    them.
    - [decode_header]: [email.header.decode_header] on a header value;
    - [codec_decode encoding b]: [b.decode(encoding, errors='replace')] for
      a non-empty [encoding];
    - [utf8_replace b]: [b.decode('utf-8', errors='replace')], which
      decodes every byte string;
    - [json_dumps]: [json.dumps] on the statistics of a payload;
    - [upsert_all written batch]:
      [dest[table].upsert_all(batch, alter=True, pk="message-id")] on the
      table that took the batches [written];
    - [enable_fts written]: the creation of the full-text index on that
      table, unless it has one. *)
Record CliLibs := {
  decode_header : pystr -> outcome (list header_chunk);
  codec_decode : pystr -> list N -> decoding;
  utf8_replace : list N -> pystr;
  json_dumps : Stats -> pystr;
  upsert_all :
    list (list (gmap pystr cell)) -> list (gmap pystr cell) -> outcome unit;
  enable_fts : list (list (gmap pystr cell)) -> outcome unit
}.

Section Commands.

Variable L : Libs.
Variable E : CliLibs.

(** [b.decode(encoding or 'utf-8', errors='replace')] *)
Definition decode_or_utf8 (b : list N) (encoding : option pystr) : decoding :=
  match encoding with
  | None | Some [] => Decoded (utf8_replace E b)
  | Some ((_ :: _) as encoding) => codec_decode E encoding b
  end.

(** The [try] block that decodes bytes, with its handler for
    [LookupError] and [AttributeError]. *)
Definition decode_bytes (b : list N) (encoding : option pystr)
    : outcome pystr :=
  match decode_or_utf8 b encoding with
  | Decoded s => Return s
  | NoSuchCodec => Return (utf8_replace E b)
  | DecodingRaises e => Raise e
  end.

(** The loop of [decode_header_value] over the chunks. *)
Fixpoint decode_chunks (chunks : list header_chunk) : outcome (list pystr) :=
  match chunks with
  | [] => Return []
  | ChunkBytes part encoding :: rest =>
      decoded <- decode_bytes part encoding ;;
      decoded_parts <- decode_chunks rest ;;
      Return (decoded :: decoded_parts)
  | ChunkStr part :: rest =>
      decoded_parts <- decode_chunks rest ;;
      Return (part :: decoded_parts)
  end.

(** [decode_header_value] on a header value that is a string. *)
Definition decode_header_value (header_value : pystr) : outcome pystr :=
  match header_value with
  | [] => Return header_value
  | _ :: _ =>
      chunks <- decode_header E header_value ;;
      decoded_parts <- decode_chunks chunks ;;
      Return (List.concat decoded_parts)
  end.

(** A part of a message, as [get_message_text] sees it:
    [get_content_type()], [get_payload(decode=True)] (bytes or [None]),
    [get_content_charset()], and [get_payload()] when that is a string. *)
Record Part := {
  content_type : pystr;
  payload_decoded : outcome (option (list N));
  content_charset : outcome (option pystr);
  payload_str : option pystr
}.

(** A message: [items()], [is_multipart()], [walk()] (the message itself,
    then its parts, depth first) and the message as a part. *)
Record Message := {
  items : list (pystr * pystr);
  is_multipart : bool;
  walk : list Part;
  as_part : Part
}.

(** What one part adds to [text_parts]: the nested [try] blocks of
    [get_message_text], which read the same in its two branches. *)
Definition part_text (part : Part) : option pystr :=
  match payload_decoded part with
  | Raise _ => payload_str part
  | Return None | Return (Some []) => None
  | Return (Some ((_ :: _) as payload)) =>
      match content_charset part with
      | Raise _ => payload_str part
      | Return charset =>
          match decode_or_utf8 payload charset with
          | Decoded s => Some s
          | NoSuchCodec => Some (utf8_replace E payload)
          | DecodingRaises _ => payload_str part
          end
      end
  end.

Definition is_text_type (content_type : pystr) : bool :=
  bool_decide (content_type = py "text/plain")
  || bool_decide (content_type = py "text/html").

(** The list [text_parts] at the end of [get_message_text]. *)
Definition text_parts (message : Message) : list pystr :=
  if is_multipart message
  then omap part_text
         (List.filter (fun part => is_text_type (content_type part))
                      (walk message))
  else omap part_text [as_part message].

Definition get_message_text (message : Message) : pystr :=
  match text_parts message with
  | [] => []
  | (_ :: _) as text_parts => join part_separator text_parts
  end.

(** The loop of [to_insert] over the headers of one message. *)
Fixpoint header_columns (headers : list (pystr * pystr))
    (row : gmap pystr pystr) : outcome (gmap pystr pystr) :=
  match headers with
  | [] => Return row
  | (key, value) :: rest =>
      let key_lower := lower L key in
      decoded_value <- decode_header_value value ;;
      header_columns rest
        match row !! key_lower with
        | Some existing =>
            <[key_lower := existing ++ py "\n" ++ decoded_value]> row
        | None => <[key_lower := decoded_value]> row
        end
  end.

(** The row [to_insert] yields for one message. *)
Definition to_insert (message : Message) : outcome (gmap pystr pystr) :=
  row <- header_columns (items message) ∅ ;;
  Return (<[py "payload" := get_message_text message]> row).

(** The row as [message_info]: its text columns. *)
Definition message_info_of (row : gmap pystr cell) : MessageInfo :=
  omap (fun kv : pystr * cell =>
          match kv.2 with
          | CStr s => Some (kv.1, s)
          | CNone => None
          end)
       (map_to_list row).

(** The statistics written for a row without payload. *)
Definition no_payload_stats : Stats :=
  {| original_bytes := 0; clean_bytes := 0; reduction_percent := PyInt 0 |}.

(** The variables of the loop of the [clean] command, and [upserted]: the
    batches that [dest[table].upsert_all] took, in order. *)
Record CleanState := {
  processed : Z;
  total_original_bytes : Z;
  total_clean_bytes : Z;
  cleaned_rows : list (gmap pystr cell);
  upserted : list (list (gmap pystr cell))
}.

(** The three new columns, and the payload column dropped. *)
Definition cleaned_row_of (row : gmap pystr cell)
    (body_raw body_clean : pystr) (stats : Stats) : gmap pystr cell :=
  delete (py "payload")
    (<[py "cleaning_stats" := CStr (json_dumps E stats)]>
       (<[py "body_clean" := CStr body_clean]>
          (<[py "body_raw" := CStr body_raw]> row))).

(** The body of the loop up to [cleaned_rows.append]. *)
Definition clean_row (level : CleaningLevel) (st : CleanState)
    (row : gmap pystr cell)
    : outcome CleanState :=
  match default (CStr []) (row !! py "payload") with
  | CStr ((_ :: _) as payload) =>
      result <- clean L level payload (Some (message_info_of row)) ;;
      Return {| processed := processed st;
                total_original_bytes :=
                  (total_original_bytes st + original_bytes (stats result))%Z;
                total_clean_bytes :=
                  (total_clean_bytes st + clean_bytes (stats result))%Z;
                cleaned_rows :=
                  cleaned_rows st
                  ++ [cleaned_row_of row payload (body_clean result)
                        (stats result)];
                upserted := upserted st |}
  | CStr [] | CNone =>
      Return {| processed := processed st;
                total_original_bytes := total_original_bytes st;
                total_clean_bytes := total_clean_bytes st;
                cleaned_rows :=
                  cleaned_rows st
                  ++ [cleaned_row_of row [] [] no_payload_stats];
                upserted := upserted st |}
  end.

(** The end of the body: the counter, and the batch written once it holds
    1000 rows. *)
Definition count_and_flush (st : CleanState) : outcome CleanState :=
  let processed := (processed st + 1)%Z in
  if (1000 <=? List.length (cleaned_rows st))%nat
  then (_ <- upsert_all E (upserted st) (cleaned_rows st) ;;
        Return {| processed := processed;
                  total_original_bytes := total_original_bytes st;
                  total_clean_bytes := total_clean_bytes st;
                  cleaned_rows := [];
                  upserted := upserted st ++ [cleaned_rows st] |})
  else Return {| processed := processed;
                 total_original_bytes := total_original_bytes st;
                 total_clean_bytes := total_clean_bytes st;
                 cleaned_rows := cleaned_rows st;
                 upserted := upserted st |}.

(** The loop over the rows.  An exception of [clean] or of [upsert_all]
    ends it; the state it leaves behind is returned with the exception. *)
Fixpoint clean_loop (level : CleaningLevel) (rows : list (gmap pystr cell))
    (st : CleanState) : CleanState * option pyexc :=
  match rows with
  | [] => (st, None)
  | row :: rest =>
      match clean_row level st row with
      | Raise e => (st, Some e)
      | Return st =>
          match count_and_flush st with
          | Raise e => (st, Some e)
          | Return st => clean_loop level rest st
          end
      end
  end.

(** [if cleaned_rows: upsert_all(cleaned_rows)] after the loop. *)
Definition flush_rest (st : CleanState) : outcome CleanState :=
  match cleaned_rows st with
  | [] => Return st
  | _ :: _ =>
      _ <- upsert_all E (upserted st) (cleaned_rows st) ;;
      Return {| processed := processed st;
                total_original_bytes := total_original_bytes st;
                total_clean_bytes := total_clean_bytes st;
                cleaned_rows := cleaned_rows st;
                upserted := upserted st ++ [cleaned_rows st] |}
  end.

(** [[row['payload'] for row in rows if row.get('payload')]] *)
Definition all_payloads (rows : list (gmap pystr cell)) : list pystr :=
  omap (fun row : gmap pystr cell =>
          match row !! py "payload" with
          | Some (CStr ((_ :: _) as payload)) => Some payload
          | _ => None
          end)
       rows.

(** What the command reports: the number of signatures found, when asked
    for, the three counters, and, when the total is positive, the
    reduction and the token estimates
    [(saved_tokens, original_tokens, clean_tokens)]. *)
Record CleanReport := {
  sig_count : option Z;
  emails_processed : Z;
  original_size : Z;
  cleaned_size : Z;
  reduction : option float;
  token_estimates : option (Z * Z * Z)
}.

Definition report_of (sig_count : option Z) (st : CleanState) : CleanReport :=
  let positive := (0 <? total_original_bytes st)%Z in
  {| sig_count := sig_count;
     emails_processed := processed st;
     original_size := total_original_bytes st;
     cleaned_size := total_clean_bytes st;
     reduction :=
       if positive
       then Some (PrimFloat.mul
                    (int_truediv
                       (total_original_bytes st - total_clean_bytes st)
                       (total_original_bytes st))
                    (float_of_Z 100))
       else None;
     token_estimates :=
       if positive
       then let original_tokens := (total_original_bytes st / 2)%Z in
            let clean_tokens := (total_clean_bytes st / 2)%Z in
            let saved_tokens := (original_tokens - clean_tokens)%Z in
            Some (saved_tokens, original_tokens, clean_tokens)
       else None |}.

Definition initial_state : CleanState :=
  {| processed := 0; total_original_bytes := 0; total_clean_bytes := 0;
     cleaned_rows := []; upserted := [] |}.

(** The [clean] command on the rows of a table that exists, up to its
    report.  The batches the destination took are those of the state
    returned, also when the command raises. *)
Definition clean_command (level : CleaningLevel) (build_signature_db : bool)
    (rows : list (gmap pystr cell)) : CleanState * outcome CleanReport :=
  let total := Z.of_nat (List.length rows) in
  let found :=
    if build_signature_db
    then (r <- build_signature_database L (all_payloads rows)
                 (Z.max 100 (total / 100)) ;;
          Return (Some r.2))
    else Return None in
  match found with
  | Raise e => (initial_state, Raise e)
  | Return sig_count =>
      match clean_loop level rows initial_state with
      | (st, Some e) => (st, Raise e)
      | (st, None) =>
          match flush_rest st with
          | Raise e => (st, Raise e)
          | Return st =>
              match enable_fts E (upserted st) with
              | Raise e => (st, Raise e)
              | Return _ => (st, Return (report_of sig_count st))
              end
          end
      end
  end.

End Commands.

(** * Vocabulary of the properties *)

(** A stand-in for the libraries, used to run the pipeline on concrete
    payloads: html2text fails, BeautifulSoup hands the part back,
    quotequail is not installed. *)
Definition plain_libs : Libs := {|
  unicode_lower := fun c => [c];
  sre_ieq := fun _ _ => false;
  html2text_handle := fun _ => Raise LibraryError;
  bs4_get_text := fun s => Return s;
  quotequail_unwrap := None;
  md5_hexdigest := fun b => b
|}.

(** *** Statistics *)

(** The statistics of a run, when it returns. *)
Definition stats_of (o : outcome CleaningResult) : option (Z * Z) :=
  match o with
  | Return r => Some (original_bytes (stats r), clean_bytes (stats r))
  | Raise _ => None
  end.

Definition encoded_length (s : pystr) : option Z :=
  match encode s with
  | Return b => Some (len b)
  | Raise _ => None
  end.

(** *** The quoted-text routine *)

(** The [try] block of [_remove_quoted_replies] does not produce a string
    on [text]: quotequail is missing, [unwrap] raises, or what it returns
    has no [strip]. *)
Definition unwrap_fails (L : Libs) (text : pystr) : Prop :=
  forall f s, quotequail_unwrap L = Some f -> f text <> Return (OStr s).

(** *** Occurrences of a substring *)

(** [sub] occurs in [s] at index [i]. *)
Definition occurs_at (sub s : pystr) (i : nat) : Prop :=
  (i <= List.length s)%nat /\ startswith sub (skipn i s) = true.

(** [i] is the index of the first occurrence of [sub] in [s] at or after
    [from]. *)
Definition first_occurrence (sub s : pystr) (from i : nat) : Prop :=
  (from <= i)%nat /\ occurs_at sub s i /\
  forall j, (from <= j < i)%nat -> ~ occurs_at sub s j.

(** *** Boilerplate removal *)

(** From [start] on, [end_marker] first occurs at [i], and [i] lies
    strictly between [start] and the nominal end [start + 600]. *)
Definition window_hit (text : pystr) (start : nat) (end_marker : pystr)
    (i : nat) : Prop :=
  first_occurrence end_marker text start i /\ (start < i < start + 600)%nat.

(** The end of the deleted span: the markers are tried in the order of the
    list, the first one with a hit in the window decides; the nominal end
    is kept when none has one. *)
Inductive resolved_end (text : pystr) (start : nat)
    : list pystr -> nat -> Prop :=
| resolved_nominal :
    resolved_end text start [] (start + 600)
| resolved_hit (m : pystr) (rest : list pystr) (i : nat) :
    window_hit text start m i ->
    resolved_end text start (m :: rest) i
| resolved_miss (m : pystr) (rest : list pystr) (e : nat) :
    (forall i, ~ window_hit text start m i) ->
    resolved_end text start rest e ->
    resolved_end text start (m :: rest) e.

(** The removal as the specification words it: the span ends at the
    nearest occurrence of any of the markers inside the window. *)
Definition nearest_end (text : pystr) (start : Z) : Z :=
  fold_left
    (fun end_ end_marker =>
       let pos := find end_marker text (Z.to_nat start) in
       if (start <? pos)%Z && (pos <? end_)%Z then pos else end_)
    section_ends (start + 600)%Z.

Definition remove_boilerplate_nearest (text : pystr) : pystr :=
  if contains csr_marker text then
    let start := find csr_marker text 0 in
    slice_to text start ++ slice_from text (nearest_end text start)
  else text.

(** A disclaimer followed by a part separator and then by a message
    header, both inside the window. *)
Definition two_boundaries_text : pystr :=
  py "xx Company CSR Policy: blah\n\n---PART---\n\nmore\n\nFrom: me".

(** *** Markup that the parser rejects *)

(** A paragraph followed by a marked section with an unknown keyword.
    Python's [html.parser], on which html2text and BeautifulSoup both
    rest, stops on it with an [AssertionError]: [HTML2Text.handle] lets the
    error through and BeautifulSoup turns it into [ParserRejectedMarkup]. *)
Definition rejected_html : pystr := py "<p><![abc]>".

(** Libraries that behave so on a part holding that marked section, and
    hand any other part back. *)
Definition rejecting_libs : Libs := {|
  unicode_lower := fun c => [c];
  sre_ieq := fun _ _ => false;
  html2text_handle :=
    fun part =>
      if contains (py "<![abc]>") part then Raise LibraryError
      else Return part;
  bs4_get_text :=
    fun part =>
      if contains (py "<![abc]>") part then Raise LibraryError
      else Return part;
  quotequail_unwrap := None;
  md5_hexdigest := fun b => b
|}.

(** *** Assumptions on the libraries *)

(** The fallback extractor (BeautifulSoup with the lenient parser) returns
    a text for every part. *)
Definition fallback_extractor_returns (L : Libs) : Prop :=
  forall part, exists t, bs4_get_text L part = Return t.



Definition signed_mail : pystr :=
  py "Hello   world\n-- \nJohn Doe\nPhone: 555-1234".

(** *** Matching *)

(** [w], taken as a pattern literal, matches at the head of [s]. *)
Fixpoint ci_startswith (L : Libs) (ic : bool) (w s : pystr) : bool :=
  match w, s with
  | [], _ => true
  | p :: w', c :: s' => lit_match L ic p c && ci_startswith L ic w' s'
  | _ :: _, [] => false
  end.

(** [w], taken as a pattern literal, matches somewhere in [s]. *)
Fixpoint ci_contains (L : Libs) (ic : bool) (w s : pystr) : bool :=
  ci_startswith L ic w s ||
  match s with
  | [] => false
  | _ :: s' => ci_contains L ic w s'
  end.

(** A continuation is reached at [s1], index [pos1], from [s], index
    [pos]: a piece [w] of the text was consumed in between. *)
Definition reach (s : pystr) (pos : nat) (s1 : pystr) (pos1 : nat) : Prop :=
  exists w, s = w ++ s1 /\ pos1 = (pos + List.length w)%nat.


(** [cut_at P text]: the text up to the first place whose remainder
    satisfies [P]; the whole text when there is none. *)
Fixpoint cut_at (P : pystr -> bool) (text : pystr) : pystr :=
  if P text then []
  else match text with
       | [] => []
       | c :: text' => c :: cut_at P text'
       end.

(** The remainder of the text starts with the signature delimiter. *)
Definition delimiter_at (s : pystr) : bool := startswith (py "\n-- \n") s.

(** The remainder of the text is a newline, the phrase in any case, and
    nothing but white space up to the end. *)
Definition mobile_at (L : Libs) (phrase : pystr) (s : pystr) : bool :=
  ci_startswith L true (10 :: phrase) s
  && forallb isspace (skipn (S (List.length phrase)) s).

(** *** Signature removal *)

(** The five cuts of signature removal, in the order of
    [signature_markers]. *)
Definition cut_signatures (L : Libs) (text : pystr) : pystr :=
  cut_at (mobile_at L (py "Get Outlook for Android"))
    (cut_at (mobile_at L (py "Get Outlook for iOS"))
       (cut_at (mobile_at L (py "Sent from my iPad"))
          (cut_at (mobile_at L (py "Sent from my iPhone"))
             (cut_at delimiter_at text)))).

(** The result [clean] builds from the payload and the cleaned text. *)
Definition result_of (payload text : pystr) : CleaningResult :=
  {| body_clean := text;
     stats := {| original_bytes := len payload;
                 clean_bytes := len text;
                 reduction_percent :=
                   py_round2 (reduction_of (len payload) (len text)) |} |}.

Definition john_doe_signature : pystr := py "\n-- \nJohn Doe\nPhone: 555-1234".

Definition john_doe_mail : pystr :=
  py "Hello team,\nthe report is attached." ++ john_doe_signature.

(** *** Quoted replies *)


(** The remainder of the text is at a blank-line boundary or at the end of
    the text. *)
Definition at_block_end (s : pystr) : bool :=
  startswith (py "\n\n") s || match s with [] => true | _ :: _ => false end.

Definition quoted_mail : pystr :=
  py "Hi there\n> old message line 1\n> old message line 2".



(** [deletes B text text']: [text'] is [text] with some pieces deleted,
    each piece being the first [n] characters of the remainder [s] it
    starts at, with [B s n]. *)
Inductive deletes (B : pystr -> nat -> Prop) : pystr -> pystr -> Prop :=
| deletes_nil : deletes B [] []
| deletes_keep (c : N) (s s' : pystr) :
    deletes B s s' -> deletes B (c :: s) (c :: s')
| deletes_cut (s : pystr) (n : nat) (s' : pystr) :
    (0 < n)%nat -> B s n -> deletes B (skipn n s) s' -> deletes B s s'.

(** The first [n] characters of [s] hold [title], in any case, and end at
    a blank-line boundary or at the end of the text. *)
Definition divider_block (L : Libs) (title : pystr) (s : pystr) (n : nat)
    : Prop :=
  (n <= List.length s)%nat
  /\ at_block_end (skipn n s) = true
  /\ exists i, (i + List.length title <= n)%nat
               /\ ci_startswith L true title (skipn i s) = true.

(** *** White space *)

(** Two lines holding only a space between two words. *)
Definition blank_lines_text : pystr := py "a\n \n \nb".

(** Two empty lines between two words, with CRLF line ends. *)
Definition crlf_text : pystr := [97; 13; 10; 13; 10; 13; 10; 98].

(** *** Inline images *)









(** *** The signature corpus *)

(** The footer candidate of a payload: its last ten lines, when it has
    more than ten. *)
Definition footer_candidate (email : pystr) : option pystr :=
  let lines := split (py "\n") email in
  if (10 <? List.length lines)%nat
  then Some (join (py "\n") (last_n 10 lines))
  else None.

(** White-space runs become single spaces, the ends are trimmed. *)
Definition normalize_footer (L : Libs) (footer : pystr) : pystr :=
  strip (re_sub L false spaces_re [TText (py " ")] footer).

(** The digest under which a payload is counted: it has a footer
    candidate whose normalized form has more than 50 characters. *)
Definition counted_hash (L : Libs) (email : pystr) : option pystr :=
  match footer_candidate email with
  | Some footer =>
      let n := normalize_footer L footer in
      if (50 <? len n)%Z then
        match encode n with
        | Return b => Some (md5_hexdigest L b)
        | Raise _ => None
        end
      else None
  | None => None
  end.

(** Every normalized footer that gets hashed can be encoded (it holds no
    lone surrogate). *)
Definition encodable_corpus (L : Libs) (emails : list pystr) : Prop :=
  forall email footer,
    In email emails ->
    footer_candidate email = Some footer ->
    (50 < len (normalize_footer L footer))%Z ->
    exists b, encode (normalize_footer L footer) = Return b.

(** How many payloads of the corpus are counted under [h]. *)
Fixpoint count_hash (L : Libs) (emails : list pystr) (h : pystr) : Z :=
  match emails with
  | [] => 0%Z
  | email :: rest =>
      ((if bool_decide (counted_hash L email = Some h) then 1 else 0)
       + count_hash L rest h)%Z
  end.

(** The footer, as found in the payload, of the last payload counted
    under [h]. *)
Fixpoint last_footer (L : Libs) (emails : list pystr) (h : pystr)
    : option pystr :=
  match emails with
  | [] => None
  | email :: rest =>
      match last_footer L rest h with
      | Some footer => Some footer
      | None =>
          if bool_decide (counted_hash L email = Some h)
          then footer_candidate email
          else None
      end
  end.

(** A payload of eleven lines whose footer has 81 characters once
    normalized. *)
Definition team_mail : pystr :=
  py "Dear all,\nbody\nl3\nl4\nl5\nl6\nl7\nl8\nl9\n"
  ++ py "Best regards, the whole team of the company\nphone 12345".

(** The last ten lines of [team_mail] as a payload of its own. *)
Definition ten_line_mail : pystr :=
  py "body\nl3\nl4\nl5\nl6\nl7\nl8\nl9\n"
  ++ py "Best regards, the whole team of the company\nphone 12345".

(** A payload of eleven lines whose footer has exactly 50 characters once
    normalized. *)
Definition fifty_mail : pystr :=
  py "Dear all,\nbody\nl3\nl4\nl5\nl6\nl7\nl8\nl9\nRegards, the team.\nphone".

(** *** Runs of a class *)

(** The length of the longest run of characters of the class at the head
    of [s]. *)
Fixpoint run (L : Libs) (ic : bool) (cs : cset) (s : pystr) : nat :=
  match s with
  | c :: s' => if cs_match L ic cs c then S (run L ic cs s') else 0%nat
  | [] => 0%nat
  end.

(** *** White space in normal form *)

(** No tab, and no space right after a space; [prev] tells whether the
    character before [s] is a space. *)
Fixpoint spaced_once (prev : bool) (s : pystr) : bool :=
  match s with
  | [] => true
  | c :: s' =>
      negb (c =? 9) && negb (prev && (c =? 32)) && spaced_once (c =? 32) s'
  end.

(** No white space, other than a new line, stands right before a new line
    or at the end of the text. *)
Fixpoint line_ends_trimmed (s : pystr) : bool :=
  match s with
  | [] => true
  | c :: s' =>
      (if isspace c && negb (c =? 10)
       then match s' with
            | [] => false
            | d :: _ => negb (d =? 10)
            end
       else true)
      && line_ends_trimmed s'
  end.

(** The text is empty or its last character is no white space. *)
Definition ends_trimmed (s : pystr) : bool :=
  match rev s with
  | [] => true
  | c :: _ => negb (isspace c)
  end.

(** The text is empty or its first character is no white space. *)
Definition starts_trimmed (s : pystr) : bool :=
  match s with
  | [] => true
  | c :: _ => negb (isspace c)
  end.

(** The normalizer: one pass. *)
Definition normal_form (u : pystr) : Prop :=
  contains (py "\t") u = false
  /\ contains (py "  ") u = false
  /\ strip u = u
  /\ Forall (fun line => rstrip line = line) (split (py "\n") u).

(** A blank: a space or a tab. *)
Definition is_blank (c : N) : bool := (c =? 32) || (c =? 9).

(** The four steps of the normalizer. *)
Definition collapse_blanks (L : Libs) (text : pystr) : pystr :=
  re_sub L false blanks_re [TText (py " ")] text.

Definition cap_blank_lines (L : Libs) (text : pystr) : pystr :=
  re_sub L false blank_run3_re [TText (py "\n\n")] text.

Definition rstrip_lines (text : pystr) : pystr :=
  join (py "\n") (map rstrip (split (py "\n") text)).

(** *** The signature corpus, by digests *)

(** A code point that UTF-8 cannot encode. *)
Definition is_surrogate (c : N) : bool := (55296 <=? c) && (c <=? 57343).

(** A payload of eleven lines whose footer holds a lone surrogate. *)
Definition surrogate_mail : pystr := team_mail ++ [55357].

(** The digests counted at least [min_occurrences] times. *)
Definition frequent_hashes (L : Libs) (emails : list pystr)
    (min_occurrences : Z) : gset pystr :=
  filter (fun h => (min_occurrences <= count_hash L emails h)%Z)
         (list_to_set (omap (counted_hash L) emails) : gset pystr).

(** The digest under which a footer is counted. *)
Definition footer_hash (L : Libs) (footer : pystr) : option pystr :=
  let n := normalize_footer L footer in
  if (50 <? len n)%Z then
    match encode n with
    | Return b => Some (md5_hexdigest L b)
    | Raise _ => None
    end
  else None.

(** *** Rows *)

(** The headers of a message with their names in lower case and their
    values decoded, in the order of the message. *)
Fixpoint decode_items (L : Libs) (E : CliLibs) (headers : list (pystr * pystr))
    : outcome (list (pystr * pystr)) :=
  match headers with
  | [] => Return []
  | (key, value) :: rest =>
      decoded_value <- decode_header_value E value ;;
      decoded <- decode_items L E rest ;;
      Return ((lower L key, decoded_value) :: decoded)
  end.

(** The values of the headers named [k], in order. *)
Definition values_of (k : pystr) (decoded : list (pystr * pystr))
    : list pystr :=
  map snd (List.filter (fun kv => bool_decide (kv.1 = k)) decoded).

(** The column of a row for the values [vs] of a header: absent without a
    value, else the values, one on a line. *)
Definition column_of (vs : list pystr) : option pystr :=
  match vs with
  | [] => None
  | _ :: _ => Some (join (py "\n") vs)
  end.

(** A column being filled: what it holds so far, then the values still to
    come. *)
Definition extend_column (existing : option pystr) (vs : list pystr)
    : option pystr :=
  match existing with
  | None => column_of vs
  | Some x => Some (join (py "\n") (x :: vs))
  end.

(** The opening of the separator of parts, up to its last dash. *)
Definition part_marker : pystr := py "\n\n---PART---".

(** The row the [clean] command writes for a row of the source. *)
Definition cleaned_row (L : Libs) (E : CliLibs) (level : CleaningLevel)
    (row : gmap pystr cell) : outcome (gmap pystr cell) :=
  match default (CStr []) (row !! py "payload") with
  | CStr ((_ :: _) as payload) =>
      result <- clean L level payload (Some (message_info_of row)) ;;
      Return (cleaned_row_of E row payload (body_clean result) (stats result))
  | CStr [] | CNone =>
      Return (cleaned_row_of E row [] [] no_payload_stats)
  end.

(** The number of characters a column holds over a list of rows. *)
Fixpoint column_chars (column : pystr) (rows : list (gmap pystr cell))
    : Z :=
  match rows with
  | [] => 0%Z
  | row :: rest =>
      (match row !! column with
       | Some (CStr s) => len s
       | _ => 0
       end + column_chars column rest)%Z
  end.

(** Libraries for running the commands on concrete rows. *)
Definition plain_cli_libs : CliLibs := {|
  decode_header := fun s => Return [ChunkStr s];
  codec_decode := fun _ _ => NoSuchCodec;
  utf8_replace := fun b => b;
  json_dumps := fun _ => [];
  upsert_all := fun _ _ => Return tt;
  enable_fts := fun _ => Return tt
|}.

(** A row whose only column is the payload. *)
Definition payload_row (payload : pystr) : gmap pystr cell :=
  {[ py "payload" := CStr payload ]}.

(** Two rows, the second without payload. *)
Definition sample_rows : list (gmap pystr cell) :=
  [payload_row signed_mail; ∅].

(** Two rows, the second with markup that the parser rejects. *)
Definition rejected_rows : list (gmap pystr cell) :=
  [payload_row signed_mail; payload_row rejected_html].

(** *** Quoted lines *)

(** [unquoted fresh s]: no line of [s] has [>] as its first character that
    is no white space; [fresh] tells whether the line in which [s] starts
    has held only white space so far. *)
Fixpoint unquoted (fresh : bool) (s : pystr) : bool :=
  match s with
  | [] => true
  | c :: s' =>
      if c =? 10 then unquoted true s'
      else if isspace c then unquoted fresh s'
      else if fresh && (c =? 62) then false
      else unquoted false s'
  end.

(** A message of two text parts, with the subject header given twice. *)
Definition container_part : Part :=
  {| content_type := py "multipart/alternative";
     payload_decoded := Return None;
     content_charset := Return None;
     payload_str := None |}.

Definition hello_text_part : Part :=
  {| content_type := py "text/plain";
     payload_decoded := Return (Some (py "Hello"));
     content_charset := Return None;
     payload_str := None |}.

Definition hello_html_part : Part :=
  {| content_type := py "text/html";
     payload_decoded := Return (Some (py "<p>Hello</p>"));
     content_charset := Return (Some (py "latin-1"));
     payload_str := None |}.

Definition two_part_message : Message :=
  {| items := [(py "Subject", py "Hi"); (py "To", py "ann@example.org");
               (py "SUBJECT", py "again")];
     is_multipart := true;
     walk := [container_part; hello_text_part; hello_html_part];
     as_part := container_part |}.

(** *** The disclaimer, twice *)

(** Two copies of the disclaimer marker, 600 characters apart. *)
Definition twice_disclaimed : pystr :=
  csr_marker ++ repeat 120 600 ++ csr_marker.

(** * Properties *)

(** ** Occurrences of a substring *)

Lemma occurs_at_cons (sub : pystr) (c : N) (s : pystr) (i : nat) :
  occurs_at sub (c :: s) (S i) <-> occurs_at sub s i.
Proof. unfold occurs_at. simpl. split; intros [H1 H2]; split; auto; lia. Qed.

Lemma first_occurrence_unique (sub s : pystr) (from i j : nat) :
  first_occurrence sub s from i -> first_occurrence sub s from j -> i = j.
Proof.
  intros (Hi & Oi & Ni) (Hj & Oj & Nj).
  destruct (Nat.lt_trichotomy i j) as [Hlt | [Heq | Hgt]]; auto.
  - exfalso. apply (Nj i); auto.
  - exfalso. apply (Ni j); auto.
Qed.

(** [find_from] returns the first occurrence, or [-1] when there is none. *)
Lemma find_from_spec (sub s : pystr) (i : Z) :
  (exists k, first_occurrence sub s 0 k /\ find_from sub s i = (i + Z.of_nat k)%Z)
  \/ ((forall j, ~ occurs_at sub s j) /\ find_from sub s i = (-1)%Z).
Proof.
  revert i. induction s as [|c s IH]; intros i; simpl.
  - destruct (startswith sub []) eqn:E.
    + left. exists 0%nat. split; [|lia].
      split; [lia|]. split; [split; simpl; auto|]. intros j Hj. lia.
    + right. split; auto. intros j [Hj Hs]. simpl in Hj.
      assert (j = 0%nat) by lia. subst j. simpl in Hs. congruence.
  - destruct (startswith sub (c :: s)) eqn:E.
    + left. exists 0%nat. split; [|lia].
      split; [lia|]. split; [split; simpl; auto; lia|]. intros j Hj. lia.
    + destruct (IH (i + 1)%Z) as [(k & (_ & Ok & Nk) & Hf) | (Hn & Hf)].
      * left. exists (S k). split; [|lia].
        split; [lia|]. split; [apply occurs_at_cons; auto|].
        intros j Hj. destruct j as [|j].
        -- intros [_ Hs]. simpl in Hs. congruence.
        -- rewrite occurs_at_cons. apply Nk. lia.
      * right. split; auto. intros j. destruct j as [|j].
        -- intros [_ Hs]. simpl in Hs. congruence.
        -- rewrite occurs_at_cons. apply Hn.
Qed.

Lemma occurs_at_skipn (sub s : pystr) (from j : nat) :
  (from <= List.length s)%nat ->
  occurs_at sub (skipn from s) j <-> occurs_at sub s (from + j).
Proof.
  intros Hf. unfold occurs_at. rewrite List.length_skipn, List.skipn_skipn.
  replace (j + from)%nat with (from + j)%nat by lia.
  split; intros [H1 H2]; split; auto; lia.
Qed.

(** [s.find(sub, from)]. *)
Lemma find_spec (sub s : pystr) (from : nat) :
  (from <= List.length s)%nat ->
  (exists k, first_occurrence sub s from k /\ find sub s from = Z.of_nat k)
  \/ ((forall j, (from <= j)%nat -> ~ occurs_at sub s j)
      /\ find sub s from = (-1)%Z).
Proof.
  intros Hf. unfold find.
  destruct (Nat.leb_spec from (List.length s)) as [_|]; [|lia].
  destruct (find_from_spec sub (skipn from s) (Z.of_nat from))
    as [(k & (_ & Ok & Nk) & Hk) | (Hn & Hk)].
  - left. exists (from + k)%nat. split; [|lia].
    split; [lia|]. split; [apply occurs_at_skipn; auto|].
    intros j Hj Hoc. apply (Nk (j - from)%nat); [lia|].
    apply occurs_at_skipn; auto.
    replace (from + (j - from))%nat with j by lia. exact Hoc.
  - right. split; auto. intros j Hj Hoc. apply (Hn (j - from)%nat).
    apply occurs_at_skipn; auto.
    replace (from + (j - from))%nat with j by lia. exact Hoc.
Qed.

Lemma contains_spec (sub s : pystr) :
  contains sub s = true <-> exists k, occurs_at sub s k.
Proof.
  induction s as [|c s IH]; simpl.
  - rewrite orb_false_r. split.
    + intros H. exists 0%nat. split; simpl; auto.
    + intros (k & Hk & Hs). simpl in Hk. assert (k = 0%nat) by lia.
      subst. exact Hs.
  - rewrite orb_true_iff, IH. split.
    + intros [H | (k & Hk)].
      * exists 0%nat. split; simpl; auto; lia.
      * exists (S k). apply occurs_at_cons. exact Hk.
    + intros (k & Hk). destruct k as [|k].
      * left. apply Hk.
      * right. exists k. apply occurs_at_cons in Hk. exact Hk.
Qed.

Lemma slice_to_nat (s : pystr) (i : nat) :
  slice_to s (Z.of_nat i) = firstn i s.
Proof.
  unfold slice_to, clamp_index.
  destruct (Z.ltb_spec (Z.of_nat i) 0) as [|_]; [lia|].
  destruct (Nat.le_gt_cases i (List.length s)).
  - f_equal. lia.
  - rewrite !List.firstn_all2; auto; lia.
Qed.

Lemma slice_from_nat (s : pystr) (i : nat) :
  slice_from s (Z.of_nat i) = skipn i s.
Proof.
  unfold slice_from, clamp_index.
  destruct (Z.ltb_spec (Z.of_nat i) 0) as [|_]; [lia|].
  destruct (Nat.le_gt_cases i (List.length s)).
  - f_equal. lia.
  - rewrite !List.skipn_all2; auto; lia.
Qed.

(** ** The quoted-text routine *)

Lemma remove_quoted_replies_fallback (L : Libs) (text : pystr) :
  unwrap_fails L text ->
  _remove_quoted_replies L text = Return (quoted_fallback L text).
Proof.
  intros H. unfold _remove_quoted_replies, import_quotequail.
  destruct (quotequail_unwrap L) as [f|] eqn:Hq; [|reflexivity].
  simpl. destruct (f text) as [[s| |]|e] eqn:Hf; try reflexivity.
  exfalso. exact (H f s Hq Hf).
Qed.

Lemma plain_libs_unwrap_fails (text : pystr) : unwrap_fails plain_libs text.
Proof. intros f s H. discriminate H. Qed.



(** ** Lists *)


(** ** The matcher *)

Section RegexFacts.

Variable L : Libs.
Variable ic : bool.

Lemma reach_refl (s : pystr) (pos : nat) : reach s pos s pos.
Proof. exists []. split; [reflexivity | simpl; lia]. Qed.

Lemma reach_step (c : N) (s : pystr) (pos : nat) (s1 : pystr) (pos1 : nat) :
  reach s (S pos) s1 pos1 -> reach (c :: s) pos s1 pos1.
Proof.
  intros (w & -> & ->). exists (c :: w). split; [reflexivity | simpl; lia].
Qed.

Lemma reach_trans (s : pystr) (pos : nat) (s1 : pystr) (pos1 : nat)
    (s2 : pystr) (pos2 : nat) :
  reach s pos s1 pos1 -> reach s1 pos1 s2 pos2 -> reach s pos s2 pos2.
Proof.
  intros (w & -> & ->) (w' & -> & ->). exists (w ++ w').
  split; [apply List.app_assoc | rewrite List.length_app; lia].
Qed.

Lemma reach_length (s : pystr) (pos : nat) (s1 : pystr) (pos1 : nat) :
  reach s pos s1 pos1 ->
  (pos1 + List.length s1 = pos + List.length s)%nat.
Proof. intros (w & -> & ->). rewrite List.length_app. lia. Qed.

Lemma reach_skipn (s : pystr) (pos : nat) (s1 : pystr) (pos1 : nat) :
  reach s pos s1 pos1 ->
  (pos <= pos1)%nat /\ (pos1 - pos <= List.length s)%nat
  /\ skipn (pos1 - pos) s = s1.
Proof.
  intros (w & -> & ->). rewrite List.length_app.
  replace (pos + List.length w - pos)%nat with (List.length w) by lia.
  split; [lia|]. split; [lia|].
  rewrite List.skipn_app, List.skipn_all, Nat.sub_diag. reflexivity.
Qed.

(** Whatever a repetition yields was yielded by its continuation, further
    on in the text. *)
Lemma need_reach (cs : cset) (n : nat) :
  forall s pos g k x,
    need L ic cs n s pos g k = Some x ->
    exists s1 pos1, reach s pos s1 pos1 /\ k s1 pos1 g = Some x.
Proof.
  induction n as [|n IH]; intros s pos g k x H; simpl in H.
  - exists s, pos. split; [apply reach_refl | exact H].
  - destruct s as [|c s]; [discriminate|].
    destruct (cs_match L ic cs c); [|discriminate].
    destruct (IH _ _ _ _ _ H) as (s1 & pos1 & Hr & Hk).
    exists s1, pos1. split; [apply reach_step; exact Hr | exact Hk].
Qed.

Lemma rep_reach (cs : cset) (greedy : bool) :
  forall s pos g k x,
    rep L ic cs greedy s pos g k = Some x ->
    exists s1 pos1, reach s pos s1 pos1 /\ k s1 pos1 g = Some x.
Proof.
  induction s as [|c s IH]; intros pos g k x H; simpl in H.
  - exists [], pos. split; [apply reach_refl | exact H].
  - assert (Here : k (c :: s) pos g = Some x ->
                   exists s1 pos1,
                     reach (c :: s) pos s1 pos1 /\ k s1 pos1 g = Some x).
    { intros Hk. exists (c :: s), pos. split; [apply reach_refl | exact Hk]. }
    assert (Deeper : rep L ic cs greedy s (S pos) g k = Some x ->
                     exists s1 pos1,
                       reach (c :: s) pos s1 pos1 /\ k s1 pos1 g = Some x).
    { intros Hr. destruct (IH _ _ _ _ Hr) as (s1 & pos1 & Hreach & Hk).
      exists s1, pos1. split; [apply reach_step; exact Hreach | exact Hk]. }
    destruct (cs_match L ic cs c); [|auto].
    destruct greedy.
    + destruct (rep L ic cs true s (S pos) g k) eqn:E; auto.
    + destruct (k (c :: s) pos g) eqn:E; auto.
Qed.

Lemma mt_reach (r : regex) :
  forall s pos g k x,
    mt L ic r s pos g k = Some x ->
    exists s1 pos1 g1, reach s pos s1 pos1 /\ k s1 pos1 g1 = Some x.
Proof.
  induction r as [cs | cs n greedy | r1 IH1 r2 IH2 | r1 IH1 r2 IH2
                 | r1 IH1 | r1 IH1 | | | ];
    intros s pos g k x H; simpl in H.
  - destruct s as [|c s]; [discriminate|].
    destruct (cs_match L ic cs c); [|discriminate].
    exists s, (S pos), g. split; [|exact H].
    apply reach_step, reach_refl.
  - destruct (need_reach _ _ _ _ _ _ _ H) as (s1 & pos1 & Hr1 & H1).
    destruct (rep_reach _ _ _ _ _ _ _ H1) as (s2 & pos2 & Hr2 & H2).
    exists s2, pos2, g. split; [exact (reach_trans _ _ _ _ _ _ Hr1 Hr2) | exact H2].
  - destruct (IH1 _ _ _ _ _ H) as (s1 & pos1 & g1 & Hr1 & H1).
    destruct (IH2 _ _ _ _ _ H1) as (s2 & pos2 & g2 & Hr2 & H2).
    exists s2, pos2, g2.
    split; [exact (reach_trans _ _ _ _ _ _ Hr1 Hr2) | exact H2].
  - destruct (mt L ic r1 s pos g k) eqn:E.
    + rewrite H in E. exact (IH1 _ _ _ _ _ E).
    + exact (IH2 _ _ _ _ _ H).
  - destruct (IH1 _ _ _ _ _ H) as (s1 & pos1 & g1 & Hr1 & H1).
    exists s1, pos1, (Some (firstn (pos1 - pos) s)). split; assumption.
  - destruct (mt L ic r1 s pos g (fun _ pos1 g1 => Some (pos1, g1)))
      as [[n g1]|]; [|discriminate].
    exists s, pos, g1. split; [apply reach_refl | exact H].
  - destruct s; [|discriminate]. exists [], pos, g.
    split; [apply reach_refl | exact H].
  - exists s, pos, g. split; [apply reach_refl|].
    destruct s as [|c [|c' s]]; try discriminate; [exact H|].
    destruct (c =? 10); [exact H | discriminate].
  - exists s, pos, g. split; [apply reach_refl | exact H].
Qed.

Lemma mt_RSeq (r1 r2 : regex) (s : pystr) (pos : nat) (g : option pystr)
    (k : mcont) :
  mt L ic (RSeq r1 r2) s pos g k
  = mt L ic r1 s pos g (fun s1 pos1 g1 => mt L ic r2 s1 pos1 g1 k).
Proof. reflexivity. Qed.

(** A literal either matches its text and goes on, or fails. *)
Lemma mt_RLit (w : pystr) :
  forall s pos g k,
    mt L ic (RLit w) s pos g k
    = if ci_startswith L ic w s
      then k (skipn (List.length w) s) (pos + List.length w)%nat g
      else None.
Proof.
  induction w as [|p w IH]; intros s pos g k.
  - simpl. rewrite Nat.add_0_r. reflexivity.
  - destruct w as [|p' w].
    + simpl. destruct s as [|c s]; [reflexivity|].
      rewrite andb_true_r. replace (pos + 1)%nat with (S pos) by lia.
      reflexivity.
    + change (RLit (p :: p' :: w)) with (RSeq (RSet (CChar p)) (RLit (p' :: w))).
      cbn [mt]. destruct s as [|c s]; [reflexivity|].
      cbn [ci_startswith cs_match].
      destruct (lit_match L ic p c); [|reflexivity].
      rewrite IH. cbn [andb].
      replace (S pos + List.length (p' :: w))%nat
        with (pos + List.length (p :: p' :: w))%nat by (simpl; lia).
      reflexivity.
Qed.

(** [.*] under DOTALL, followed by the end of the match, takes the whole
    text. *)
Lemma to_end_accept (s : pystr) (pos : nat) (g : option pystr) :
  mt L ic to_end s pos g (accept false) = Some ((pos + List.length s)%nat, g).
Proof.
  unfold to_end. cbn [mt need]. revert pos.
  induction s as [|c s IH]; intros pos; simpl.
  - rewrite Nat.add_0_r. reflexivity.
  - rewrite IH. f_equal. f_equal. lia.
Qed.

(** A pattern without cased characters is compared exactly. *)
Lemma ci_startswith_exact (w : pystr) :
  forallb (fun p => negb (is_ascii_letter p)) w = true ->
  forall s, ci_startswith L ic w s = startswith w s.
Proof.
  induction w as [|p w IH]; intros Hw s; [reflexivity|].
  simpl in Hw. apply andb_true_iff in Hw as [Hp Hw].
  destruct s as [|c s]; [reflexivity|]. simpl.
  rewrite (IH Hw). f_equal. unfold lit_match.
  apply negb_true_iff in Hp. rewrite Hp, andb_false_r. simpl.
  rewrite orb_false_r. apply N.eqb_sym.
Qed.

Lemma ci_startswith_length (w s : pystr) :
  ci_startswith L ic w s = true -> (List.length w <= List.length s)%nat.
Proof.
  revert s. induction w as [|p w IH]; intros s H; simpl; [lia|].
  destruct s as [|c s]; [discriminate|]. simpl in H.
  apply andb_true_iff in H as [_ H]. apply IH in H. simpl. lia.
Qed.

Lemma reach_lit (w s : pystr) (pos : nat) :
  ci_startswith L ic w s = true ->
  reach s pos (skipn (List.length w) s) (pos + List.length w)%nat.
Proof.
  intros H. apply ci_startswith_length in H.
  exists (firstn (List.length w) s).
  split; [symmetry; apply List.firstn_skipn|].
  rewrite List.length_firstn. lia.
Qed.





(** [\s*$.*]: the rest of the text is white space. *)
Lemma spaces_to_end_accept (s : pystr) :
  forall pos g,
    mt L ic (RSeq (RRep CSpace 0 true) (RSeq RDollar to_end)) s pos g
       (accept false)
    = if forallb isspace s then Some ((pos + List.length s)%nat, g) else None.
Proof.
  cbn [mt need].
  induction s as [|c s IH]; intros pos g.
  - cbn [rep mt forallb]. rewrite to_end_accept. reflexivity.
  - cbn [rep forallb cs_match]. destruct (isspace c) eqn:Ec.
    + rewrite IH. cbn [andb]. destruct (forallb isspace s) eqn:Es.
      * f_equal. f_equal. simpl. lia.
      * destruct s as [|c' s]; [discriminate | reflexivity].
    + cbn [andb mt]. destruct s as [|c' s]; [|reflexivity].
      destruct (N.eqb_spec c 10) as [->|_]; [discriminate | reflexivity].
Qed.

(** [re.sub] with an empty replacement, for a pattern that matches, where
    it does, up to the end of the text. *)
Lemma sub_go_skip_all (r : regex) (t : list tpl_item) :
  match_here L ic r false [] = None ->
  forall s, sub_go L ic r t s (List.length s) = [].
Proof.
  intros H0. induction s as [|c s IH]; simpl.
  - rewrite H0. reflexivity.
  - exact IH.
Qed.

Lemma re_sub_cut (r : regex) (P : pystr -> bool) :
  P [] = false ->
  (forall s, match_here L ic r false s
             = if P s then Some (List.length s, None) else None) ->
  forall text, re_sub L ic r [] text = cut_at P text.
Proof.
  intros HP H. unfold re_sub.
  assert (H0 : match_here L ic r false [] = None) by (rewrite H, HP; reflexivity).
  induction text as [|c s IH].
  - simpl. rewrite H0, HP. reflexivity.
  - cbn [sub_go cut_at]. rewrite H. destruct (P (c :: s)).
    + cbn [List.length expand app]. apply sub_go_skip_all. exact H0.
    + rewrite IH. reflexivity.
Qed.

Lemma match_here_bound (r : regex) (adv : bool) (s : pystr) (n : nat)
    (g : option pystr) :
  match_here L ic r adv s = Some (n, g) ->
  (n <= List.length s)%nat /\ (adv = true -> 0 < n)%nat.
Proof.
  unfold match_here. intros H.
  destruct (mt_reach _ _ _ _ _ _ H) as (s1 & pos1 & g1 & Hr & Hk).
  apply reach_length in Hr. unfold accept in Hk.
  destruct adv; simpl in Hk.
  - destruct (Nat.eqb_spec pos1 0); [discriminate|].
    injection Hk as <- _. split; [lia|]. intros _. lia.
  - injection Hk as <- _. split; [lia | discriminate].
Qed.

(** [re.sub] with an empty replacement deletes matches, and nothing
    else. *)
Lemma sub_go_deletes (r : regex) (B : pystr -> nat -> Prop) :
  (forall adv s n g, match_here L ic r adv s = Some (n, g) -> B s n) ->
  forall s skip,
    (skip <= List.length s)%nat ->
    deletes B (skipn skip s) (sub_go L ic r [] s skip).
Proof.
  intros HB. induction s as [|c s IH]; intros skip Hskip.
  - simpl in Hskip. assert (skip = 0%nat) by lia. subst skip. simpl.
    destruct (match_here L ic r false []) as [[[|n] g]|]; simpl;
      try constructor.
    destruct (match_here L ic r true []) as [[n g2]|]; constructor.
  - destruct skip as [|skip].
    + cbn [skipn sub_go].
      destruct (match_here L ic r false (c :: s)) as [[[|n] g]|] eqn:E.
      * cbn [expand app].
        destruct (match_here L ic r true (c :: s)) as [[n g2]|] eqn:E2.
        -- destruct (match_here_bound _ _ _ _ _ E2) as [Hn Hpos].
           specialize (Hpos eq_refl). cbn [expand app].
           apply (deletes_cut B _ n); [exact Hpos | exact (HB _ _ _ _ E2)|].
           destruct n as [|n]; [lia|]. simpl in Hn.
           replace (S n - 1)%nat with n by lia.
           apply IH. lia.
        -- apply deletes_keep. apply (IH 0%nat). lia.
      * destruct (match_here_bound _ _ _ _ _ E) as [Hn _]. simpl in Hn.
        cbn [expand app].
        apply (deletes_cut B _ (S n)); [lia | exact (HB _ _ _ _ E)|].
        apply IH. lia.
      * apply deletes_keep. apply (IH 0%nat). lia.
    + cbn [skipn sub_go]. apply IH. simpl in Hskip. lia.
Qed.

Lemma re_sub_deletes (r : regex) (B : pystr -> nat -> Prop) :
  (forall adv s n g, match_here L ic r adv s = Some (n, g) -> B s n) ->
  forall text, deletes B text (re_sub L ic r [] text).
Proof.
  intros HB text. apply (sub_go_deletes r B HB text 0). lia.
Qed.

(** *** Greedy repetition over a known run

    [w] is a run of characters of the class and the text [s'] after it
    does not go on with one. *)








End RegexFacts.

(** ** Boilerplate removal *)

Lemma resolve_end_spec (text : pystr) (start : nat) (markers : list pystr) :
  (start <= List.length text)%nat ->
  exists e,
    resolve_end text (Z.of_nat start) (Z.of_nat start + 600) markers
      = Z.of_nat e
    /\ resolved_end text start markers e.
Proof.
  intros Hs. induction markers as [|m rest IH]; simpl.
  - exists (start + 600)%nat. split; [lia | constructor].
  - rewrite Nat2Z.id.
    destruct (find_spec m text start Hs) as [(k & Hk & Hf) | (Hn & Hf)];
      rewrite Hf.
    + destruct (Z.ltb_spec (Z.of_nat start) (Z.of_nat k));
        destruct (Z.ltb_spec (Z.of_nat k) (Z.of_nat start + 600)); simpl;
        try (exists k; split; [reflexivity|];
             apply resolved_hit; split; [exact Hk | lia]);
        destruct IH as (e & He & Hr); exists e; (split; [exact He|]);
        apply resolved_miss; auto;
        intros i [Hi Hw]; rewrite (first_occurrence_unique _ _ _ _ _ Hi Hk) in Hw;
        lia.
    + destruct (Z.ltb_spec (Z.of_nat start) (-1)); [lia|]. simpl.
      destruct IH as (e & He & Hr). exists e. split; [exact He|].
      apply resolved_miss; auto.
      intros i [(Hi & Oi & _) _]. exact (Hn i Hi Oi).
Qed.

Lemma find_first_occurrence (sub s : pystr) (from k : nat) :
  first_occurrence sub s from k -> find sub s from = Z.of_nat k.
Proof.
  intros Hk. assert (Hf : (from <= List.length s)%nat).
  { destruct Hk as (H1 & (H2 & _) & _). lia. }
  destruct (find_spec sub s from Hf) as [(k' & Hk' & E) | (Hn & _)].
  - rewrite E. f_equal. exact (first_occurrence_unique _ _ _ _ _ Hk' Hk).
  - exfalso. destruct Hk as (H1 & H2 & _). exact (Hn k H1 H2).
Qed.

(** C4 (amended): when the disclaimer marker first occurs at [start], the
    text from [start] to the resolved end is deleted and the text before
    and after is kept; the end is resolved by trying the boundary markers
    in the order of [section_ends] (message header, part separator, blank
    run), the first one whose first occurrence from [start] on lies
    strictly inside the window deciding, and is the nominal end
    [start + 600] when none does.  In particular a message header with its
    first occurrence inside the window ends the span at its own start. *)
Theorem remove_boilerplate_span :
  forall (text : pystr) (start : nat),
    first_occurrence csr_marker text 0 start ->
    (exists e,
        resolved_end text start section_ends e
        /\ _remove_boilerplate text = firstn start text ++ skipn e text)
    /\ (forall i,
          window_hit text start (py "\n\nFrom:") i ->
          _remove_boilerplate text = firstn start text ++ skipn i text).
Proof.
  intros text start Hst.
  assert (Hc : contains csr_marker text = true).
  { apply contains_spec. exists start. apply Hst. }
  assert (Hl : (start <= List.length text)%nat).
  { destruct Hst as (_ & (H & _) & _). exact H. }
  unfold _remove_boilerplate. rewrite Hc.
  rewrite (find_first_occurrence _ _ _ _ Hst).
  destruct (resolve_end_spec text start section_ends Hl) as (e & He & Hr).
  rewrite He, slice_to_nat, slice_from_nat.
  split.
  - exists e. split; [exact Hr | reflexivity].
  - intros i Hi. do 2 f_equal.
    inversion Hr as [ | m rest i' Hi' | m rest e' Hno _]; subst.
    + destruct Hi as [Hi _]. destruct Hi' as [Hi' _].
      exact (first_occurrence_unique _ _ _ _ _ Hi' Hi).
    + exfalso. exact (Hno i Hi).
Qed.

Lemma two_boundaries_first_occurrence :
  first_occurrence csr_marker two_boundaries_text 0 3.
Proof.
  split; [lia|]. split; [split; [vm_compute; lia | reflexivity]|].
  intros j Hj [_ Hs].
  assert (Hcases : j = 0%nat \/ j = 1%nat \/ j = 2%nat) by lia.
  destruct Hcases as [-> | [-> | ->]]; vm_compute in Hs; discriminate.
Qed.

Lemma remove_boilerplate_span_witness :
  (exists e,
      resolved_end two_boundaries_text 3 section_ends e
      /\ _remove_boilerplate two_boundaries_text
         = firstn 3 two_boundaries_text ++ skipn e two_boundaries_text)
  /\ (forall i,
        window_hit two_boundaries_text 3 (py "\n\nFrom:") i ->
        _remove_boilerplate two_boundaries_text
        = firstn 3 two_boundaries_text ++ skipn i two_boundaries_text).
Proof.
  exact (remove_boilerplate_span two_boundaries_text 3
           two_boundaries_first_occurrence).
Defined.

(** C4, as stated, fails: the part separator is the nearest boundary after
    the disclaimer, yet the span runs on to the message header, the first
    marker of the list with a hit in the window. *)
Lemma boilerplate_end_is_not_nearest_boundary :
  _remove_boilerplate two_boundaries_text = py "xx \n\nFrom: me"
  /\ remove_boilerplate_nearest two_boundaries_text
     = py "xx \n\n---PART---\n\nmore\n\nFrom: me"
  /\ _remove_boilerplate two_boundaries_text
     <> remove_boilerplate_nearest two_boundaries_text.
Proof.
  split; [reflexivity|]. split; [reflexivity|]. vm_compute. discriminate.
Qed.

(** ** Text extraction *)

Lemma convert_parts_blank (L : Libs) (parts : list pystr) :
  (forall part, In part parts -> strip part = []) ->
  convert_parts L parts = Return [].
Proof.
  induction parts as [|part rest IH]; intros H; simpl; [reflexivity|].
  rewrite (H part) by (left; reflexivity).
  apply IH. intros p Hp. apply H. right. exact Hp.
Qed.

(** C10: a payload whose lower-cased form holds none of [<html], [<div],
    [<p>] is returned as it is, whatever the libraries do, so neither
    splitting nor conversion takes place and a part separator in it
    stays; splitting and conversion are what a payload that passes the
    test undergoes; and when every part is empty after trimming, the
    HTML branch returns the payload itself. *)
Theorem extract_text_plain_verbatim :
  forall (L : Libs) (payload : pystr),
    (contains (py "<html") (lower L payload) = false ->
     contains (py "<div") (lower L payload) = false ->
     contains (py "<p>") (lower L payload) = false ->
     _extract_text L payload = Return payload)
    /\ (looks_like_html L payload = true ->
        _extract_text L payload = extract_html L payload)
    /\ ((forall part, In part (split part_separator payload) ->
                      strip part = []) ->
        extract_html L payload = Return payload).
Proof.
  intros L payload. split; [|split].
  - intros H1 H2 H3. unfold _extract_text, looks_like_html.
    rewrite H1, H2, H3. reflexivity.
  - intros H. unfold _extract_text. rewrite H. reflexivity.
  - intros H. unfold extract_html.
    rewrite (convert_parts_blank L _ H). reflexivity.
Qed.

Lemma extract_text_plain_verbatim_witness :
  _extract_text plain_libs (py "first\n\n---PART---\n\nsecond")
    = Return (py "first\n\n---PART---\n\nsecond")
  /\ extract_html plain_libs (py " \n\n---PART---\n\n\t")
     = Return (py " \n\n---PART---\n\n\t").
Proof.
  split.
  - apply (extract_text_plain_verbatim plain_libs
             (py "first\n\n---PART---\n\nsecond")); reflexivity.
  - apply (extract_text_plain_verbatim plain_libs
             (py " \n\n---PART---\n\n\t")).
    intros part Hp. vm_compute in Hp.
    destruct Hp as [<- | [<- | []]]; reflexivity.
Defined.

(** *** The payload is never lost

    The last case of C10 is a safeguard that the HTML test itself makes
    unreachable from [_extract_text], as long as no non-ASCII code point
    has [<] in its lower-case form: the [<] that makes the payload pass
    the test sits in a part that is not blank. *)

Lemma startswith_app (p s : pystr) :
  startswith p s = true -> s = p ++ skipn (List.length p) s.
Proof.
  revert s. induction p as [|a p IH]; intros s H; [reflexivity|].
  destruct s as [|b s]; [discriminate|]. simpl in H.
  apply andb_true_iff in H as [Hab H]. apply N.eqb_eq in Hab. subst b.
  simpl. f_equal. apply IH. exact H.
Qed.

Lemma contains_head_in (a : N) (w s : pystr) :
  contains (a :: w) s = true -> In a s.
Proof.
  induction s as [|b s IH]; intros H.
  - simpl in H. discriminate.
  - cbn [contains] in H. apply orb_true_iff in H as [H | H].
    + simpl in H. apply andb_true_iff in H as [Hab _].
      apply N.eqb_eq in Hab. left. congruence.
    + right. apply IH. exact H.
Qed.

Lemma lower_lt_in (L : Libs) (payload : pystr) :
  (forall c, 128 <= c -> ~ In 60 (unicode_lower L c)) ->
  In 60 (lower L payload) -> In 60 payload.
Proof.
  intros Htable H. unfold lower in H. apply List.in_flat_map in H as (c & Hc & Hl).
  unfold lower_char in Hl. destruct (N.ltb_spec c 128) as [Hlt|Hge].
  - destruct Hl as [Hl | []]. unfold ascii_lower in Hl.
    destruct ((65 <=? c) && (c <=? 90)) eqn:E.
    + apply andb_true_iff in E as [E1 E2]. apply N.leb_le in E1. lia.
    + subst c. exact Hc.
  - exfalso. exact (Htable c Hge Hl).
Qed.

Lemma split_go_covers (sep : pystr) (x : N) :
  sep <> [] -> ~ In x sep ->
  forall s skip cur,
    In x (skipn skip s) \/ In x cur ->
    exists part, In part (split_go sep s skip cur) /\ In x part.
Proof.
  intros Hsep Hx. induction s as [|c s IH]; intros skip cur H.
  - exists (rev cur). split; [left; reflexivity|].
    rewrite <- List.in_rev. destruct H as [H | H]; [|exact H].
    destruct skip; destruct H.
  - destruct skip as [|n]; cbn [split_go].
    + destruct (startswith sep (c :: s)) eqn:E.
      * destruct H as [H | H].
        -- apply startswith_app in E. cbn [skipn] in H. rewrite E in H.
           apply List.in_app_or in H as [H | H]; [contradiction|].
           destruct sep as [|a sep]; [congruence|].
           cbn [List.length skipn] in H.
           destruct (IH (List.length (a :: sep) - 1)%nat [])
             as (part & Hp & Hin).
           { left. cbn [List.length]. rewrite Nat.sub_succ, Nat.sub_0_r.
             exact H. }
           exists part. split; [right; exact Hp | exact Hin].
        -- exists (rev cur). split; [left; reflexivity|].
           rewrite <- List.in_rev. exact H.
      * apply IH. destruct H as [[-> | H] | H].
        -- right. left. reflexivity.
        -- left. exact H.
        -- right. right. exact H.
    + apply IH. exact H.
Qed.

Lemma lstrip_keeps (x : N) (s : pystr) :
  isspace x = false -> In x s -> In x (lstrip s).
Proof.
  intros Hx. induction s as [|c s IH]; intros H; [destruct H|].
  simpl. destruct (isspace c) eqn:Ec; [|exact H].
  destruct H as [-> | H]; [congruence | apply IH; exact H].
Qed.

Lemma strip_keeps (x : N) (s : pystr) :
  isspace x = false -> In x s -> In x (strip s).
Proof.
  intros Hx H. unfold strip, rstrip. apply lstrip_keeps; [exact Hx|].
  rewrite <- List.in_rev. apply lstrip_keeps; [exact Hx|].
  rewrite <- List.in_rev. exact H.
Qed.

Lemma html_payload_has_content (L : Libs) (payload : pystr) :
  (forall c, 128 <= c -> ~ In 60 (unicode_lower L c)) ->
  looks_like_html L payload = true ->
  exists part,
    In part (split part_separator payload) /\ strip part <> [].
Proof.
  intros Htable H. unfold looks_like_html in H.
  assert (Hlt : In 60 payload).
  { apply (lower_lt_in L payload Htable).
    apply orb_true_iff in H as [H | H];
      [apply orb_true_iff in H as [H | H]|];
      exact (contains_head_in 60 _ _ H). }
  destruct (split_go_covers part_separator 60) with (s := payload)
    (skip := 0%nat) (cur := @nil N) as (part & Hp & Hin).
  - discriminate.
  - vm_compute. intuition discriminate.
  - left. exact Hlt.
  - exists part. split; [exact Hp|].
    intros Hempty. apply (strip_keeps 60 part eq_refl) in Hin.
    rewrite Hempty in Hin. destruct Hin.
Qed.

(** ** The pipeline returns *)

Lemma convert_parts_returns (L : Libs) (parts : list pystr) :
  fallback_extractor_returns L ->
  exists cleaned, convert_parts L parts = Return cleaned.
Proof.
  intros Hb. induction parts as [|part rest (cleaned & IH)]; simpl.
  - exists []. reflexivity.
  - destruct (strip part) as [|c p] eqn:Ep; [exists cleaned; exact IH|].
    destruct (contains (py "<") (c :: p) && contains (py ">") (c :: p)).
    + destruct (Hb (_replace_inline_images L (c :: p))) as (t & Ht).
      destruct (html2text_handle L (_replace_inline_images L (c :: p)))
        as [t'|e]; simpl; rewrite ?Ht, IH; simpl; eauto.
    + rewrite IH. simpl. eauto.
Qed.

Lemma extract_text_returns (L : Libs) (payload : pystr) :
  fallback_extractor_returns L ->
  exists text, _extract_text L payload = Return text.
Proof.
  intros Hb. unfold _extract_text, extract_html.
  destruct (looks_like_html L payload); [|eauto].
  destruct (convert_parts_returns L (split part_separator payload) Hb)
    as (cleaned & ->).
  simpl. eauto.
Qed.

Lemma remove_quoted_replies_returns (L : Libs) (text : pystr) :
  exists t, _remove_quoted_replies L text = Return t.
Proof.
  unfold _remove_quoted_replies, import_quotequail.
  destruct (quotequail_unwrap L) as [f|]; simpl; [|eauto].
  destruct (f text) as [[s| |]|e]; simpl; eauto.
Qed.

(** The stages of [clean] at the three levels. *)
Lemma clean_minimal (L : Libs) (payload : pystr) (info : option MessageInfo) :
  clean L Minimal payload info
  = (text <- _extract_text L payload ;;
     Return (result_of payload
               (_normalize_whitespace L (_minimal_clean L text)))).
Proof. unfold clean. destruct (_extract_text L payload); reflexivity. Qed.

Lemma clean_standard (L : Libs) (payload : pystr) (info : option MessageInfo) :
  clean L Standard payload info
  = (text <- _extract_text L payload ;;
     Return (result_of payload
               (_normalize_whitespace L
                  (_remove_boilerplate
                     (_remove_signatures L (_minimal_clean L text)))))).
Proof. unfold clean. destruct (_extract_text L payload); reflexivity. Qed.

Lemma clean_aggressive (L : Libs) (payload : pystr)
    (info : option MessageInfo) :
  clean L Aggressive payload info
  = (text <- _extract_text L payload ;;
     text <- _remove_quoted_replies L
               (_remove_boilerplate
                  (_remove_signatures L (_minimal_clean L text))) ;;
     Return (result_of payload (_normalize_whitespace L text))).
Proof.
  unfold clean. destruct (_extract_text L payload) as [text|e]; [|reflexivity].
  cbn [bind is_aggressive at_least_standard].
  destruct (_remove_quoted_replies L _); reflexivity.
Qed.

(** What [clean] returns is built from the payload and a cleaned text. *)
Lemma clean_result_shape (L : Libs) (level : CleaningLevel) (payload : pystr)
    (info : option MessageInfo) (r : CleaningResult) :
  clean L level payload info = Return r ->
  exists text, r = result_of payload text.
Proof.
  destruct level.
  - rewrite clean_minimal. destruct (_extract_text L payload) as [t|e];
      [|discriminate].
    cbn [bind]. intros H. injection H as <-. eauto.
  - rewrite clean_standard. destruct (_extract_text L payload) as [t|e];
      [|discriminate].
    cbn [bind]. intros H. injection H as <-. eauto.
  - rewrite clean_aggressive. destruct (_extract_text L payload) as [t|e];
      [|discriminate].
    cbn [bind]. destruct (_remove_quoted_replies L _) as [t'|e];
      [|discriminate].
    cbn [bind]. intros H. injection H as <-. eauto.
Qed.

(** With a fallback extractor that returns, [clean] returns. *)
Lemma clean_returns (L : Libs) (level : CleaningLevel) (payload : pystr)
    (info : option MessageInfo) :
  fallback_extractor_returns L ->
  exists text, clean L level payload info = Return (result_of payload text).
Proof.
  intros Hb.
  destruct (extract_text_returns L payload Hb) as (t0 & Ht0).
  destruct level.
  - rewrite clean_minimal, Ht0. cbn [bind]. eauto.
  - rewrite clean_standard, Ht0. cbn [bind]. eauto.
  - rewrite clean_aggressive, Ht0. cbn [bind].
    match goal with |- context [_remove_quoted_replies L ?x] =>
      destruct (remove_quoted_replies_returns L x) as (t1 & ->) end.
    cbn [bind]. eauto.
Qed.





#[local] Set Warnings "-inexact-float".


(** On [signed_mail], 42 characters become 11: the reduction is the float
    nearest to 73.81. *)
Example reduction_percent_signed_mail :
  clean plain_libs Standard signed_mail None
  = Return {| body_clean := py "Hello world";
              stats := {| original_bytes := 42;
                          clean_bytes := 11;
                          reduction_percent := PyFloat 73.81 |} |}.
Proof. vm_compute. reflexivity. Qed.

(** Where the fallback extractor returns, so does [clean], for every
    payload, level and metadata, absent or not: a part on which html2text
    raises is handed to the fallback extractor, a quoted-text routine that
    is missing, raises or returns no string is replaced by the heuristic,
    and the attachment stage passes the text on. *)
Lemma clean_returns_with_fallback :
  forall (L : Libs),
    fallback_extractor_returns L ->
    (forall level payload info,
        exists r, clean L level payload info = Return r)
    /\ (forall part e,
          strip part <> [] ->
          contains (py "<") (strip part) = true ->
          contains (py ">") (strip part) = true ->
          html2text_handle L (_replace_inline_images L (strip part))
            = Raise e ->
          exists t,
            bs4_get_text L (_replace_inline_images L (strip part)) = Return t
            /\ convert_parts L [part] = Return [t])
    /\ (forall text,
          unwrap_fails L text ->
          _remove_quoted_replies L text = Return (quoted_fallback L text))
    /\ (forall text info, _add_attachment_placeholders text info = text).
Proof.
  intros L Hb. split; [|split; [|split]].
  - intros level payload info.
    destruct (clean_returns L level payload info Hb) as (text & ->). eauto.
  - intros part e Hne Hlt Hgt Hh. simpl.
    destruct (strip part) as [|c p] eqn:Ep; [congruence|].
    rewrite Hlt, Hgt. simpl. rewrite Hh. simpl.
    destruct (Hb (_replace_inline_images L (c :: p))) as (t & Ht).
    exists t. rewrite Ht. split; reflexivity.
  - intros text Hu. apply remove_quoted_replies_fallback. exact Hu.
  - reflexivity.
Qed.

(** C2: [clean] does raise.  The fallback extractor is called in the
    [except] branch, outside any [try]: when html2text raises on a part
    and the fallback extractor raises on it too, its exception leaves
    [clean], at every level. *)
Theorem clean_raises_when_fallback_raises :
  forall (L : Libs) (level : CleaningLevel) (info : option MessageInfo)
         (payload part : pystr) (e1 e2 : pyexc),
    looks_like_html L payload = true ->
    split part_separator payload = [payload] ->
    strip payload = part ->
    part <> [] ->
    contains (py "<") part = true ->
    contains (py ">") part = true ->
    html2text_handle L (_replace_inline_images L part) = Raise e1 ->
    bs4_get_text L (_replace_inline_images L part) = Raise e2 ->
    clean L level payload info = Raise e2.
Proof.
  intros L level info payload part e1 e2 Hh Hs Hp Hne Hlt Hgt H1 H2.
  unfold clean, _extract_text, extract_html.
  rewrite Hh, Hs. cbn [convert_parts]. rewrite Hp.
  destruct part as [|c p]; [congruence|].
  rewrite Hlt, Hgt. cbn [andb]. rewrite H1, H2. reflexivity.
Qed.

Lemma clean_raises_when_fallback_raises_witness :
  clean rejecting_libs Standard rejected_html None = Raise LibraryError.
Proof.
  apply (clean_raises_when_fallback_raises rejecting_libs Standard None
           rejected_html rejected_html LibraryError LibraryError);
    first [reflexivity | discriminate].
Defined.

(** ** Signature removal *)

Lemma delimiter_match (L : Libs) (s : pystr) :
  match_here L true (RSeqs [RLit (py "\n-- \n"); to_end]) false s
  = if delimiter_at s then Some (List.length s, None) else None.
Proof.
  unfold match_here. cbn [RSeqs mt]. rewrite mt_RLit.
  rewrite ci_startswith_exact by reflexivity. unfold delimiter_at.
  destruct (startswith (py "\n-- \n") s) eqn:E; [|reflexivity].
  rewrite to_end_accept. rewrite List.length_skipn.
  assert (List.length (py "\n-- \n") <= List.length s)%nat.
  { apply (ci_startswith_length L true).
    rewrite ci_startswith_exact by reflexivity. exact E. }
  f_equal. f_equal. lia.
Qed.

Lemma mobile_match (L : Libs) (phrase s : pystr) :
  match_here L true (mobile_marker phrase) false s
  = if mobile_at L phrase s then Some (List.length s, None) else None.
Proof.
  unfold match_here, mobile_marker, mobile_at.
  change (RSeqs [RLit (10 :: phrase); RRep CSpace 0 true; RDollar; to_end])
    with (RSeq (RLit (10 :: phrase))
               (RSeq (RRep CSpace 0 true) (RSeq RDollar to_end))).
  rewrite mt_RSeq, mt_RLit.
  destruct (ci_startswith L true (10 :: phrase) s) eqn:E; [|reflexivity].
  rewrite spaces_to_end_accept. cbn [andb List.length].
  destruct (forallb isspace (skipn (S (List.length phrase)) s));
    [|reflexivity].
  rewrite List.length_skipn. apply ci_startswith_length in E.
  simpl in E. f_equal. f_equal. simpl. lia.
Qed.

Lemma cut_at_firstn (P : pystr -> bool) (text : pystr) :
  exists i, (i <= List.length text)%nat /\ cut_at P text = firstn i text.
Proof.
  induction text as [|c s (i & Hi & IH)]; simpl.
  - exists 0%nat. split; [lia|]. destruct (P []); reflexivity.
  - destruct (P (c :: s)).
    + exists 0%nat. split; [lia | reflexivity].
    + exists (S i). split; [lia|]. simpl. rewrite IH. reflexivity.
Qed.

Lemma cut_at_app_hit (P : pystr -> bool) (pre s : pystr) :
  P s = true ->
  exists i, (i <= List.length pre)%nat /\ cut_at P (pre ++ s) = firstn i pre.
Proof.
  intros Hs. induction pre as [|c pre (i & Hi & IH)].
  - exists 0%nat. split; [simpl; lia|]. simpl.
    destruct s; simpl; rewrite Hs; reflexivity.
  - simpl. destruct (P (c :: pre ++ s)).
    + exists 0%nat. split; [lia | reflexivity].
    + exists (S i). split; [lia|]. simpl. rewrite IH. reflexivity.
Qed.

Lemma cut_at_of_firstn (P : pystr -> bool) (pre : pystr) (i : nat) :
  (i <= List.length pre)%nat ->
  exists j, (j <= List.length pre)%nat /\ cut_at P (firstn i pre) = firstn j pre.
Proof.
  intros Hi. destruct (cut_at_firstn P (firstn i pre)) as (j & Hj & ->).
  rewrite List.length_firstn in Hj. exists j. split; [lia|].
  rewrite List.firstn_firstn. f_equal. lia.
Qed.

Lemma remove_signatures_cut (L : Libs) (text : pystr) :
  _remove_signatures L text = cut_signatures L text.
Proof.
  unfold _remove_signatures, signature_markers, cut_signatures.
  cbn [fold_left].
  rewrite (re_sub_cut L true _ delimiter_at eq_refl (delimiter_match L)).
  rewrite !(re_sub_cut L true _ (mobile_at L _) eq_refl (mobile_match L _)).
  reflexivity.
Qed.

(** C5: signature removal runs at the levels Standard and Aggressive and
    not at Minimal; it cuts the text at the first place where the
    delimiter line [-- ] starts, then, in turn, at the first place from
    which the text is one of the four mobile-client phrases, in any case,
    followed by white space only; each cut works on what the previous one
    left.  A text ending in the signature of John Doe loses everything
    from the delimiter on, and so does the mail cleaned at level
    Standard. *)
Theorem remove_signatures_cuts_from_match :
  forall (L : Libs),
    (forall text, _remove_signatures L text = cut_signatures L text)
    /\ (forall pre,
          exists i,
            (i <= List.length pre)%nat
            /\ _remove_signatures L (pre ++ john_doe_signature) = firstn i pre)
    /\ (forall payload info,
          clean L Minimal payload info
          = (text <- _extract_text L payload ;;
             Return (result_of payload
                       (_normalize_whitespace L (_minimal_clean L text))))
          /\ clean L Standard payload info
             = (text <- _extract_text L payload ;;
                Return (result_of payload
                          (_normalize_whitespace L
                             (_remove_boilerplate
                                (_remove_signatures L
                                   (_minimal_clean L text))))))
          /\ clean L Aggressive payload info
             = (text <- _extract_text L payload ;;
                text <- _remove_quoted_replies L
                          (_remove_boilerplate
                             (_remove_signatures L (_minimal_clean L text))) ;;
                Return (result_of payload (_normalize_whitespace L text))))
    /\ (forall info,
          clean L Standard john_doe_mail info
          = Return (result_of john_doe_mail
                      (py "Hello team,\nthe report is attached."))).
Proof.
  intros L. split; [|split; [|split]].
  - apply remove_signatures_cut.
  - intros pre. rewrite remove_signatures_cut. unfold cut_signatures.
    destruct (cut_at_app_hit delimiter_at pre john_doe_signature eq_refl)
      as (i0 & H0 & ->).
    destruct (cut_at_of_firstn (mobile_at L (py "Sent from my iPhone")) pre i0 H0)
      as (i1 & H1 & ->).
    destruct (cut_at_of_firstn (mobile_at L (py "Sent from my iPad")) pre i1 H1)
      as (i2 & H2 & ->).
    destruct (cut_at_of_firstn (mobile_at L (py "Get Outlook for iOS")) pre i2 H2)
      as (i3 & H3 & ->).
    destruct (cut_at_of_firstn (mobile_at L (py "Get Outlook for Android")) pre i3 H3)
      as (i4 & H4 & ->).
    exists i4. split; [exact H4 | reflexivity].
  - intros payload info. split; [|split].
    + apply clean_minimal.
    + apply clean_standard.
    + apply clean_aggressive.
  - intros info. vm_compute. reflexivity.
Qed.

(** ** Quoted replies *)

Lemma mt_RSeq_reach (L : Libs) (ic : bool) (r1 r2 : regex) (s : pystr)
    (pos : nat) (g : option pystr) (k : mcont) (x : mresult) :
  mt L ic (RSeq r1 r2) s pos g k = Some x ->
  exists s1 pos1 g1,
    reach s pos s1 pos1 /\ mt L ic r2 s1 pos1 g1 k = Some x.
Proof. rewrite mt_RSeq. apply mt_reach. Qed.

(** A divider block ends at a blank-line boundary or at the end of the
    text, and holds the title, in any case. *)
Lemma divider_block_extent (L : Libs) (title : pystr) (adv : bool)
    (s : pystr) (n : nat) (g : option pystr) :
  match_here L true (divider_block_re title) adv s = Some (n, g) ->
  divider_block L title s n.
Proof.
  unfold match_here, divider_block_re, divider_block. intros H.
  change (RSeqs [RRep (CChar 10) 0 true; RRep (CChar 45) 1 true;
                 RRep CSpace 0 true; RLit title; RRep CSpace 0 true;
                 RRep (CChar 45) 1 true; RRep CAny 0 false;
                 RLook (RAlt (RLit (py "\n\n")) REnd)])
    with (RSeq (RRep (CChar 10) 0 true)
            (RSeq (RRep (CChar 45) 1 true)
               (RSeq (RRep CSpace 0 true)
                  (RSeq (RLit title)
                     (RSeq (RRep CSpace 0 true)
                        (RSeq (RRep (CChar 45) 1 true)
                           (RSeq (RRep CAny 0 false)
                              (RLook (RAlt (RLit (py "\n\n")) REnd)))))))))
    in H.
  apply mt_RSeq_reach in H as (s1 & p1 & g1 & R1 & H).
  apply mt_RSeq_reach in H as (s2 & p2 & g2 & R2 & H).
  apply mt_RSeq_reach in H as (s3 & p3 & g3 & R3 & H).
  rewrite mt_RSeq, mt_RLit in H.
  destruct (ci_startswith L true title s3) eqn:Ht; [|discriminate].
  apply mt_RSeq_reach in H as (s5 & p5 & g5 & R5 & H).
  apply mt_RSeq_reach in H as (s6 & p6 & g6 & R6 & H).
  apply mt_RSeq_reach in H as (s7 & p7 & g7 & R7 & H).
  pose proof (reach_trans _ _ _ _ _ _ R1 (reach_trans _ _ _ _ _ _ R2 R3))
    as R03.
  pose proof (reach_trans _ _ _ _ _ _ (reach_lit L true _ _ p3 Ht)
                (reach_trans _ _ _ _ _ _ R5 (reach_trans _ _ _ _ _ _ R6 R7)))
    as R37.
  pose proof (reach_trans _ _ _ _ _ _ R03 R37) as R07.
  destruct (reach_skipn _ _ _ _
              (reach_trans _ _ _ _ _ _ R5 (reach_trans _ _ _ _ _ _ R6 R7)))
    as (Htitle & _ & _).
  destruct (reach_skipn _ _ _ _ R03) as (_ & _ & E3).
  destruct (reach_skipn _ _ _ _ R07) as (_ & Hn & E7).
  rewrite Nat.sub_0_r in E3, E7, Hn.
  assert (Hend : n = p7 /\ at_block_end s7 = true).
  { cbn [mt] in H.
    destruct (mt L true (RLit (py "\n\n")) s7 p7 g7
                (fun _ pos1 g1 => Some (pos1, g1))) as [[m gm]|] eqn:Hnl.
    - rewrite mt_RLit in Hnl.
      rewrite ci_startswith_exact in Hnl by reflexivity.
      destruct (startswith (py "\n\n") s7) eqn:Hs7; [|discriminate].
      unfold accept in H.
      destruct (adv && (p7 =? 0)%nat); [discriminate|].
      injection H as <- _.
      unfold at_block_end. rewrite Hs7. auto.
    - destruct s7 as [|c s7]; [|discriminate].
      unfold accept in H.
      destruct (adv && (p7 =? 0)%nat); [discriminate|].
      injection H as <- _. auto. }
  destruct Hend as [-> Hend].
  split; [exact Hn|]. split; [rewrite E7; exact Hend|].
  exists p3. split; [lia|]. rewrite E3. exact Ht.
Qed.




(** ** White space *)

(** C7: the normalizer is not idempotent.  New-line runs are capped before
    the lines are stripped of trailing white space, so lines that held
    only blanks (or the carriage returns of CRLF line ends) leave a run of
    three new lines in the result, which a second pass shortens. *)
Theorem normalize_whitespace_twice_differs :
  forall (L : Libs),
    _normalize_whitespace L blank_lines_text = py "a\n\n\nb"
    /\ _normalize_whitespace L (_normalize_whitespace L blank_lines_text)
       = py "a\n\nb"
    /\ _normalize_whitespace L crlf_text = py "a\n\n\nb".
Proof. intros L. split; [|split]; vm_compute; reflexivity. Qed.

(** ** Inline images *)

Lemma sub_go_no_match_before (L : Libs) (ic : bool) (r : regex)
    (t : list tpl_item) (pre s : pystr) :
  (forall i, (i < List.length pre)%nat ->
             match_here L ic r false (skipn i pre ++ s) = None) ->
  sub_go L ic r t (pre ++ s) 0 = pre ++ sub_go L ic r t s 0.
Proof.
  induction pre as [|c pre IH]; intros H; [reflexivity|].
  cbn [app sub_go].
  pose proof (H 0%nat ltac:(simpl; lia)) as H0. cbn [skipn app] in H0.
  rewrite H0, IH; [reflexivity|].
  intros i Hi. apply (H (S i)). simpl. lia.
Qed.

Lemma ci_contains_skipn (L : Libs) (ic : bool) (w s : pystr) (i : nat) :
  ci_contains L ic w s = false -> ci_startswith L ic w (skipn i s) = false.
Proof.
  revert i. induction s as [|c s IH]; intros i H.
  - simpl in H. rewrite orb_false_r in H. destruct i; exact H.
  - cbn [ci_contains] in H. apply orb_false_iff in H as [H1 H2].
    destruct i as [|i]; [exact H1 | apply IH; exact H2].
Qed.


(** Both image patterns start with [<img]. *)
Lemma img_cid_needs_open (L : Libs) (s : pystr) :
  ci_startswith L true (py "<img") s = false ->
  match_here L true img_cid_re false s = None.
Proof.
  intros H. unfold match_here, img_cid_re. cbn [RSeqs].
  rewrite mt_RSeq, mt_RLit, H. reflexivity.
Qed.

Lemma img_alt_needs_open (L : Libs) (s : pystr) :
  ci_startswith L true (py "<img") s = false ->
  match_here L true img_alt_re false s = None.
Proof.
  intros H. unfold match_here, img_alt_re. cbn [RSeqs].
  rewrite mt_RSeq, mt_RLit, H. reflexivity.
Qed.















(** ** The signature corpus *)

(** One turn of the loop: a counted payload bumps its digest and becomes
    its representative, any other leaves the tables alone. *)
Lemma scan_email_spec (L : Libs) (tables : FooterTables) (email : pystr) :
  (forall footer,
      footer_candidate email = Some footer ->
      (50 < len (normalize_footer L footer))%Z ->
      exists b, encode (normalize_footer L footer) = Return b) ->
  scan_email L tables email
  = Return
      match counted_hash L email, footer_candidate email with
      | Some h, Some footer =>
          {| footer_hashes :=
               <[h := (default 0%Z (footer_hashes tables !! h) + 1)%Z]>
                 (footer_hashes tables);
             footer_text_map := <[h := footer]> (footer_text_map tables) |}
      | _, _ => tables
      end.
Proof.
  intros Henc. unfold scan_email, counted_hash, footer_candidate in *.
  destruct (10 <? List.length (split (py "\n") email))%nat; [|reflexivity].
  specialize (Henc _ eq_refl). unfold normalize_footer in *.
  destruct (Z.ltb_spec 50
              (len (strip (re_sub L false spaces_re [TText (py " ")]
                             (join (py "\n")
                                (last_n 10 (split (py "\n") email)))))))
    as [Hlt|]; [|reflexivity].
  destruct (Henc Hlt) as (b & ->). reflexivity.
Qed.

Lemma count_hash_nonneg (L : Libs) (emails : list pystr) (h : pystr) :
  (0 <= count_hash L emails h)%Z.
Proof.
  induction emails as [|e r IH]; simpl; [lia|].
  destruct (bool_decide (counted_hash L e = Some h)); lia.
Qed.

Lemma encodable_corpus_cons (L : Libs) (email : pystr) (rest : list pystr) :
  encodable_corpus L (email :: rest) ->
  (forall footer,
      footer_candidate email = Some footer ->
      (50 < len (normalize_footer L footer))%Z ->
      exists b, encode (normalize_footer L footer) = Return b)
  /\ encodable_corpus L rest.
Proof.
  intros H. split.
  - intros footer. apply H. left. reflexivity.
  - intros e footer He. apply H. right. exact He.
Qed.

Lemma counted_hash_has_footer (L : Libs) (email h : pystr) :
  counted_hash L email = Some h -> exists footer, footer_candidate email = Some footer.
Proof.
  unfold counted_hash. destruct (footer_candidate email) as [f|]; [eauto|].
  discriminate.
Qed.

(** The tables after the loop, from the tables before it. *)
Lemma scan_emails_spec (L : Libs) (emails : list pystr) :
  encodable_corpus L emails ->
  forall tables,
  exists tables',
    scan_emails L tables emails = Return tables'
    /\ (forall h,
          footer_hashes tables' !! h
          = if (count_hash L emails h =? 0)%Z
            then footer_hashes tables !! h
            else Some (default 0%Z (footer_hashes tables !! h)
                        + count_hash L emails h)%Z)
    /\ (forall h,
          footer_text_map tables' !! h
          = match last_footer L emails h with
            | Some footer => Some footer
            | None => footer_text_map tables !! h
            end).
Proof.
  induction emails as [|e r IH]; intros Henc tables.
  - exists tables. split; [reflexivity|]. split; intros h; reflexivity.
  - apply encodable_corpus_cons in Henc as [He Hr].
    cbn [scan_emails]. rewrite (scan_email_spec L tables e He). cbn [bind].
    destruct (counted_hash L e) as [he|] eqn:Ece.
    + destruct (counted_hash_has_footer L e he Ece) as (f & Ef). rewrite Ef.
      destruct (IH Hr
                  {| footer_hashes :=
                       <[he := (default 0%Z (footer_hashes tables !! he) + 1)%Z]>
                         (footer_hashes tables);
                     footer_text_map :=
                       <[he := f]> (footer_text_map tables) |})
        as (tables' & -> & Hh & Ht).
      cbn [footer_hashes footer_text_map] in Hh, Ht.
      exists tables'. split; [reflexivity|]. split; intros h.
      * rewrite Hh. cbn [count_hash].
        pose proof (count_hash_nonneg L r h) as Hnn.
        destruct (decide (he = h)) as [->|Hne].
        -- rewrite bool_decide_eq_true_2 by exact Ece.
           rewrite lookup_insert_eq. cbn [default]. unfold id.
           destruct (Z.eqb_spec (count_hash L r h) 0) as [E0|E0];
             destruct (Z.eqb_spec (1 + count_hash L r h) 0); try lia;
             f_equal; lia.
        -- rewrite bool_decide_eq_false_2 by (rewrite Ece; congruence).
           rewrite lookup_insert_ne by exact Hne.
           reflexivity.
      * rewrite Ht. cbn [last_footer].
        destruct (last_footer L r h) as [f'|]; [reflexivity|]. rewrite Ef.
        destruct (decide (he = h)) as [->|Hne].
        -- rewrite bool_decide_eq_true_2 by exact Ece.
           apply lookup_insert_eq.
        -- rewrite bool_decide_eq_false_2 by (rewrite Ece; congruence).
           apply lookup_insert_ne. exact Hne.
    + destruct (IH Hr tables) as (tables' & -> & Hh & Ht).
      exists tables'. split; [reflexivity|]. split; intros h.
      * rewrite Hh. cbn [count_hash].
        rewrite bool_decide_eq_false_2 by (rewrite Ece; congruence). reflexivity.
      * rewrite Ht. cbn [last_footer].
        rewrite bool_decide_eq_false_2 by (rewrite Ece; congruence).
        destruct (last_footer L r h); reflexivity.
Qed.

(** A digest has a representative exactly when some payload was counted
    under it. *)
Lemma last_footer_counted (L : Libs) (emails : list pystr) (h : pystr) :
  (count_hash L emails h = 0%Z <-> last_footer L emails h = None).
Proof.
  induction emails as [|e r IH]; simpl; [tauto|].
  pose proof (count_hash_nonneg L r h) as Hnn.
  destruct (bool_decide (counted_hash L e = Some h)) eqn:Eb.
  - apply bool_decide_eq_true_1 in Eb.
    destruct (counted_hash_has_footer L e h Eb) as (f & ->).
    destruct (last_footer L r h); split; intros H;
      first [lia | discriminate H].
  - destruct (last_footer L r h) as [f|].
    + split; intros H; [|discriminate].
      assert (count_hash L r h = 0%Z) by lia. apply IH in H0. discriminate.
    + split; intros _; [reflexivity|].
      destruct IH as [_ IH]. rewrite IH by reflexivity. lia.
Qed.

(** The comprehension: the representatives of the digests counted at
    least [min_occurrences] times. *)
Lemma frequent_footers_spec (tm : gmap pystr pystr) (items : list (pystr * Z))
    (min_occurrences : Z) :
  (forall h c, (h, c) ∈ items -> is_Some (tm !! h)) ->
  exists db,
    frequent_footers tm items min_occurrences = Return db
    /\ forall footer,
         footer ∈ db
         <-> exists h c,
               (h, c) ∈ items /\ (min_occurrences <= c)%Z
               /\ tm !! h = Some footer.
Proof.
  induction items as [|[h c] rest IH]; intros Hdom.
  - exists ∅. split; [reflexivity|]. intros footer. split.
    + intros H. apply not_elem_of_empty in H. destruct H.
    + intros (h & c & H & _). apply not_elem_of_nil in H. destruct H.
  - destruct IH as (db & Hdb & Hmem).
    { intros h' c' H. apply (Hdom h' c'). right. exact H. }
    cbn [frequent_footers].
    destruct (Z.leb_spec min_occurrences c) as [Hc|Hc].
    + destruct (Hdom h c (list_elem_of_here _ _)) as (f & Hf). rewrite Hf, Hdb.
      cbn [bind]. exists ({[f]} ∪ db). split; [reflexivity|].
      intros footer. rewrite elem_of_union, elem_of_singleton, Hmem. split.
      * intros [-> | (h' & c' & H1 & H2 & H3)].
        -- exists h, c. split; [left|]; auto.
        -- exists h', c'. split; [right|]; auto.
      * intros (h' & c' & H1 & H2 & H3).
        apply elem_of_cons in H1 as [E | H1].
        -- injection E as -> ->. left. congruence.
        -- right. exists h', c'. auto.
    + exists db. split; [exact Hdb|]. intros footer. rewrite Hmem. split.
      * intros (h' & c' & H1 & H2 & H3). exists h', c'. split; [right|]; auto.
      * intros (h' & c' & H1 & H2 & H3).
        apply elem_of_cons in H1 as [E | H1].
        -- injection E as -> ->. lia.
        -- exists h', c'. auto.
Qed.

(** The corpus built from [emails]. *)
Lemma build_signature_database_spec (L : Libs) (emails : list pystr)
    (min_occurrences : Z) :
  encodable_corpus L emails ->
  exists db,
    build_signature_database L emails min_occurrences
    = Return (db, Z.of_nat (size db))
    /\ forall footer,
         footer ∈ db
         <-> exists h,
               last_footer L emails h = Some footer
               /\ (min_occurrences <= count_hash L emails h)%Z.
Proof.
  intros Henc. unfold build_signature_database.
  destruct (scan_emails_spec L emails Henc
              {| footer_hashes := ∅; footer_text_map := ∅ |})
    as (tables & -> & Hh & Ht).
  cbn [bind footer_hashes footer_text_map] in *.
  assert (Hh' : forall h,
             footer_hashes tables !! h
             = if (count_hash L emails h =? 0)%Z then None
               else Some (count_hash L emails h)).
  { intros h. rewrite Hh, lookup_empty. cbn [default].
    destruct (count_hash L emails h =? 0)%Z; reflexivity. }
  assert (Ht' : forall h, footer_text_map tables !! h = last_footer L emails h).
  { intros h. rewrite Ht, lookup_empty.
    destruct (last_footer L emails h); reflexivity. }
  destruct (frequent_footers_spec (footer_text_map tables)
              (map_to_list (footer_hashes tables)) min_occurrences)
    as (db & -> & Hmem).
  { intros h c H. apply elem_of_map_to_list in H. rewrite Hh' in H.
    rewrite Ht'.
    destruct (Z.eqb_spec (count_hash L emails h) 0) as [|Hne]; [discriminate|].
    destruct (last_footer L emails h) as [f|] eqn:E; [eauto|].
    apply last_footer_counted in E. contradiction. }
  cbn [bind]. exists db. split; [reflexivity|].
  intros footer. rewrite Hmem. split.
  - intros (h & c & H1 & H2 & H3). exists h.
    apply elem_of_map_to_list in H1. rewrite Hh' in H1. rewrite Ht' in H3.
    destruct (count_hash L emails h =? 0)%Z; [discriminate|].
    injection H1 as <-. auto.
  - intros (h & H1 & H2). exists h, (count_hash L emails h).
    split; [|split; [exact H2 | rewrite Ht'; exact H1]].
    apply elem_of_map_to_list. rewrite Hh'.
    destruct (Z.eqb_spec (count_hash L emails h) 0) as [E|]; [|reflexivity].
    apply last_footer_counted in E. congruence.
Qed.

Lemma count_hash_all (L : Libs) (emails : list pystr) (h0 : pystr) :
  (forall e, In e emails -> counted_hash L e = Some h0) ->
  count_hash L emails h0 = Z.of_nat (List.length emails).
Proof.
  induction emails as [|e r IH]; intros H; [reflexivity|].
  cbn [count_hash List.length].
  rewrite bool_decide_eq_true_2 by (apply H; left; reflexivity).
  rewrite IH by (intros e' He'; apply H; right; exact He'). lia.
Qed.

Lemma count_hash_other (L : Libs) (emails : list pystr) (h0 h : pystr) :
  (forall e, In e emails -> counted_hash L e = Some h0) ->
  h <> h0 ->
  count_hash L emails h = 0%Z.
Proof.
  induction emails as [|e r IH]; intros H Hne; [reflexivity|].
  cbn [count_hash].
  rewrite bool_decide_eq_false_2
    by (rewrite (H e) by (left; reflexivity); congruence).
  rewrite IH; [reflexivity | | exact Hne].
  intros e' He'. apply H. right. exact He'.
Qed.

(** C9 (amended): the corpus holds, for each digest counted at least
    [min_occurrences] times, the footer of the last payload counted under
    it, and its size is returned; a payload is counted when it has more
    than ten lines and its last ten lines, with white-space runs turned
    into single spaces and the ends trimmed, have more than 50 characters,
    under the digest of that normalized text.  When all payloads of a
    non-empty corpus are counted and share their normalized footer, and
    there are at least [min_occurrences] of them, the size is 1. *)
Theorem signature_corpus_by_frequency :
  forall (L : Libs) (emails : list pystr) (min_occurrences : Z),
    encodable_corpus L emails ->
    (exists db,
        build_signature_database L emails min_occurrences
        = Return (db, Z.of_nat (size db))
        /\ forall footer,
             footer ∈ db
             <-> exists h,
                   last_footer L emails h = Some footer
                   /\ (min_occurrences <= count_hash L emails h)%Z)
    /\ (forall n,
          emails <> [] ->
          (forall e, In e emails ->
                     exists footer,
                       footer_candidate e = Some footer
                       /\ normalize_footer L footer = n) ->
          (50 < len n)%Z ->
          (min_occurrences <= Z.of_nat (List.length emails))%Z ->
          exists db,
            build_signature_database L emails min_occurrences
            = Return (db, 1%Z)).
Proof.
  intros L emails min_occurrences Henc.
  destruct (build_signature_database_spec L emails min_occurrences Henc)
    as (db & Hrun & Hmem).
  split; [exists db; split; assumption|].
  intros n Hne Hshare Hlen Hmin.
  (* every payload is counted under the digest of [n] *)
  assert (Hb : exists b, encode n = Return b).
  { destruct emails as [|e r]; [congruence|].
    destruct (Hshare e (or_introl eq_refl)) as (footer & Hf & Hn).
    rewrite <- Hn. apply (Henc e footer); [left; reflexivity | exact Hf|].
    rewrite Hn. exact Hlen. }
  destruct Hb as (b & Hb).
  assert (Hall : forall e, In e emails ->
                           counted_hash L e = Some (md5_hexdigest L b)).
  { intros e He. destruct (Hshare e He) as (footer & Hf & Hn).
    unfold counted_hash. rewrite Hf. cbn zeta. rewrite Hn.
    destruct (Z.ltb_spec 50 (len n)); [|lia]. rewrite Hb. reflexivity. }
  pose proof (count_hash_all L emails _ Hall) as Hcount.
  assert (Hpos : count_hash L emails (md5_hexdigest L b) <> 0%Z).
  { rewrite Hcount. destruct emails; [congruence | simpl; lia]. }
  destruct (last_footer L emails (md5_hexdigest L b)) as [f0|] eqn:Ef0;
    [|apply last_footer_counted in Ef0; contradiction].
  assert (Hdb : db = {[f0]}).
  { apply set_eq. intros footer. rewrite Hmem, elem_of_singleton. split.
    - intros (h & Hh & _).
      destruct (decide (h = md5_hexdigest L b)) as [->|Hneq].
      + congruence.
      + pose proof (count_hash_other L emails _ h Hall Hneq) as H0.
        apply last_footer_counted in H0. congruence.
    - intros ->. exists (md5_hexdigest L b). split; [exact Ef0 | lia]. }
  exists db. rewrite Hrun. rewrite Hdb, size_singleton. reflexivity.
Qed.

Lemma team_corpus_encodable :
  encodable_corpus plain_libs (List.repeat team_mail 150).
Proof.
  intros e footer He Hf _. apply List.repeat_spec in He. subst e.
  vm_compute in Hf. injection Hf as <-. eexists. vm_compute. reflexivity.
Qed.

Lemma signature_corpus_by_frequency_witness :
  exists db,
    build_signature_database plain_libs (List.repeat team_mail 150) 100
    = Return (db, 1%Z).
Proof.
  destruct (signature_corpus_by_frequency plain_libs
              (List.repeat team_mail 150) 100 team_corpus_encodable)
    as [_ Hone].
  apply (Hone (py "body l3 l4 l5 l6 l7 l8 l9 "
               ++ py "Best regards, the whole team of the company phone 12345")).
  - discriminate.
  - intros e He. apply List.repeat_spec in He. subst e.
    eexists. split; [reflexivity | vm_compute; reflexivity].
  - vm_compute. reflexivity.
  - vm_compute. discriminate.
Defined.

(** C9, as stated, fails: 150 payloads of eleven lines share a footer of
    exactly 50 characters once normalized, which is not shorter than 50;
    with the threshold 100 the corpus is empty.  It is empty as well for
    150 payloads that are their ten-line footer and nothing more. *)
Lemma fifty_character_footer_is_discarded :
  build_signature_database plain_libs (List.repeat fifty_mail 150) 100
  = Return (∅, 0%Z)
  /\ List.length (split (py "\n") fifty_mail) = 11%nat
  /\ option_map (fun footer => len (normalize_footer plain_libs footer))
                (footer_candidate fifty_mail)
     = Some 50%Z
  /\ build_signature_database plain_libs (List.repeat ten_line_mail 150) 100
     = Return (∅, 0%Z)
  /\ List.length (split (py "\n") ten_line_mail) = 10%nat
  /\ len (normalize_footer plain_libs ten_line_mail) = 81%Z.
Proof. repeat split; vm_compute; reflexivity. Qed.

(** ** Byte counts *)

(** C3: [original_bytes] and [clean_bytes] are computed with [len] on the
    strings, that is, they count code points.  On the one-character payload
    U+4E2D (which has no lower-case form of its own), whose encoding has
    three bytes, both fields are 1 at every level. *)
Theorem stats_count_code_points_not_bytes :
  forall (L : Libs) (level : CleaningLevel) (info : option MessageInfo),
    unicode_lower L 20013 = [20013] ->
    (forall t, unwrap_fails L t) ->
    stats_of (clean L level [20013] info) = Some (1, 1)%Z
    /\ encoded_length [20013] = Some 3%Z.
Proof.
  intros L level info Hl Hq. split; [|reflexivity].
  unfold clean, _extract_text, looks_like_html, lower, lower_char.
  simpl flat_map. rewrite Hl. simpl app.
  destruct level; simpl; rewrite ?remove_quoted_replies_fallback by apply Hq;
    reflexivity.
Qed.

Lemma stats_count_code_points_not_bytes_witness :
  stats_of (clean plain_libs Aggressive [20013] None) = Some (1, 1)%Z
  /\ encoded_length [20013] = Some 3%Z.
Proof.
  apply (stats_count_code_points_not_bytes plain_libs Aggressive None).
  - reflexivity.
  - exact plain_libs_unwrap_fails.
Defined.


(** ** Splitting and joining *)

Lemma split_go_nonempty (sep s : pystr) (skip : nat) (cur : pystr) :
  split_go sep s skip cur <> [].
Proof.
  revert skip cur. induction s as [|c s IH]; intros skip cur; simpl.
  - discriminate.
  - destruct skip as [|n]; [|apply IH].
    destruct (startswith sep (c :: s)); [discriminate | apply IH].
Qed.

Lemma join_cons (sep x : pystr) (r : list pystr) :
  r <> [] -> join sep (x :: r) = x ++ sep ++ join sep r.
Proof. destruct r; [congruence | reflexivity]. Qed.

Lemma split_go_skip_app (sep w s cur : pystr) :
  split_go sep (w ++ s) (List.length w) cur = split_go sep s 0 cur.
Proof. induction w as [|c w IH]; [reflexivity | exact IH]. Qed.

(** [sep.join(s.split(sep))] is [s]. *)
Lemma join_split_go (sep : pystr) :
  sep <> [] ->
  forall s skip cur,
    join sep (split_go sep s skip cur) = rev cur ++ skipn skip s.
Proof.
  intros Hsep. induction s as [|c s IH]; intros skip cur.
  - cbn [split_go join]. rewrite List.skipn_nil, List.app_nil_r. reflexivity.
  - destruct skip as [|n]; cbn [split_go skipn].
    + destruct (startswith sep (c :: s)) eqn:E.
      * rewrite join_cons by apply split_go_nonempty.
        rewrite IH. destruct sep as [|a sep]; [congruence|].
        apply startswith_app in E. cbn [List.length skipn] in E.
        cbn [List.length rev app]. rewrite Nat.sub_succ, Nat.sub_0_r.
        cbn [app] in E. rewrite <- E. reflexivity.
      * rewrite IH. cbn [rev skipn]. rewrite <- List.app_assoc. reflexivity.
    + apply IH.
Qed.

Lemma join_split (sep s : pystr) :
  sep <> [] -> join sep (split sep s) = s.
Proof. intros H. unfold split. rewrite join_split_go by exact H. reflexivity. Qed.

(** The accumulator of [split_go] is a prefix of the first piece. *)
Lemma split_go_cur (sep : pystr) :
  forall s skip cur,
    split_go sep s skip cur
    = match split_go sep s skip [] with
      | h :: t => (rev cur ++ h) :: t
      | [] => []
      end.
Proof.
  induction s as [|c s IH]; intros skip cur.
  - cbn [split_go rev]. rewrite List.app_nil_r. reflexivity.
  - destruct skip as [|n]; cbn [split_go].
    + destruct (startswith sep (c :: s)).
      * cbn [rev]. rewrite List.app_nil_r. reflexivity.
      * rewrite (IH 0%nat (c :: cur)), (IH 0%nat [c]).
        destruct (split_go sep s 0 []) as [|h t]; [reflexivity|].
        cbn [rev app]. rewrite <- List.app_assoc. reflexivity.
    + apply IH.
Qed.

(** Splitting on a single character, one character at a time. *)
Lemma split_char_cons (x c : N) (s : pystr) :
  split [x] (c :: s)
  = if x =? c then [] :: split [x] s
    else match split [x] s with
         | h :: t => (c :: h) :: t
         | [] => []
         end.
Proof.
  unfold split. cbn [split_go startswith List.length Nat.sub rev].
  rewrite andb_true_r. destruct (x =? c); [reflexivity|].
  rewrite (split_go_cur [x] s 0 [c]). reflexivity.
Qed.

Lemma split_char_nil (x : N) : split [x] [] = [[]].
Proof. reflexivity. Qed.

(** The pieces hold no separator. *)
Lemma split_char_pieces (x : N) (s : pystr) :
  Forall (fun l => ~ In x l) (split [x] s).
Proof.
  induction s as [|c s IH].
  - constructor; [intros [] | constructor].
  - rewrite split_char_cons. destruct (N.eqb_spec x c) as [->|Hne].
    + constructor; [intros [] | exact IH].
    + destruct (split [x] s) as [|h t]; [constructor|].
      inversion IH as [|? ? Hh Ht]; subst. constructor; [|exact Ht].
      intros [E | H]; [congruence | exact (Hh H)].
Qed.

Lemma split_char_single (x : N) (l : pystr) :
  ~ In x l -> split [x] l = [l].
Proof.
  induction l as [|c l IH]; intros Hl; [reflexivity|].
  rewrite split_char_cons.
  destruct (N.eqb_spec x c) as [->|Hxc]; [exfalso; apply Hl; left; reflexivity|].
  rewrite IH; [reflexivity|]. intros H. apply Hl. right. exact H.
Qed.

Lemma split_char_app (x : N) (l r : pystr) :
  ~ In x l -> split [x] (l ++ x :: r) = l :: split [x] r.
Proof.
  induction l as [|c l IH]; intros Hl.
  - cbn [app]. rewrite split_char_cons, N.eqb_refl. reflexivity.
  - cbn [app]. rewrite split_char_cons.
    destruct (N.eqb_spec x c) as [->|Hxc]; [exfalso; apply Hl; left; reflexivity|].
    rewrite IH; [reflexivity|]. intros H. apply Hl. right. exact H.
Qed.

(** Joining pieces that hold no separator and splitting again gives the
    pieces back. *)
Lemma split_char_join (x : N) (ls : list pystr) :
  ls <> [] -> Forall (fun l => ~ In x l) ls ->
  split [x] (join [x] ls) = ls.
Proof.
  induction ls as [|l ls IH]; intros Hne Hall; [congruence|].
  inversion Hall as [|? ? Hl Hls]; subst.
  destruct ls as [|l' ls].
  - cbn [join]. apply split_char_single. exact Hl.
  - rewrite join_cons by discriminate. cbn [app].
    rewrite split_char_app by exact Hl.
    rewrite IH; [reflexivity | discriminate | exact Hls].
Qed.

Lemma length_join_map_le (sep : pystr) (f : pystr -> pystr) (ls : list pystr) :
  (forall l, (List.length (f l) <= List.length l)%nat) ->
  (List.length (join sep (map f ls)) <= List.length (join sep ls))%nat.
Proof.
  intros Hf. induction ls as [|l ls IH]; [simpl; lia|].
  destruct ls as [|l' ls].
  - simpl. apply Hf.
  - cbn [map]. cbn [map] in IH.
    rewrite (join_cons sep l (l' :: ls)) by discriminate.
    rewrite (join_cons sep (f l) (f l' :: map f ls)) by discriminate.
    rewrite !List.length_app. specialize (Hf l). lia.
Qed.

Lemma length_join_filter_le (sep : pystr) (p : pystr -> bool)
    (ls : list pystr) :
  (List.length (join sep (List.filter p ls)) <= List.length (join sep ls))%nat.
Proof.
  induction ls as [|l ls IH]; [simpl; lia|].
  cbn [List.filter]. destruct ls as [|l' ls].
  - destruct (p l); simpl; lia.
  - rewrite (join_cons sep l (l' :: ls)) by discriminate.
    rewrite !List.length_app. destruct (p l).
    + destruct (List.filter p (l' :: ls)) as [|y r] eqn:Ef.
      * cbn [join]. lia.
      * rewrite join_cons by discriminate. rewrite !List.length_app. lia.
    + lia.
Qed.

(** ** Trimming *)

Lemma lstrip_suffix (s : pystr) :
  exists w, s = w ++ lstrip s /\ forallb isspace w = true.
Proof.
  induction s as [|c s (w & Hw & Hsp)].
  - exists []. split; reflexivity.
  - simpl. destruct (isspace c) eqn:Ec.
    + exists (c :: w). split; [simpl; f_equal; exact Hw|].
      simpl. rewrite Ec. exact Hsp.
    + exists []. split; reflexivity.
Qed.

Lemma lstrip_starts_trimmed (s : pystr) : starts_trimmed (lstrip s) = true.
Proof.
  induction s as [|c s IH]; [reflexivity|].
  simpl. destruct (isspace c) eqn:Ec; [exact IH|]. simpl. rewrite Ec. reflexivity.
Qed.

Lemma lstrip_fixed (s : pystr) : starts_trimmed s = true -> lstrip s = s.
Proof.
  destruct s as [|c s]; [reflexivity|]. simpl.
  destruct (isspace c); [discriminate | reflexivity].
Qed.

Lemma lstrip_length (s : pystr) : (List.length (lstrip s) <= List.length s)%nat.
Proof.
  destruct (lstrip_suffix s) as (w & Hw & _). rewrite Hw at 2.
  rewrite List.length_app. lia.
Qed.

Lemma rstrip_prefix (s : pystr) :
  exists w, s = rstrip s ++ w /\ forallb isspace w = true.
Proof.
  unfold rstrip. destruct (lstrip_suffix (rev s)) as (w & Hw & Hsp).
  exists (rev w). split.
  - rewrite <- List.rev_app_distr, <- Hw, List.rev_involutive. reflexivity.
  - rewrite List.forallb_forall in *. intros x Hx. apply Hsp.
    apply List.in_rev. exact Hx.
Qed.

Lemma rstrip_ends_trimmed (s : pystr) : ends_trimmed (rstrip s) = true.
Proof.
  unfold ends_trimmed, rstrip. rewrite List.rev_involutive.
  apply (lstrip_starts_trimmed (rev s)).
Qed.

Lemma rstrip_fixed (s : pystr) : ends_trimmed s = true -> rstrip s = s.
Proof.
  unfold ends_trimmed, rstrip. intros H.
  rewrite lstrip_fixed by exact H. apply List.rev_involutive.
Qed.

Lemma rstrip_length (s : pystr) : (List.length (rstrip s) <= List.length s)%nat.
Proof.
  destruct (rstrip_prefix s) as (w & Hw & _). rewrite Hw at 2.
  rewrite List.length_app. lia.
Qed.

Lemma strip_length (s : pystr) : (List.length (strip s) <= List.length s)%nat.
Proof.
  unfold strip. pose proof (lstrip_length (rstrip s)).
  pose proof (rstrip_length s). lia.
Qed.

Lemma ends_trimmed_app (w s : pystr) :
  s <> [] -> ends_trimmed (w ++ s) = ends_trimmed s.
Proof.
  intros Hs. unfold ends_trimmed. rewrite List.rev_app_distr.
  destruct (rev s) as [|c r] eqn:E; [|reflexivity].
  apply (f_equal (@rev N)) in E. rewrite List.rev_involutive in E. contradiction.
Qed.

Lemma ends_trimmed_cons (c : N) (s : pystr) :
  ends_trimmed (c :: s)
  = match s with [] => negb (isspace c) | _ :: _ => ends_trimmed s end.
Proof.
  destruct s as [|d s]; [reflexivity|].
  apply (ends_trimmed_app [c] (d :: s)). discriminate.
Qed.

(** Trimming at the left keeps a trimmed right end. *)
Lemma lstrip_ends_trimmed (s : pystr) :
  ends_trimmed s = true -> ends_trimmed (lstrip s) = true.
Proof.
  induction s as [|c s IH]; intros H; [reflexivity|].
  simpl. destruct (isspace c) eqn:Ec; [|exact H].
  rewrite ends_trimmed_cons in H. destruct s as [|d s].
  - rewrite Ec in H. discriminate.
  - apply IH. exact H.
Qed.

Lemma strip_trimmed (s : pystr) :
  starts_trimmed (strip s) = true /\ ends_trimmed (strip s) = true.
Proof.
  unfold strip. split; [apply lstrip_starts_trimmed|].
  apply lstrip_ends_trimmed, rstrip_ends_trimmed.
Qed.

Lemma strip_fixed (s : pystr) :
  starts_trimmed s = true -> ends_trimmed s = true -> strip s = s.
Proof.
  intros H1 H2. unfold strip. rewrite (rstrip_fixed s H2). apply lstrip_fixed, H1.
Qed.

(** [s.strip().strip()] is [s.strip()]. *)
Lemma strip_idempotent (s : pystr) : strip (strip s) = strip s.
Proof. destruct (strip_trimmed s). apply strip_fixed; assumption. Qed.

Lemma rstrip_fixed_ends (s : pystr) : rstrip s = s -> ends_trimmed s = true.
Proof. intros H. rewrite <- H. apply rstrip_ends_trimmed. Qed.

Lemma strip_fixed_ends (s : pystr) :
  strip s = s -> starts_trimmed s = true /\ ends_trimmed s = true.
Proof. intros H. rewrite <- H. apply strip_trimmed. Qed.

(** ** Substitution of runs

    [re.sub] for a pattern [cs{n,}], [0 < n]: a run of at least [n]
    characters of the class is replaced as a whole, any other character
    is kept. *)

Section Runs.

Variable L : Libs.
Variable ic : bool.

Lemma run_length (cs : cset) (s : pystr) :
  (run L ic cs s <= List.length s)%nat.
Proof.
  induction s as [|c s IH]; simpl; [lia|].
  destruct (cs_match L ic cs c); simpl; lia.
Qed.

Lemma run_skipn (cs : cset) (n : nat) :
  forall s, (n <= run L ic cs s)%nat ->
            run L ic cs (skipn n s) = (run L ic cs s - n)%nat.
Proof.
  induction n as [|n IH]; intros s H.
  - cbn [skipn]. rewrite Nat.sub_0_r. reflexivity.
  - destruct s as [|c s]; cbn [run skipn] in *; [lia|].
    destruct (cs_match L ic cs c); [|lia].
    rewrite Nat.sub_succ. apply IH. lia.
Qed.

(** After a run the text does not go on with a character of the class. *)
Lemma run_stops (cs : cset) (s : pystr) :
  run L ic cs (skipn (run L ic cs s) s) = 0%nat.
Proof. rewrite run_skipn by lia. lia. Qed.

Lemma need_run (cs : cset) (n : nat) :
  forall s pos g k,
    need L ic cs n s pos g k
    = if (n <=? run L ic cs s)%nat
      then k (skipn n s) (pos + n)%nat g
      else None.
Proof.
  induction n as [|n IH]; intros s pos g k.
  - simpl. rewrite Nat.add_0_r. reflexivity.
  - destruct s as [|c s]; [reflexivity|]. cbn [need run skipn].
    destruct (cs_match L ic cs c); [|reflexivity].
    rewrite IH. change (S n <=? S (run L ic cs s))%nat
      with (n <=? run L ic cs s)%nat.
    replace (S pos + n)%nat with (pos + S n)%nat by lia. reflexivity.
Qed.

Lemma rep_run (cs : cset) (adv : bool) :
  forall s pos g,
    rep L ic cs true s pos g (accept adv)
    = accept adv (skipn (run L ic cs s) s) (pos + run L ic cs s)%nat g.
Proof.
  induction s as [|c s IH]; intros pos g.
  - simpl. rewrite Nat.add_0_r. reflexivity.
  - cbn [rep run]. destruct (cs_match L ic cs c).
    + rewrite IH. cbn [skipn].
      replace (S pos + run L ic cs s)%nat
        with (pos + S (run L ic cs s))%nat by lia.
      unfold accept.
      destruct (Nat.eqb_spec (pos + S (run L ic cs s)) 0) as [E|_]; [lia|].
      rewrite andb_false_r. reflexivity.
    + cbn [skipn]. rewrite Nat.add_0_r. reflexivity.
Qed.

(** One match attempt of [cs{n,}]: the whole run, when it is long
    enough. *)
Lemma match_run (cs : cset) (n : nat) (adv : bool) (s : pystr) :
  (0 < n)%nat ->
  match_here L ic (RRep cs n true) adv s
  = if (n <=? run L ic cs s)%nat then Some (run L ic cs s, None) else None.
Proof.
  intros Hn. unfold match_here. cbn [mt]. rewrite need_run.
  destruct (Nat.leb_spec n (run L ic cs s)) as [Hle|]; [|reflexivity].
  rewrite rep_run, run_skipn by exact Hle. unfold accept.
  replace (0 + n + (run L ic cs s - n))%nat with (run L ic cs s) by lia.
  destruct (Nat.eqb_spec (run L ic cs s) 0) as [E|_]; [lia|].
  rewrite andb_false_r. reflexivity.
Qed.

Lemma sub_go_skip (r : regex) (t : list tpl_item) :
  forall s skip,
    (skip <= List.length s)%nat ->
    sub_go L ic r t s skip = sub_go L ic r t (skipn skip s) 0.
Proof.
  induction s as [|c s IH]; intros skip H.
  - simpl in H. assert (skip = 0%nat) by lia. subst. reflexivity.
  - destruct skip as [|n]; [reflexivity|]. cbn [sub_go skipn].
    apply IH. simpl in H. lia.
Qed.

(** The unfolding of [re.sub] for [cs{n,}]. *)
Lemma sub_run_nil (cs : cset) (n : nat) (t : list tpl_item) :
  (0 < n)%nat -> re_sub L ic (RRep cs n true) t [] = [].
Proof.
  intros Hn. unfold re_sub. cbn [sub_go]. rewrite match_run by exact Hn.
  cbn [run]. destruct n; [lia | reflexivity].
Qed.

Lemma sub_run_cons (cs : cset) (n : nat) (t : list tpl_item) (c : N)
    (s : pystr) :
  (0 < n)%nat ->
  re_sub L ic (RRep cs n true) t (c :: s)
  = if (n <=? run L ic cs (c :: s))%nat
    then expand t None
         ++ re_sub L ic (RRep cs n true) t
              (skipn (run L ic cs (c :: s)) (c :: s))
    else c :: re_sub L ic (RRep cs n true) t s.
Proof.
  intros Hn. unfold re_sub. cbn [sub_go]. rewrite match_run by exact Hn.
  destruct (Nat.leb_spec n (run L ic cs (c :: s))) as [Hle|]; [|reflexivity].
  destruct (run L ic cs (c :: s)) as [|m] eqn:Er; [lia|].
  f_equal. cbn [skipn]. apply sub_go_skip.
  pose proof (run_length cs (c :: s)) as Hl. rewrite Er in Hl. simpl in Hl. lia.
Qed.

End Runs.

Lemma length_induction (P : pystr -> Prop) :
  (forall s, (forall s', (List.length s' < List.length s)%nat -> P s') -> P s) ->
  forall s, P s.
Proof.
  intros Hstep s.
  assert (H : forall m s, (List.length s < m)%nat -> P s).
  { clear s. induction m as [|m IH]; intros s Hs; [lia|].
    apply Hstep. intros s' Hs'. apply IH. lia. }
  apply (H (S (List.length s))). lia.
Qed.


(** ** The normalizer, step by step *)

Lemma normalize_whitespace_steps (L : Libs) (text : pystr) :
  _normalize_whitespace L text
  = strip (rstrip_lines (cap_blank_lines L (collapse_blanks L text))).
Proof. reflexivity. Qed.

Section Normalizer.

Variable L : Libs.

Lemma blank_match (c : N) :
  cs_match L false (COneOf [32; 9]) c = is_blank c.
Proof. unfold is_blank. simpl. rewrite orb_false_r. reflexivity. Qed.

Lemma newline_match (c : N) : cs_match L false (CChar 10) c = (c =? 10).
Proof. unfold cs_match, lit_match. simpl. rewrite orb_false_r. reflexivity. Qed.

(** *** Collapsing blanks *)

Lemma collapse_blanks_nil : collapse_blanks L [] = [].
Proof. apply sub_run_nil. lia. Qed.

Lemma collapse_blanks_keep (c : N) (s : pystr) :
  is_blank c = false ->
  collapse_blanks L (c :: s) = c :: collapse_blanks L s.
Proof.
  intros H. unfold collapse_blanks, blanks_re.
  rewrite sub_run_cons by lia. cbn [run]. rewrite blank_match, H. reflexivity.
Qed.

Lemma collapse_blanks_run (c : N) (s : pystr) :
  is_blank c = true ->
  collapse_blanks L (c :: s)
  = 32 :: collapse_blanks L
            (skipn (run L false (COneOf [32; 9]) s) s).
Proof.
  intros H. unfold collapse_blanks, blanks_re.
  rewrite sub_run_cons by lia. cbn [run]. rewrite blank_match, H.
  reflexivity.
Qed.

Lemma spaced_once_weaken (s : pystr) :
  spaced_once true s = true -> spaced_once false s = true.
Proof.
  destruct s as [|c s]; [reflexivity|]. simpl.
  intros H. apply andb_true_iff in H as [H1 H2].
  apply andb_true_iff in H1 as [H0 _]. rewrite H0, H2. reflexivity.
Qed.

Lemma spaced_once_skipn (n : nat) :
  forall b s, spaced_once b s = true -> spaced_once false (skipn n s) = true.
Proof.
  induction n as [|n IH]; intros b s H.
  - destruct b; [apply spaced_once_weaken|]; exact H.
  - destruct s as [|c s]; [reflexivity|]. simpl in H.
    apply andb_true_iff in H as [_ H]. exact (IH _ _ H).
Qed.

Lemma spaced_once_firstn (n : nat) :
  forall b s, spaced_once b s = true -> spaced_once b (firstn n s) = true.
Proof.
  induction n as [|n IH]; intros b s H; [reflexivity|].
  destruct s as [|c s]; [reflexivity|]. simpl in *.
  apply andb_true_iff in H as [H1 H2]. rewrite H1. exact (IH _ _ H2).
Qed.

Lemma spaced_once_app_inv (x y : pystr) :
  forall b, spaced_once b (x ++ y) = true -> spaced_once b x = true.
Proof.
  induction x as [|c x IH]; intros b H; [reflexivity|].
  simpl in *. apply andb_true_iff in H as [H1 H2]. rewrite H1.
  exact (IH _ H2).
Qed.

(** The collapsed text holds no tab and no two spaces in a row; when the
    text does not begin with a blank, its collapsed form may follow a
    space. *)
Lemma collapse_blanks_spaced (s : pystr) :
  spaced_once false (collapse_blanks L s) = true
  /\ (run L false (COneOf [32; 9]) s = 0%nat ->
      spaced_once true (collapse_blanks L s) = true).
Proof.
  induction s as [s IH] using length_induction.
  destruct s as [|c s]; [rewrite collapse_blanks_nil; split; reflexivity|].
  destruct (is_blank c) eqn:Ec.
  - rewrite (collapse_blanks_run c s Ec). split.
    + cbn [spaced_once]. change (32 =? 9) with false.
      change (32 =? 32) with true. cbn [negb andb].
      apply IH.
      * rewrite List.length_skipn. simpl. lia.
      * apply run_stops.
    + cbn [run]. rewrite blank_match, Ec. discriminate.
  - rewrite (collapse_blanks_keep c s Ec).
    unfold is_blank in Ec. apply orb_false_iff in Ec as [E32 E9].
    assert (Hs : spaced_once false (collapse_blanks L s) = true).
    { apply IH. simpl. lia. }
    split; [|intros _]; cbn [spaced_once]; rewrite E32, E9, ?andb_false_r;
      exact Hs.
Qed.

(** A text in that form is left alone. *)
Lemma collapse_blanks_fixed (s : pystr) :
  forall b, spaced_once b s = true -> collapse_blanks L s = s.
Proof.
  induction s as [|c s IH]; intros b H; [apply collapse_blanks_nil|].
  simpl in H. apply andb_true_iff in H as [H1 H2].
  apply andb_true_iff in H1 as [H9 Hb].
  destruct (is_blank c) eqn:Ec.
  - rewrite (collapse_blanks_run c s Ec).
    unfold is_blank in Ec. apply negb_true_iff in H9. rewrite H9 in Ec.
    rewrite orb_false_r in Ec. apply N.eqb_eq in Ec. subst c.
    assert (Hr : run L false (COneOf [32; 9]) s = 0%nat).
    { destruct s as [|d s]; [reflexivity|]. cbn [run]. rewrite blank_match.
      simpl in H2. apply andb_true_iff in H2 as [H2 _].
      apply andb_true_iff in H2 as [Hd9 Hd32].
      unfold is_blank. apply negb_true_iff in Hd9, Hd32.
      simpl in Hd32. rewrite Hd9, Hd32. reflexivity. }
    rewrite Hr. cbn [skipn]. f_equal. exact (IH _ H2).
  - rewrite (collapse_blanks_keep c s Ec). f_equal. exact (IH _ H2).
Qed.

(** *** Capping new-line runs *)

Lemma cap_blank_lines_nil : cap_blank_lines L [] = [].
Proof. apply sub_run_nil. lia. Qed.

Lemma cap_blank_lines_cons (c : N) (s : pystr) :
  cap_blank_lines L (c :: s)
  = if (3 <=? run L false (CChar 10) (c :: s))%nat
    then 10 :: 10 :: cap_blank_lines L
                       (skipn (run L false (CChar 10) (c :: s)) (c :: s))
    else c :: cap_blank_lines L s.
Proof.
  unfold cap_blank_lines, blank_run3_re. rewrite sub_run_cons by lia.
  reflexivity.
Qed.

Lemma cap_blank_lines_keep (c : N) (s : pystr) :
  (c =? 10) = false ->
  cap_blank_lines L (c :: s) = c :: cap_blank_lines L s.
Proof.
  intros H. rewrite cap_blank_lines_cons. cbn [run].
  rewrite newline_match, H. reflexivity.
Qed.

Lemma run_newline_cons (c : N) (s : pystr) :
  run L false (CChar 10) (c :: s)
  = if c =? 10 then S (run L false (CChar 10) s) else 0%nat.
Proof. cbn [run]. rewrite newline_match. reflexivity. Qed.

Lemma run_zero_head (cs : cset) (s : pystr) :
  run L false cs s = 0%nat ->
  match s with [] => True | c :: _ => cs_match L false cs c = false end.
Proof.
  destruct s as [|c s]; [trivial|]. cbn [run].
  destruct (cs_match L false cs c); [discriminate | reflexivity].
Qed.

(** Capping keeps that form. *)
Lemma cap_blank_lines_spaced (s : pystr) :
  forall b, spaced_once b s = true ->
            spaced_once b (cap_blank_lines L s) = true.
Proof.
  induction s as [s IH] using length_induction. intros b H.
  destruct s as [|c s]; [rewrite cap_blank_lines_nil; reflexivity|].
  rewrite cap_blank_lines_cons.
  destruct (3 <=? run L false (CChar 10) (c :: s))%nat eqn:E3.
  - apply Nat.leb_le in E3.
    assert (Hc : c = 10).
    { rewrite run_newline_cons in E3. destruct (N.eqb_spec c 10); [auto | lia]. }
    subst c. cbn [spaced_once].
    change (10 =? 9) with false. change (10 =? 32) with false.
    rewrite !andb_false_r. cbn [negb andb].
    apply IH.
    + rewrite List.length_skipn. cbn [List.length]. lia.
    + exact (spaced_once_skipn _ _ _ H).
  - simpl in H. apply andb_true_iff in H as [H1 H2].
    cbn [spaced_once]. rewrite H1. apply IH; [simpl; lia | exact H2].
Qed.

(** Capping leaves no three new lines in a row. *)
Lemma cap_blank_lines_head (s : pystr) :
  run L false (CChar 10) s = 0%nat ->
  run L false (CChar 10) (cap_blank_lines L s) = 0%nat.
Proof.
  destruct s as [|c s]; [rewrite cap_blank_lines_nil; reflexivity|].
  rewrite run_newline_cons. destruct (c =? 10) eqn:Ec; [discriminate|].
  intros _. rewrite (cap_blank_lines_keep c s Ec), run_newline_cons, Ec.
  reflexivity.
Qed.

Lemma cap_blank_lines_run (s : pystr) :
  (run L false (CChar 10) (cap_blank_lines L s) <= 2)%nat
  /\ (run L false (CChar 10) (cap_blank_lines L s)
      <= run L false (CChar 10) s)%nat.
Proof.
  destruct s as [|c s]; [rewrite cap_blank_lines_nil; simpl; lia|].
  rewrite cap_blank_lines_cons.
  destruct (Nat.leb_spec 3 (run L false (CChar 10) (c :: s))) as [H3|H3].
  - pose proof (cap_blank_lines_head _ (run_stops L false (CChar 10) (c :: s)))
      as Hr.
    set (rest := cap_blank_lines L _) in *.
    rewrite (run_newline_cons 10 (10 :: rest)), (run_newline_cons 10 rest).
    change (10 =? 10) with true. cbv iota. rewrite Hr. lia.
  - rewrite !run_newline_cons in *. destruct (c =? 10) eqn:Ec; [|lia].
    destruct s as [|d s]; [rewrite cap_blank_lines_nil; simpl; lia|].
    rewrite run_newline_cons in H3.
    destruct (d =? 10) eqn:Ed.
    + assert (Hr : run L false (CChar 10) s = 0%nat) by lia.
      rewrite cap_blank_lines_cons, run_newline_cons, Ed, Hr.
      cbn [Nat.leb]. rewrite run_newline_cons, Ed.
      rewrite (cap_blank_lines_head _ Hr). lia.
    + rewrite (cap_blank_lines_keep d s Ed), !run_newline_cons, Ed. lia.
Qed.

Lemma cap_blank_lines_capped (s : pystr) :
  contains (py "\n\n\n") (cap_blank_lines L s) = false.
Proof.
  induction s as [s IH] using length_induction.
  destruct s as [|c s]; [rewrite cap_blank_lines_nil; reflexivity|].
  assert (Hhead : forall u,
             (run L false (CChar 10) u <= 2)%nat ->
             startswith (py "\n\n\n") u = false).
  { intros u Hu. change (py "\n\n\n") with [10; 10; 10].
    destruct u as [|a [|b [|d u]]]; cbn [startswith];
      rewrite ?andb_false_r; try reflexivity.
    rewrite !run_newline_cons in Hu.
    rewrite (N.eqb_sym 10 a), (N.eqb_sym 10 b), (N.eqb_sym 10 d).
    destruct (a =? 10); [|reflexivity]. destruct (b =? 10); [|reflexivity].
    destruct (d =? 10); [lia | reflexivity]. }
  pose proof (proj1 (cap_blank_lines_run (c :: s))) as Hrun.
  rewrite cap_blank_lines_cons in *.
  destruct (Nat.leb_spec 3 (run L false (CChar 10) (c :: s))) as [H3|H3].
  - assert (Hr : run L false (CChar 10)
                   (cap_blank_lines L
                      (skipn (run L false (CChar 10) (c :: s)) (c :: s)))
                 = 0%nat).
    { apply cap_blank_lines_head, run_stops. }
    assert (Hl : (List.length (skipn (run L false (CChar 10) (c :: s)) (c :: s))
                  < List.length (c :: s))%nat).
    { rewrite List.length_skipn. cbn [List.length]. lia. }
    set (rest := cap_blank_lines L _) in *.
    cbn [contains]. rewrite (Hhead _ Hrun).
    rewrite Hhead by (rewrite run_newline_cons; change (10 =? 10) with true;
                      cbv iota; lia).
    cbn [orb]. apply IH. exact Hl.
  - cbn [contains]. rewrite (Hhead _ Hrun). cbn [orb]. apply IH. simpl. lia.
Qed.

End Normalizer.

Section NormalizerFixed.

Variable L : Libs.

Lemma contains_cons_false (w : pystr) (c : N) (s : pystr) :
  contains w (c :: s) = false ->
  startswith w (c :: s) = false /\ contains w s = false.
Proof. cbn [contains]. apply orb_false_iff. Qed.

(** A text without three new lines in a row is left alone by the cap. *)
Lemma cap_blank_lines_fixed (s : pystr) :
  contains (py "\n\n\n") s = false -> cap_blank_lines L s = s.
Proof.
  induction s as [|c s IH]; intros H; [apply cap_blank_lines_nil|].
  apply contains_cons_false in H as [Hs Hc].
  rewrite cap_blank_lines_cons.
  destruct (Nat.leb_spec 3 (run L false (CChar 10) (c :: s))) as [H3|H3].
  - exfalso. change (py "\n\n\n") with [10; 10; 10] in Hs.
    rewrite run_newline_cons in H3.
    destruct (N.eqb_spec c 10) as [->|]; [|lia].
    destruct s as [|b s]; [simpl in H3; lia|].
    rewrite run_newline_cons in H3.
    destruct (N.eqb_spec b 10) as [->|]; [|lia].
    destruct s as [|d s]; [simpl in H3; lia|].
    rewrite run_newline_cons in H3.
    destruct (N.eqb_spec d 10) as [->|]; [|lia].
    discriminate Hs.
  - f_equal. exact (IH Hc).
Qed.

(** *** Line ends *)

Lemma line_ends_trimmed_skipn (n : nat) :
  forall s, line_ends_trimmed s = true ->
            line_ends_trimmed (skipn n s) = true.
Proof.
  induction n as [|n IH]; intros s H; [exact H|].
  destruct s as [|c s]; [reflexivity|]. cbn [line_ends_trimmed] in H.
  apply andb_true_iff in H as [_ H]. exact (IH _ H).
Qed.

Lemma line_ends_trimmed_cons (c : N) (s : pystr) :
  line_ends_trimmed (c :: s)
  = (if isspace c && negb (c =? 10)
     then match s with [] => false | d :: _ => negb (d =? 10) end
     else true)
    && line_ends_trimmed s.
Proof. reflexivity. Qed.

Lemma cap_blank_lines_line_ends (s : pystr) :
  line_ends_trimmed s = true ->
  line_ends_trimmed (cap_blank_lines L s) = true.
Proof.
  induction s as [s IH] using length_induction. intros H.
  destruct s as [|c s]; [rewrite cap_blank_lines_nil; reflexivity|].
  rewrite cap_blank_lines_cons.
  destruct (Nat.leb_spec 3 (run L false (CChar 10) (c :: s))) as [H3|H3].
  - rewrite !line_ends_trimmed_cons. change (10 =? 10) with true.
    rewrite andb_false_r. cbn [andb].
    apply IH.
    + rewrite List.length_skipn. cbn [List.length]. lia.
    + apply line_ends_trimmed_skipn. exact H.
  - rewrite line_ends_trimmed_cons in *.
    apply andb_true_iff in H as [Hc Hs].
    rewrite (IH s) by (simpl; lia || exact Hs). rewrite andb_true_r.
    destruct (isspace c && negb (c =? 10)); [|reflexivity].
    destruct s as [|d s]; [discriminate|].
    apply negb_true_iff in Hc.
    rewrite (cap_blank_lines_keep L d s Hc), Hc. reflexivity.
Qed.

(** *** The two ends of the text *)

Lemma isspace_newline (c : N) : (c =? 10) = true -> isspace c = true.
Proof. intros H. apply N.eqb_eq in H. subst. reflexivity. Qed.

Lemma cap_blank_lines_nonempty (s : pystr) :
  s <> [] -> cap_blank_lines L s <> [].
Proof.
  destruct s as [|c s]; [congruence|]. intros _.
  rewrite cap_blank_lines_cons.
  destruct (3 <=? run L false (CChar 10) (c :: s))%nat; discriminate.
Qed.

Lemma cap_blank_lines_starts (s : pystr) :
  starts_trimmed s = true -> starts_trimmed (cap_blank_lines L s) = true.
Proof.
  destruct s as [|c s]; [rewrite cap_blank_lines_nil; reflexivity|].
  cbn [starts_trimmed]. intros H.
  assert (Hc : (c =? 10) = false).
  { destruct (c =? 10) eqn:E; [|reflexivity].
    rewrite (isspace_newline c E) in H. discriminate. }
  rewrite (cap_blank_lines_keep L c s Hc). exact H.
Qed.

Lemma ends_trimmed_skipn (n : nat) :
  forall s, ends_trimmed s = true -> skipn n s <> [] ->
            ends_trimmed (skipn n s) = true.
Proof.
  induction n as [|n IH]; intros s H Hne; [exact H|].
  destruct s as [|c s]; [exact H|]. cbn [skipn] in *.
  rewrite ends_trimmed_cons in H. destruct s as [|d s].
  - destruct n; cbn [skipn] in Hne; congruence.
  - apply IH; assumption.
Qed.

Lemma forallb_newline_ends (s : pystr) :
  s <> [] -> skipn (run L false (CChar 10) s) s = [] ->
  ends_trimmed s = false.
Proof.
  induction s as [|c s IH]; intros Hne H; [congruence|].
  rewrite run_newline_cons in H. destruct (c =? 10) eqn:Ec.
  - cbn [skipn] in H. rewrite ends_trimmed_cons. destruct s as [|d s].
    + rewrite (isspace_newline c Ec). reflexivity.
    + apply IH; [discriminate | exact H].
  - discriminate H.
Qed.

Lemma cap_blank_lines_ends (s : pystr) :
  ends_trimmed s = true -> ends_trimmed (cap_blank_lines L s) = true.
Proof.
  induction s as [s IH] using length_induction. intros H.
  destruct s as [|c s]; [rewrite cap_blank_lines_nil; reflexivity|].
  rewrite cap_blank_lines_cons.
  destruct (Nat.leb_spec 3 (run L false (CChar 10) (c :: s))) as [H3|H3].
  - destruct (skipn (run L false (CChar 10) (c :: s)) (c :: s))
      as [|d rest] eqn:Er.
    + rewrite (forallb_newline_ends (c :: s)) in H by (discriminate || exact Er).
      discriminate.
    + assert (Hd : ends_trimmed (cap_blank_lines L (d :: rest)) = true).
      { apply IH.
        - rewrite <- Er, List.length_skipn. cbn [List.length]. lia.
        - rewrite <- Er. apply ends_trimmed_skipn; [exact H|].
          rewrite Er. discriminate. }
      change (10 :: 10 :: cap_blank_lines L (d :: rest))
        with ([10; 10] ++ cap_blank_lines L (d :: rest)).
      rewrite (ends_trimmed_app [10; 10]); [exact Hd|].
      apply cap_blank_lines_nonempty. discriminate.
  - rewrite ends_trimmed_cons in *. destruct s as [|d s].
    + rewrite cap_blank_lines_nil. exact H.
    + pose proof (cap_blank_lines_nonempty (d :: s) ltac:(discriminate)) as Hn.
      destruct (cap_blank_lines L (d :: s)) as [|e r] eqn:Ecap; [congruence|].
      rewrite <- Ecap. apply IH; [simpl; lia | exact H].
Qed.

End NormalizerFixed.

(** *** Lines *)

Lemma rstrip_nil : rstrip [] = [].
Proof. reflexivity. Qed.

Lemma starts_with_newline (s : pystr) (t : list pystr) :
  split (py "\n") s = [] :: t ->
  match s with [] => True | d :: _ => d = 10 end.
Proof.
  destruct s as [|d s]; [trivial|]. change (py "\n") with [10].
  rewrite split_char_cons. destruct (N.eqb_spec 10 d) as [->|Hne]; [reflexivity|].
  destruct (split [10] s); discriminate.
Qed.

(** The lines of a text with trimmed line ends are trimmed at the right,
    and conversely. *)
Lemma line_ends_trimmed_lines (s : pystr) :
  line_ends_trimmed s = true ->
  Forall (fun line => ends_trimmed line = true) (split (py "\n") s).
Proof.
  change (py "\n") with [10].
  induction s as [|c s IH]; intros H.
  - constructor; [reflexivity | constructor].
  - rewrite line_ends_trimmed_cons in H. apply andb_true_iff in H as [Hc Hs].
    specialize (IH Hs). rewrite split_char_cons.
    destruct (N.eqb_spec 10 c) as [<-|Hne].
    + constructor; [reflexivity | exact IH].
    + destruct (split [10] s) as [|h t] eqn:Es; [constructor|].
      inversion IH as [|? ? Hh Ht]; subst. constructor; [|exact Ht].
      rewrite ends_trimmed_cons. destruct h as [|e h]; [|exact Hh].
      destruct (isspace c) eqn:Esp; [|reflexivity]. exfalso.
      assert (Hc10 : (c =? 10) = false) by (apply N.eqb_neq; congruence).
      rewrite Hc10 in Hc. cbn [negb andb] in Hc.
      pose proof (starts_with_newline s t Es) as Hhd.
      destruct s as [|d s]; [discriminate|]. subst d. discriminate.
Qed.

Lemma ends_trimmed_line_app (l r : pystr) :
  ends_trimmed l = true -> ~ In 10 l ->
  line_ends_trimmed (l ++ 10 :: r) = line_ends_trimmed r.
Proof.
  induction l as [|c l IH]; intros He Hn.
  - cbn [app]. rewrite line_ends_trimmed_cons. change (10 =? 10) with true.
    rewrite andb_false_r. reflexivity.
  - cbn [app]. rewrite line_ends_trimmed_cons.
    rewrite ends_trimmed_cons in He.
    assert (Hl : ~ In 10 l) by (intros H; apply Hn; right; exact H).
    destruct l as [|d l].
    + apply negb_true_iff in He. rewrite He. cbn [andb app].
      rewrite line_ends_trimmed_cons. change (10 =? 10) with true.
      rewrite andb_false_r. reflexivity.
    + rewrite (IH He Hl). cbn [app].
      assert (Hd : (d =? 10) = false).
      { apply N.eqb_neq. intros ->. apply Hn. right. left. reflexivity. }
      rewrite Hd. cbn [negb]. destruct (isspace c && negb (c =? 10)); reflexivity.
Qed.

Lemma ends_trimmed_line_last (l : pystr) :
  ends_trimmed l = true -> ~ In 10 l -> line_ends_trimmed l = true.
Proof.
  induction l as [|c l IH]; intros He Hn; [reflexivity|].
  rewrite line_ends_trimmed_cons. rewrite ends_trimmed_cons in He.
  assert (Hl : ~ In 10 l) by (intros H; apply Hn; right; exact H).
  destruct l as [|d l].
  - apply negb_true_iff in He. rewrite He. reflexivity.
  - rewrite (IH He Hl), andb_true_r.
    assert (Hd : (d =? 10) = false).
    { apply N.eqb_neq. intros ->. apply Hn. right. left. reflexivity. }
    rewrite Hd. destruct (isspace c && negb (c =? 10)); reflexivity.
Qed.

Lemma lines_line_ends_trimmed (ls : list pystr) :
  Forall (fun line => ends_trimmed line = true /\ ~ In 10 line) ls ->
  line_ends_trimmed (join (py "\n") ls) = true.
Proof.
  change (py "\n") with [10].
  induction ls as [|l ls IH]; intros H; [reflexivity|].
  inversion H as [|? ? [He Hn] Hls]; subst.
  destruct ls as [|l' ls].
  - cbn [join]. apply ends_trimmed_line_last; assumption.
  - rewrite join_cons by discriminate. cbn [app].
    rewrite ends_trimmed_line_app by assumption. exact (IH Hls).
Qed.

Lemma rstrip_no_newline (l : pystr) : ~ In 10 l -> ~ In 10 (rstrip l).
Proof.
  intros Hn H. apply Hn. destruct (rstrip_prefix l) as (w & Hw & _).
  rewrite Hw. apply List.in_or_app. left. exact H.
Qed.

(** Trimming the lines trims the line ends. *)
Lemma rstrip_lines_line_ends (s : pystr) :
  line_ends_trimmed (rstrip_lines s) = true.
Proof.
  unfold rstrip_lines. apply lines_line_ends_trimmed.
  pose proof (split_char_pieces 10 s) as Hp. change [10] with (py "\n") in Hp.
  induction Hp as [|l ls Hl _ IH]; [constructor|].
  cbn [map]. constructor; [|exact IH].
  split; [apply rstrip_ends_trimmed | apply rstrip_no_newline, Hl].
Qed.

(** A text with trimmed line ends is left alone. *)
Lemma rstrip_lines_fixed (s : pystr) :
  line_ends_trimmed s = true -> rstrip_lines s = s.
Proof.
  intros H. unfold rstrip_lines.
  assert (Hm : map rstrip (split (py "\n") s) = split (py "\n") s).
  { pose proof (line_ends_trimmed_lines s H) as Hl.
    induction Hl as [|l ls Hl _ IH]; [reflexivity|].
    cbn [map]. rewrite (rstrip_fixed l Hl), IH. reflexivity. }
  rewrite Hm. apply join_split. discriminate.
Qed.

Lemma spaced_once_newline (x y : pystr) (b : bool) :
  spaced_once b (x ++ 10 :: y) = spaced_once b x && spaced_once false y.
Proof.
  revert b. induction x as [|c x IH]; intros b.
  - cbn [app spaced_once]. change (10 =? 9) with false.
    change (10 =? 32) with false. rewrite andb_false_r. reflexivity.
  - cbn [app spaced_once]. rewrite IH, !andb_assoc. reflexivity.
Qed.

Lemma spaced_once_rstrip (l : pystr) (b : bool) :
  spaced_once b l = true -> spaced_once b (rstrip l) = true.
Proof.
  intros H. destruct (rstrip_prefix l) as (w & Hw & _). rewrite Hw in H.
  exact (spaced_once_app_inv _ _ _ H).
Qed.

Lemma spaced_once_join_rstrip (ls : list pystr) :
  forall b, spaced_once b (join (py "\n") ls) = true ->
            spaced_once b (join (py "\n") (map rstrip ls)) = true.
Proof.
  change (py "\n") with [10].
  induction ls as [|l ls IH]; intros b H; [reflexivity|].
  destruct ls as [|l' ls].
  - cbn [map join] in *. apply spaced_once_rstrip. exact H.
  - cbn [map]. cbn [map] in IH.
    rewrite (join_cons [10] l (l' :: ls)) in H by discriminate.
    rewrite (join_cons [10] (rstrip l) (rstrip l' :: map rstrip ls))
      by discriminate.
    cbn [app] in *. rewrite spaced_once_newline in *.
    apply andb_true_iff in H as [H1 H2].
    rewrite (spaced_once_rstrip _ _ H1), (IH _ H2). reflexivity.
Qed.

Lemma rstrip_lines_spaced (s : pystr) (b : bool) :
  spaced_once b s = true -> spaced_once b (rstrip_lines s) = true.
Proof.
  intros H. unfold rstrip_lines. apply spaced_once_join_rstrip.
  rewrite join_split by discriminate. exact H.
Qed.

Lemma spaced_once_lstrip (s : pystr) :
  forall b, spaced_once b s = true -> spaced_once false (lstrip s) = true.
Proof.
  intros b H. destruct (lstrip_suffix s) as (w & Hw & _).
  assert (E : lstrip s = skipn (List.length w) s).
  { rewrite Hw at 2. rewrite List.skipn_app, List.skipn_all, Nat.sub_diag.
    reflexivity. }
  rewrite E. exact (spaced_once_skipn _ _ _ H).
Qed.

Lemma strip_spaced (s : pystr) (b : bool) :
  spaced_once b s = true -> spaced_once false (strip s) = true.
Proof.
  intros H. unfold strip.
  apply (spaced_once_lstrip _ b), spaced_once_rstrip, H.
Qed.

Lemma line_ends_trimmed_app_inv (p w : pystr) :
  line_ends_trimmed (p ++ w) = true -> ends_trimmed p = true ->
  line_ends_trimmed p = true.
Proof.
  induction p as [|c p IH]; intros H He; [reflexivity|].
  cbn [app] in H. rewrite line_ends_trimmed_cons in *.
  apply andb_true_iff in H as [Hc Hs]. rewrite ends_trimmed_cons in He.
  destruct p as [|d p].
  - apply negb_true_iff in He. rewrite He. reflexivity.
  - rewrite (IH Hs He), andb_true_r. exact Hc.
Qed.

Lemma strip_line_ends (s : pystr) :
  line_ends_trimmed s = true -> line_ends_trimmed (strip s) = true.
Proof.
  intros H. unfold strip.
  assert (Hr : line_ends_trimmed (rstrip s) = true).
  { destruct (rstrip_prefix s) as (w & Hw & _). rewrite Hw in H.
    exact (line_ends_trimmed_app_inv _ _ H (rstrip_ends_trimmed s)). }
  destruct (lstrip_suffix (rstrip s)) as (w & Hw & _).
  assert (E : lstrip (rstrip s) = skipn (List.length w) (rstrip s)).
  { rewrite Hw at 2. rewrite List.skipn_app, List.skipn_all, Nat.sub_diag.
    reflexivity. }
  rewrite E. apply line_ends_trimmed_skipn. exact Hr.
Qed.

(** No tab and no two spaces in a row, in the words of Python. *)
Lemma spaced_once_contains (s : pystr) :
  forall b, spaced_once b s = true ->
            contains (py "\t") s = false /\ contains (py "  ") s = false.
Proof.
  change (py "\t") with [9]. change (py "  ") with [32; 32].
  induction s as [|c s IH]; intros b H; [split; reflexivity|].
  cbn [spaced_once] in H. apply andb_true_iff in H as [H1 H2].
  apply andb_true_iff in H1 as [H9 _].
  destruct (IH _ H2) as [IH1 IH2]. cbn [contains startswith].
  rewrite IH1, IH2, !orb_false_r, andb_true_r. apply negb_true_iff in H9.
  rewrite (N.eqb_sym 9 c), H9. split; [reflexivity|].
  rewrite (N.eqb_sym 32 c). destruct (c =? 32) eqn:E32; [|reflexivity].
  destruct s as [|d s]; [reflexivity|]. cbn [spaced_once] in H2.
  apply andb_true_iff in H2 as [H2 _]. apply andb_true_iff in H2 as [_ H2].
  cbn [andb] in H2. apply negb_true_iff in H2.
  rewrite (N.eqb_sym 32 d), H2. reflexivity.
Qed.

(** ** Lengths *)

Section Lengths.

Variable L : Libs.

(** [re.sub] does not lengthen a text when no replacement is longer than
    what it replaces. *)
Lemma sub_go_length (ic : bool) (r : regex) (t : list tpl_item) :
  (forall adv s n g,
      match_here L ic r adv s = Some (n, g) ->
      (List.length (expand t g) <= n)%nat) ->
  forall s skip,
    (skip <= List.length s)%nat ->
    (List.length (sub_go L ic r t s skip) + skip <= List.length s)%nat.
Proof.
  intros Hexp. induction s as [|c s IH]; intros skip Hskip.
  - simpl in Hskip. assert (skip = 0%nat) by lia. subst skip. cbn [sub_go].
    destruct (match_here L ic r false []) as [[[|n] g]|] eqn:E;
      [| |simpl; lia].
    + pose proof (Hexp _ _ _ _ E) as H1.
      destruct (match_here L ic r true []) as [[n g2]|] eqn:E2.
      * destruct (match_here_bound _ _ _ _ _ _ _ E2) as [Hn Hpos].
        specialize (Hpos eq_refl). simpl in Hn. lia.
      * rewrite List.length_app. simpl. lia.
    + destruct (match_here_bound _ _ _ _ _ _ _ E) as [Hn _]. simpl in Hn. lia.
  - destruct skip as [|skip].
    + cbn [sub_go].
      destruct (match_here L ic r false (c :: s)) as [[[|n] g]|] eqn:E.
      * pose proof (Hexp _ _ _ _ E) as H1.
        destruct (match_here L ic r true (c :: s)) as [[n g2]|] eqn:E2.
        -- destruct (match_here_bound _ _ _ _ _ _ _ E2) as [Hn Hpos].
           specialize (Hpos eq_refl). pose proof (Hexp _ _ _ _ E2) as H2.
           cbn [List.length] in Hn.
           specialize (IH (n - 1)%nat ltac:(lia)).
           rewrite !List.length_app. cbn [List.length]. lia.
        -- specialize (IH 0%nat ltac:(lia)).
           rewrite List.length_app. cbn [List.length]. lia.
      * destruct (match_here_bound _ _ _ _ _ _ _ E) as [Hn _].
        pose proof (Hexp _ _ _ _ E) as H1. cbn [List.length] in Hn.
        specialize (IH n ltac:(lia)).
        rewrite List.length_app. cbn [List.length]. lia.
      * specialize (IH 0%nat ltac:(lia)). cbn [List.length]. lia.
    + cbn [sub_go]. cbn [List.length] in *. specialize (IH skip ltac:(lia)). lia.
Qed.

Lemma re_sub_length (ic : bool) (r : regex) (t : list tpl_item) :
  (forall adv s n g,
      match_here L ic r adv s = Some (n, g) ->
      (List.length (expand t g) <= n)%nat) ->
  forall s, (List.length (re_sub L ic r t s) <= List.length s)%nat.
Proof.
  intros H s. pose proof (sub_go_length ic r t H s 0 ltac:(lia)).
  unfold re_sub. lia.
Qed.

Lemma re_sub_delete_length (ic : bool) (r : regex) (s : pystr) :
  (List.length (re_sub L ic r [] s) <= List.length s)%nat.
Proof. apply re_sub_length. intros. simpl. lia. Qed.

(** A run of at least [n] characters replaced by at most [n]. *)
Lemma re_sub_run_length (ic : bool) (cs : cset) (n : nat) (w s : pystr) :
  (0 < n)%nat -> (List.length w <= n)%nat ->
  (List.length (re_sub L ic (RRep cs n true) [TText w] s) <= List.length s)%nat.
Proof.
  intros Hn Hw. apply re_sub_length. intros adv s0 m g H.
  rewrite match_run in H by exact Hn.
  destruct (Nat.leb_spec n (run L ic cs s0)); [|discriminate].
  injection H as <- <-. simpl. rewrite List.app_nil_r. lia.
Qed.

(** [<w([^>]+)>] replaced by its group. *)
Lemma angle_link_group (ic : bool) (w : pystr) (adv : bool) (s : pystr)
    (n : nat) (g : option pystr) :
  match_here L ic
    (RSeqs [RLit w; RGroup (RRep (CNoneOf [62]) 1 true); RLit (py ">")])
    adv s = Some (n, g) ->
  (List.length (expand [TGroup1] g) <= n)%nat.
Proof.
  unfold match_here.
  change (RSeqs [RLit w; RGroup (RRep (CNoneOf [62]) 1 true); RLit (py ">")])
    with (RSeq (RLit w)
               (RSeq (RGroup (RRep (CNoneOf [62]) 1 true)) (RLit (py ">")))).
  rewrite mt_RSeq, mt_RLit.
  destruct (ci_startswith L ic w s); [|discriminate].
  rewrite mt_RSeq. cbn [mt Nat.add]. intros H.
  apply need_reach in H as (s1 & p1 & R1 & H).
  apply rep_reach in H as (s2 & p2 & R2 & H).
  rewrite mt_RLit in H.
  destruct (ci_startswith L ic (py ">") s2); [|discriminate].
  unfold accept in H.
  destruct (adv && (p2 + List.length (py ">") =? 0)%nat); [discriminate|].
  injection H as <- <-. cbn [expand]. rewrite List.app_nil_r.
  rewrite List.length_firstn. lia.
Qed.

Lemma minimal_clean_length (text : pystr) :
  (List.length (_minimal_clean L text) <= List.length text)%nat.
Proof.
  unfold _minimal_clean, mailto_re, tel_re.
  pose proof (re_sub_run_length false (CChar 10) 4 (py "\n\n\n") text
                ltac:(lia) ltac:(vm_compute; lia)) as H1.
  fold blank_run4_re in H1.
  set (t1 := re_sub L false blank_run4_re [TText (py "\n\n\n")] text) in *.
  pose proof (re_sub_length false _ [TGroup1]
                (angle_link_group false (py "<mailto:")) t1) as H2.
  set (t2 := re_sub L false _ [TGroup1] t1) in *.
  pose proof (re_sub_length false _ [TGroup1]
                (angle_link_group false (py "<tel:")) t2) as H3.
  lia.
Qed.

Lemma remove_signatures_length (text : pystr) :
  (List.length (_remove_signatures L text) <= List.length text)%nat.
Proof.
  unfold _remove_signatures.
  generalize signature_markers. intros markers. revert text.
  induction markers as [|m ms IH]; intros text; [simpl; lia|].
  cbn [fold_left]. specialize (IH (re_sub L true m [] text)).
  pose proof (re_sub_delete_length true m text). lia.
Qed.

Lemma normalize_whitespace_length (text : pystr) :
  (List.length (_normalize_whitespace L text) <= List.length text)%nat.
Proof.
  rewrite normalize_whitespace_steps.
  pose proof (re_sub_run_length false (COneOf [32; 9]) 1 (py " ") text
                ltac:(lia) ltac:(vm_compute; lia)) as H1.
  fold blanks_re in H1. fold (collapse_blanks L text) in H1.
  pose proof (re_sub_run_length false (CChar 10) 3 (py "\n\n")
                (collapse_blanks L text) ltac:(lia) ltac:(vm_compute; lia))
    as H2.
  fold blank_run3_re in H2. fold (cap_blank_lines L (collapse_blanks L text)) in H2.
  set (t2 := cap_blank_lines L (collapse_blanks L text)) in *.
  assert (H3 : (List.length (rstrip_lines t2) <= List.length t2)%nat).
  { unfold rstrip_lines.
    pose proof (length_join_map_le (py "\n") rstrip (split (py "\n") t2)
                  rstrip_length) as H.
    rewrite (join_split (py "\n") t2) in H by discriminate. exact H. }
  pose proof (strip_length (rstrip_lines t2)). lia.
Qed.

Lemma quoted_fallback_length (text : pystr) :
  (List.length (quoted_fallback L text) <= List.length text)%nat.
Proof.
  unfold quoted_fallback.
  pose proof (length_join_filter_le (py "\n")
                (fun line => negb (startswith (py ">") (strip line)))
                (split (py "\n") text)) as H1.
  rewrite (join_split (py "\n") text) in H1 by discriminate.
  set (t1 := join (py "\n") _) in *.
  pose proof (re_sub_delete_length true
                (divider_block_re (py "Original Message")) t1) as H2.
  set (t2 := re_sub L true _ [] t1) in *.
  pose proof (re_sub_delete_length true
                (divider_block_re (py "Forwarded Message")) t2) as H3.
  lia.
Qed.

End Lengths.

(** ** The normalizer *)

(** What one pass establishes. *)
Lemma normalize_whitespace_trimmed (L : Libs) (text : pystr) :
  spaced_once false (_normalize_whitespace L text) = true
  /\ line_ends_trimmed (_normalize_whitespace L text) = true
  /\ starts_trimmed (_normalize_whitespace L text) = true
  /\ ends_trimmed (_normalize_whitespace L text) = true.
Proof.
  rewrite normalize_whitespace_steps.
  split; [|split; [|apply strip_trimmed]].
  - apply (strip_spaced _ false), rstrip_lines_spaced, cap_blank_lines_spaced.
    apply collapse_blanks_spaced.
  - apply strip_line_ends, rstrip_lines_line_ends.
Qed.

(** A pass over a text in that form only caps its new-line runs. *)
Lemma normalize_whitespace_of_trimmed (L : Libs) (u : pystr) :
  spaced_once false u = true -> line_ends_trimmed u = true ->
  starts_trimmed u = true -> ends_trimmed u = true ->
  _normalize_whitespace L u = cap_blank_lines L u.
Proof.
  intros Hs Hl Hb He. rewrite normalize_whitespace_steps.
  rewrite (collapse_blanks_fixed L u false Hs).
  rewrite (rstrip_lines_fixed _ (cap_blank_lines_line_ends L u Hl)).
  apply strip_fixed; [apply cap_blank_lines_starts | apply cap_blank_lines_ends];
    assumption.
Qed.

Lemma body_clean_normalized (L : Libs) (level : CleaningLevel)
    (payload : pystr) (info : option MessageInfo) (r : CleaningResult) :
  clean L level payload info = Return r ->
  exists text, body_clean r = _normalize_whitespace L text.
Proof.
  destruct level.
  - rewrite clean_minimal. destruct (_extract_text L payload) as [t|e];
      [|discriminate].
    cbn [bind]. intros H. injection H as <-. eexists. reflexivity.
  - rewrite clean_standard. destruct (_extract_text L payload) as [t|e];
      [|discriminate].
    cbn [bind]. intros H. injection H as <-. eexists. reflexivity.
  - rewrite clean_aggressive. destruct (_extract_text L payload) as [t|e];
      [|discriminate].
    cbn [bind]. destruct (_remove_quoted_replies L _) as [t'|e];
      [|discriminate].
    cbn [bind]. intros H. injection H as <-. eexists. reflexivity.
Qed.

Lemma normal_form_of_trimmed (u : pystr) :
  spaced_once false u = true -> line_ends_trimmed u = true ->
  starts_trimmed u = true -> ends_trimmed u = true ->
  normal_form u.
Proof.
  intros Hs Hl Hb He. destruct (spaced_once_contains u false Hs) as [H1 H2].
  split; [exact H1|]. split; [exact H2|]. split; [apply strip_fixed; assumption|].
  pose proof (line_ends_trimmed_lines u Hl) as Hlines.
  induction Hlines as [|l ls Hl' _ IH]; constructor; [|exact IH].
  apply rstrip_fixed. exact Hl'.
Qed.

(** X1: the text the normalizer returns holds no tab and no two spaces in
    a row, has no white space at either end, and none of its lines ends
    in white space; so does the body of every result of [clean], at every
    level and whatever the libraries return. *)
Theorem normalize_whitespace_normal_form :
  forall (L : Libs),
    (forall text, normal_form (_normalize_whitespace L text))
    /\ (forall level payload info r,
          clean L level payload info = Return r ->
          normal_form (body_clean r)).
Proof.
  intros L.
  assert (H : forall text, normal_form (_normalize_whitespace L text)).
  { intros text.
    destruct (normalize_whitespace_trimmed L text) as (H1 & H2 & H3 & H4).
    apply normal_form_of_trimmed; assumption. }
  split; [exact H|].
  intros level payload info r Hr.
  destruct (body_clean_normalized L level payload info r Hr) as (text & ->).
  apply H.
Qed.

(** X2: a second pass of the normalizer only caps the new-line runs of the
    first; its result holds no three new lines in a row and is a fixed
    point: three passes give what two give. *)
Theorem normalize_whitespace_stable_after_two :
  forall (L : Libs) (text : pystr),
    _normalize_whitespace L (_normalize_whitespace L text)
    = cap_blank_lines L (_normalize_whitespace L text)
    /\ contains (py "\n\n\n")
         (_normalize_whitespace L (_normalize_whitespace L text)) = false
    /\ _normalize_whitespace L
         (_normalize_whitespace L (_normalize_whitespace L text))
       = _normalize_whitespace L (_normalize_whitespace L text).
Proof.
  intros L text.
  destruct (normalize_whitespace_trimmed L text) as (H1 & H2 & H3 & H4).
  pose proof (normalize_whitespace_of_trimmed L _ H1 H2 H3 H4) as Htwo.
  split; [exact Htwo|]. rewrite Htwo.
  split; [apply cap_blank_lines_capped|].
  rewrite normalize_whitespace_of_trimmed.
  - apply cap_blank_lines_fixed, cap_blank_lines_capped.
  - apply cap_blank_lines_spaced. exact H1.
  - apply cap_blank_lines_line_ends. exact H2.
  - apply cap_blank_lines_starts. exact H3.
  - apply cap_blank_lines_ends. exact H4.
Qed.

(** ** The span of the disclaimer *)

Lemma startswith_nth (w s : pystr) :
  startswith w s = true ->
  forall j, (j < List.length w)%nat -> nth j s 0 = nth j w 0.
Proof.
  revert s. induction w as [|a w IH]; intros s H j Hj; [simpl in Hj; lia|].
  destruct s as [|b s]; [discriminate|]. simpl in H.
  apply andb_true_iff in H as [Hab H]. apply N.eqb_eq in Hab. subst b.
  destruct j as [|j]; [reflexivity|]. simpl. apply IH; [exact H|].
  simpl in Hj. lia.
Qed.

Lemma occurs_at_nth (w s : pystr) (i j : nat) :
  occurs_at w s i -> (j < List.length w)%nat ->
  nth (i + j) s 0 = nth j w 0.
Proof.
  intros [Hi Hs] Hj. rewrite <- (startswith_nth w (skipn i s) Hs j Hj).
  rewrite List.nth_skipn. reflexivity.
Qed.

Lemma startswith_length (w s : pystr) :
  startswith w s = true -> (List.length w <= List.length s)%nat.
Proof.
  revert s. induction w as [|a w IH]; intros s H; [simpl; lia|].
  destruct s as [|b s]; [discriminate|]. simpl in H.
  apply andb_true_iff in H as [_ H]. apply IH in H. simpl. lia.
Qed.

Lemma occurs_at_length (w s : pystr) (i : nat) :
  occurs_at w s i -> (i + List.length w <= List.length s)%nat.
Proof.
  intros [Hi Hs]. apply startswith_length in Hs.
  rewrite List.length_skipn in Hs. lia.
Qed.

(** A boundary, which begins with a new line, cannot begin inside the
    marker. *)
Lemma boundary_after_marker (text : pystr) (start i : nat) (m : pystr) :
  occurs_at csr_marker text start ->
  In m section_ends ->
  occurs_at m text i -> (start < i)%nat ->
  (start + 19 <= i)%nat.
Proof.
  intros Hm Hin Hb Hlt.
  destruct (Nat.le_gt_cases (start + 19) i) as [|Hin19]; [assumption|].
  exfalso.
  assert (H10 : nth i text 0 = 10).
  { replace i with (i + 0)%nat by lia.
    rewrite (occurs_at_nth m text i 0 Hb).
    - destruct Hin as [<- | [<- | [<- | []]]]; reflexivity.
    - destruct Hin as [<- | [<- | [<- | []]]]; vm_compute; lia. }
  pose proof (occurs_at_nth csr_marker text start (i - start) Hm) as Hc.
  replace (start + (i - start))%nat with i in Hc by lia.
  rewrite H10 in Hc.
  assert (Hj : (i - start < 19)%nat) by lia.
  specialize (Hc Hj). revert Hc. generalize (i - start)%nat, Hj.
  intros j Hj'. do 19 (destruct j as [|j]; [vm_compute; discriminate|]). lia.
Qed.

Lemma resolved_end_window (text : pystr) (start : nat) (markers : list pystr)
    (e : nat) :
  occurs_at csr_marker text start ->
  (forall m, In m markers -> In m section_ends) ->
  resolved_end text start markers e ->
  (start + 19 <= e <= start + 600)%nat.
Proof.
  intros Hm Hsub Hr. induction Hr as [|m rest i [Hfirst Hwin]|m rest e _ _ IH].
  - lia.
  - split; [|lia]. destruct Hfirst as (_ & Hocc & _).
    apply (boundary_after_marker text start i m Hm); [|exact Hocc | lia].
    apply Hsub. left. reflexivity.
  - apply IH. intros m' Hm'. apply Hsub. right. exact Hm'.
Qed.

Lemma contains_first_occurrence (sub s : pystr) :
  contains sub s = true -> exists start, first_occurrence sub s 0 start.
Proof.
  intros H. apply contains_spec in H as (k & Hk).
  destruct (find_spec sub s 0 ltac:(lia)) as [(start & Hst & _) | (Hn & _)].
  - exists start. exact Hst.
  - exfalso. apply (Hn k); [lia | exact Hk].
Qed.

(** The text with the disclaimer taken out. *)
Lemma remove_boilerplate_cut (text : pystr) :
  contains csr_marker text = true ->
  exists start e,
    first_occurrence csr_marker text 0 start
    /\ (start + 19 <= e <= start + 600)%nat
    /\ _remove_boilerplate text = firstn start text ++ skipn e text.
Proof.
  intros Hc. destruct (contains_first_occurrence _ _ Hc) as (start & Hst).
  assert (Hocc : occurs_at csr_marker text start) by apply Hst.
  assert (Hl : (start <= List.length text)%nat) by apply Hocc.
  destruct (resolve_end_spec text start section_ends Hl) as (e & He & Hr).
  exists start, e. split; [exact Hst|]. split.
  - apply (resolved_end_window text start section_ends e Hocc); auto.
  - unfold _remove_boilerplate. rewrite Hc.
    rewrite (find_first_occurrence _ _ _ _ Hst), He.
    rewrite slice_to_nat, slice_from_nat. reflexivity.
Qed.

Lemma remove_boilerplate_length (text : pystr) :
  (List.length (_remove_boilerplate text) <= List.length text)%nat.
Proof.
  destruct (contains csr_marker text) eqn:Hc.
  - destruct (remove_boilerplate_cut text Hc) as (start & e & Hst & He & ->).
    assert (Hocc : occurs_at csr_marker text start) by apply Hst.
    apply occurs_at_length in Hocc.
    rewrite List.length_app, List.length_firstn, List.length_skipn. lia.
  - unfold _remove_boilerplate. rewrite Hc. lia.
Qed.

(** X3: when the text holds the disclaimer marker, boilerplate removal
    keeps what stands before its first occurrence and deletes from there
    at least the 19 characters of the marker and at most 600
    characters. *)
Theorem remove_boilerplate_bounds :
  forall (text : pystr),
    contains csr_marker text = true ->
    (len text - 600 <= len (_remove_boilerplate text) <= len text - 19)%Z
    /\ exists start,
         first_occurrence csr_marker text 0 start
         /\ firstn start (_remove_boilerplate text) = firstn start text.
Proof.
  intros text Hc.
  destruct (remove_boilerplate_cut text Hc) as (start & e & Hst & He & ->).
  assert (Hocc : occurs_at csr_marker text start) by apply Hst.
  apply occurs_at_length in Hocc. change (List.length csr_marker) with 19%nat in Hocc.
  split.
  - unfold len.
    rewrite List.length_app, List.length_firstn, List.length_skipn. lia.
  - exists start. split; [exact Hst|].
    rewrite List.firstn_app, List.length_firstn.
    replace (start - Nat.min start (List.length text))%nat with 0%nat by lia.
    cbn [firstn]. rewrite List.app_nil_r, List.firstn_firstn. f_equal. lia.
Qed.

Lemma remove_boilerplate_bounds_witness :
  (len two_boundaries_text - 600
   <= len (_remove_boilerplate two_boundaries_text)
   <= len two_boundaries_text - 19)%Z
  /\ exists start,
       first_occurrence csr_marker two_boundaries_text 0 start
       /\ firstn start (_remove_boilerplate two_boundaries_text)
          = firstn start two_boundaries_text.
Proof. apply (remove_boilerplate_bounds two_boundaries_text). reflexivity. Defined.

(** ** Lengths through the pipeline *)

Lemma extract_text_plain (L : Libs) (payload : pystr) :
  looks_like_html L payload = false -> _extract_text L payload = Return payload.
Proof. intros H. unfold _extract_text. rewrite H. reflexivity. Qed.

Lemma always_unwrap_fails (L : Libs) :
  quotequail_unwrap L = None -> forall text, unwrap_fails L text.
Proof. intros H text f s Hf. congruence. Qed.

(** X4: a payload that is not taken for HTML is cleaned without any call
    to the HTML libraries: [clean] returns, at every level.  No stage
    lengthens the text, so, as long as the quoted-text routine yields no
    string, the clean size is at most the original size. *)
Theorem plain_payload_never_grows :
  forall (L : Libs) (level : CleaningLevel) (payload : pystr)
         (info : option MessageInfo),
    looks_like_html L payload = false ->
    exists r,
      clean L level payload info = Return r
      /\ original_bytes (stats r) = len payload
      /\ ((forall text, unwrap_fails L text) ->
          (clean_bytes (stats r) <= original_bytes (stats r))%Z).
Proof.
  intros L level payload info Hplain.
  pose proof (minimal_clean_length L payload) as H1.
  pose proof (remove_signatures_length L (_minimal_clean L payload)) as H2.
  pose proof (remove_boilerplate_length
                (_remove_signatures L (_minimal_clean L payload))) as H3.
  destruct level.
  - rewrite clean_minimal, (extract_text_plain L payload Hplain). cbn [bind].
    eexists. split; [reflexivity|]. split; [reflexivity|]. intros _.
    cbn [result_of stats clean_bytes original_bytes]. unfold len.
    pose proof (normalize_whitespace_length L (_minimal_clean L payload)).
    lia.
  - rewrite clean_standard, (extract_text_plain L payload Hplain). cbn [bind].
    eexists. split; [reflexivity|]. split; [reflexivity|]. intros _.
    cbn [result_of stats clean_bytes original_bytes]. unfold len.
    pose proof (normalize_whitespace_length L
                  (_remove_boilerplate
                     (_remove_signatures L (_minimal_clean L payload)))).
    lia.
  - rewrite clean_aggressive, (extract_text_plain L payload Hplain). cbn [bind].
    destruct (remove_quoted_replies_returns L
                (_remove_boilerplate
                   (_remove_signatures L (_minimal_clean L payload))))
      as (t & Ht).
    rewrite Ht. cbn [bind].
    eexists. split; [reflexivity|]. split; [reflexivity|]. intros Hq.
    rewrite (remove_quoted_replies_fallback L _ (Hq _)) in Ht.
    injection Ht as <-.
    cbn [result_of stats clean_bytes original_bytes]. unfold len.
    pose proof (quoted_fallback_length L
                  (_remove_boilerplate
                     (_remove_signatures L (_minimal_clean L payload)))) as H4.
    pose proof (normalize_whitespace_length L
                  (quoted_fallback L
                     (_remove_boilerplate
                        (_remove_signatures L (_minimal_clean L payload))))).
    lia.
Qed.

Lemma plain_payload_never_grows_witness :
  exists r,
    clean plain_libs Aggressive quoted_mail None = Return r
    /\ original_bytes (stats r) = len quoted_mail
    /\ ((forall text, unwrap_fails plain_libs text) ->
        (clean_bytes (stats r) <= original_bytes (stats r))%Z).
Proof.
  apply (plain_payload_never_grows plain_libs Aggressive quoted_mail None).
  reflexivity.
Defined.

(** ** The signature corpus: what cannot be encoded *)

Lemma utf8_char_spec (c : N) :
  utf8_char c = if is_surrogate c then Raise UnicodeEncodeError
                else utf8_char c.
Proof.
  unfold utf8_char, is_surrogate.
  destruct (N.ltb_spec c 128); [|destruct (N.ltb_spec c 2048)].
  - destruct (N.leb_spec 55296 c); [lia | reflexivity].
  - destruct (N.leb_spec 55296 c); [lia | reflexivity].
  - destruct ((55296 <=? c) && (c <=? 57343)); reflexivity.
Qed.

Lemma utf8_char_returns (c : N) :
  is_surrogate c = false -> exists b, utf8_char c = Return b.
Proof.
  unfold utf8_char, is_surrogate. intros H. rewrite H.
  destruct (c <? 128); [eauto|]. destruct (c <? 2048); [eauto|].
  destruct (c <? 65536); eauto.
Qed.

(** [encode] raises on a lone surrogate, and on nothing else. *)
Lemma encode_outcome (s : pystr) :
  if existsb is_surrogate s
  then encode s = Raise UnicodeEncodeError
  else exists b, encode s = Return b.
Proof.
  induction s as [|c s IH]; [simpl; eauto|].
  cbn [existsb encode]. destruct (is_surrogate c) eqn:Ec.
  - rewrite utf8_char_spec, Ec. reflexivity.
  - destruct (utf8_char_returns c Ec) as (b & ->). cbn [orb bind].
    destruct (existsb is_surrogate s).
    + rewrite IH. reflexivity.
    + destruct IH as (r & ->). cbn [bind]. eauto.
Qed.

Lemma encode_raises (s : pystr) (e : pyexc) :
  encode s = Raise e -> e = UnicodeEncodeError /\ existsb is_surrogate s = true.
Proof.
  intros H. pose proof (encode_outcome s) as Ho.
  destruct (existsb is_surrogate s).
  - rewrite Ho in H. injection H as <-. auto.
  - destruct Ho as (b & Hb). congruence.
Qed.

Section Corpus.

Variable L : Libs.

(** The loop raises nothing but the error of [encode]. *)
Lemma scan_email_outcome (tables : FooterTables) (email : pystr) :
  (exists tables', scan_email L tables email = Return tables')
  \/ scan_email L tables email = Raise UnicodeEncodeError.
Proof.
  unfold scan_email.
  destruct (10 <? List.length (split (py "\n") email))%nat; [|eauto].
  destruct (50 <? len _)%Z; [|eauto].
  destruct (encode _) as [b|e] eqn:Ee; cbn [bind]; [eauto|].
  right. apply encode_raises in Ee as [-> _]. reflexivity.
Qed.

Lemma scan_email_surrogate (tables : FooterTables) (email footer : pystr) :
  footer_candidate email = Some footer ->
  (50 < len (normalize_footer L footer))%Z ->
  existsb is_surrogate (normalize_footer L footer) = true ->
  scan_email L tables email = Raise UnicodeEncodeError.
Proof.
  unfold footer_candidate, normalize_footer, scan_email.
  destruct (10 <? List.length (split (py "\n") email))%nat; [|discriminate].
  intros Hf Hlen Hs. injection Hf as <-.
  destruct (Z.ltb_spec 50
              (len (strip (re_sub L false spaces_re [TText (py " ")]
                             (join (py "\n")
                                (last_n 10 (split (py "\n") email)))))))
    as [_|]; [|lia].
  pose proof (encode_outcome
                (strip (re_sub L false spaces_re [TText (py " ")]
                          (join (py "\n")
                             (last_n 10 (split (py "\n") email)))))) as Ho.
  rewrite Hs in Ho. rewrite Ho. reflexivity.
Qed.

Lemma scan_emails_surrogate (emails : list pystr) (email footer : pystr) :
  In email emails ->
  footer_candidate email = Some footer ->
  (50 < len (normalize_footer L footer))%Z ->
  existsb is_surrogate (normalize_footer L footer) = true ->
  forall tables, scan_emails L tables emails = Raise UnicodeEncodeError.
Proof.
  intros Hin Hf Hlen Hs. induction emails as [|e r IH]; [destruct Hin|].
  intros tables. cbn [scan_emails].
  destruct Hin as [-> | Hin].
  - rewrite (scan_email_surrogate tables email footer Hf Hlen Hs). reflexivity.
  - destruct (scan_email_outcome tables e) as [(t' & ->) | ->];
      [|reflexivity].
    cbn [bind]. apply IH. exact Hin.
Qed.

End Corpus.

(** X5: one payload whose footer is counted and holds a lone surrogate
    makes [build_signature_database] raise [UnicodeEncodeError], whatever
    the other payloads and the threshold are; no corpus is built. *)
Theorem signature_corpus_surrogate_raises :
  forall (L : Libs) (emails : list pystr) (min_occurrences : Z)
         (email footer : pystr),
    In email emails ->
    footer_candidate email = Some footer ->
    (50 < len (normalize_footer L footer))%Z ->
    existsb is_surrogate (normalize_footer L footer) = true ->
    build_signature_database L emails min_occurrences
    = Raise UnicodeEncodeError.
Proof.
  intros L emails min_occurrences email footer Hin Hf Hlen Hs.
  unfold build_signature_database.
  rewrite (scan_emails_surrogate L emails email footer Hin Hf Hlen Hs).
  reflexivity.
Qed.

(** ** The signature corpus: its size *)

Section CorpusSize.

Variable L : Libs.

Lemma counted_hash_footer_hash (email h : pystr) :
  counted_hash L email = Some h ->
  exists footer,
    footer_candidate email = Some footer /\ footer_hash L footer = Some h.
Proof.
  unfold counted_hash, footer_hash.
  destruct (footer_candidate email) as [f|]; [|discriminate].
  intros H. exists f. split; [reflexivity | exact H].
Qed.

Lemma count_hash_pos (emails : list pystr) (h : pystr) :
  count_hash L emails h <> 0%Z
  <-> exists email, In email emails /\ counted_hash L email = Some h.
Proof.
  induction emails as [|e r IH]; cbn [count_hash].
  - split; [congruence | intros (x & [] & _)].
  - pose proof (count_hash_nonneg L r h) as Hnn.
    destruct (bool_decide (counted_hash L e = Some h)) eqn:Eb.
    + apply bool_decide_eq_true_1 in Eb. split; [|lia].
      intros _. exists e. split; [left; reflexivity | exact Eb].
    + apply bool_decide_eq_false_1 in Eb. rewrite Z.add_0_l, IH. split.
      * intros (x & Hx & Hc). exists x. split; [right; exact Hx | exact Hc].
      * intros (x & [-> | Hx] & Hc); [contradiction|]. exists x. auto.
Qed.

Lemma last_footer_hash (emails : list pystr) (h footer : pystr) :
  last_footer L emails h = Some footer -> footer_hash L footer = Some h.
Proof.
  induction emails as [|e r IH]; cbn [last_footer]; [discriminate|].
  destruct (last_footer L r h) as [f|].
  - intros H. injection H as ->. apply IH. reflexivity.
  - destruct (bool_decide (counted_hash L e = Some h)) eqn:Eb; [|discriminate].
    apply bool_decide_eq_true_1 in Eb.
    destruct (counted_hash_footer_hash e h Eb) as (f & Hf & Hh).
    rewrite Hf. intros H. injection H as <-. exact Hh.
Qed.

Lemma elem_of_frequent_hashes (emails : list pystr) (min_occurrences : Z)
    (h : pystr) :
  h ∈ frequent_hashes L emails min_occurrences
  <-> (min_occurrences <= count_hash L emails h)%Z
      /\ count_hash L emails h <> 0%Z.
Proof.
  unfold frequent_hashes. rewrite elem_of_filter, elem_of_list_to_set.
  rewrite list_elem_of_omap, count_hash_pos.
  split; intros [H1 (x & Hx & Hc)]; (split; [exact H1|]); exists x;
    (split; [|exact Hc]).
  - apply list_elem_of_In. exact Hx.
  - apply list_elem_of_In. exact Hx.
Qed.

(** The corpus has one footer for each frequent digest. *)
Lemma corpus_size (emails : list pystr) (min_occurrences : Z)
    (db : gset pystr) :
  (forall footer,
      footer ∈ db
      <-> exists h,
            last_footer L emails h = Some footer
            /\ (min_occurrences <= count_hash L emails h)%Z) ->
  size db = size (frequent_hashes L emails min_occurrences).
Proof.
  intros Hmem.
  set (H := frequent_hashes L emails min_occurrences).
  set (rep := fun h => default [] (last_footer L emails h)).
  assert (Hrep : forall h, h ∈ H -> last_footer L emails h = Some (rep h)).
  { intros h Hh. apply elem_of_frequent_hashes in Hh as [_ Hne].
    unfold rep. destruct (last_footer L emails h) as [f|] eqn:E; [reflexivity|].
    apply last_footer_counted in E. contradiction. }
  assert (Hdb : db = list_to_set (rep <$> elements H)).
  { apply set_eq. intros footer.
    rewrite Hmem, elem_of_list_to_set, list_elem_of_fmap. split.
    - intros (h & Hl & Hc). exists h.
      assert (Hh : h ∈ H).
      { apply elem_of_frequent_hashes. split; [exact Hc|].
        intros E0. apply last_footer_counted in E0. congruence. }
      split; [|apply elem_of_elements; exact Hh].
      unfold rep. rewrite Hl. reflexivity.
    - intros (h & -> & Hh). apply elem_of_elements in Hh. exists h.
      split; [apply Hrep; exact Hh|].
      apply elem_of_frequent_hashes in Hh. apply Hh. }
  rewrite Hdb, size_list_to_set.
  - rewrite length_fmap. reflexivity.
  - apply NoDup_fmap_2_strong; [|apply NoDup_elements].
    intros h1 h2 H1 H2 E. apply elem_of_elements in H1, H2.
    pose proof (last_footer_hash emails h1 _ (Hrep h1 H1)) as E1.
    pose proof (last_footer_hash emails h2 _ (Hrep h2 H2)) as E2.
    rewrite E in E1. congruence.
Qed.

(** Distinct digests count distinct payloads. *)
Lemma count_hash_sum (emails : list pystr) (hs : list pystr) :
  NoDup hs ->
  (foldr (fun h acc => count_hash L emails h + acc) 0 hs
   <= Z.of_nat (List.length emails))%Z.
Proof.
  intros Hnd. induction emails as [|e r IH].
  - clear Hnd. induction hs as [|h hs IHh]; [simpl; lia|].
    cbn [foldr count_hash List.length] in *. lia.
  - assert (Hone : (foldr (fun h acc =>
                             (if bool_decide (counted_hash L e = Some h)
                              then 1 else 0) + acc) 0 hs <= 1)%Z).
    { clear IH. induction Hnd as [|h hs Hh Hnd IHh]; [simpl; lia|].
      cbn [foldr].
      destruct (bool_decide (counted_hash L e = Some h)) eqn:Eb; [|lia].
      apply bool_decide_eq_true_1 in Eb.
      assert (Hz : (foldr (fun h acc =>
                             (if bool_decide (counted_hash L e = Some h)
                              then 1 else 0) + acc) 0 hs = 0)%Z).
      { clear IHh Hnd. induction hs as [|h' hs IHh']; [reflexivity|].
        cbn [foldr]. rewrite bool_decide_eq_false_2.
        - rewrite IHh'; [reflexivity|]. intros Hin. apply Hh. right. exact Hin.
        - intros E'. apply Hh. assert (h' = h) by congruence. subst h'.
          left. }
      lia. }
    assert (Hsplit :
      (foldr (fun h acc => count_hash L (e :: r) h + acc) 0 hs
       = foldr (fun h acc =>
                  (if bool_decide (counted_hash L e = Some h)
                   then 1 else 0) + acc) 0 hs
         + foldr (fun h acc => count_hash L r h + acc) 0 hs)%Z).
    { clear. induction hs as [|h hs IHh]; [reflexivity|].
      cbn [foldr]. rewrite IHh. cbn [count_hash]. lia. }
    rewrite Hsplit. cbn [List.length]. lia.
Qed.

Lemma frequent_hashes_bound (emails : list pystr) (min_occurrences : Z) :
  (Z.of_nat (size (frequent_hashes L emails min_occurrences))
   * min_occurrences
   <= Z.of_nat (List.length emails))%Z.
Proof.
  set (H := frequent_hashes L emails min_occurrences).
  pose proof (count_hash_sum emails (elements H) (NoDup_elements H)) as Hsum.
  assert (Hall : forall h, h ∈ elements H ->
                           (min_occurrences <= count_hash L emails h)%Z).
  { intros h Hh. apply elem_of_elements, elem_of_frequent_hashes in Hh.
    apply Hh. }
  unfold size, set_size. cbn [compose].
  revert Hsum Hall. generalize (elements H). intros hs Hsum Hall.
  assert (Hlow : (Z.of_nat (List.length hs) * min_occurrences
                  <= foldr (fun h acc => count_hash L emails h + acc) 0 hs)%Z).
  { clear Hsum. induction hs as [|h hs IHh]; [simpl; lia|].
    cbn [foldr List.length].
    pose proof (Hall h ltac:(left)) as Hh.
    assert (IH' : (Z.of_nat (List.length hs) * min_occurrences
                   <= foldr (fun h acc => count_hash L emails h + acc) 0 hs)%Z).
    { apply IHh. intros h' Hh'. apply Hall. right. exact Hh'. }
    lia. }
  lia.
Qed.

End CorpusSize.

(** X6: the number [build_signature_database] returns is the number of
    digests counted at least [min_occurrences] times; with a positive
    threshold it is at most the number of payloads divided by the
    threshold, and it is 0 when there are fewer payloads than the
    threshold asks for. *)
Theorem signature_corpus_size_bound :
  forall (L : Libs) (emails : list pystr) (min_occurrences : Z),
    encodable_corpus L emails ->
    exists db,
      build_signature_database L emails min_occurrences
      = Return (db, Z.of_nat (size db))
      /\ size db = size (frequent_hashes L emails min_occurrences)
      /\ (Z.of_nat (size db) * min_occurrences
          <= Z.of_nat (List.length emails))%Z
      /\ ((Z.of_nat (List.length emails) < min_occurrences)%Z -> db = ∅).
Proof.
  intros L emails min_occurrences Henc.
  destruct (build_signature_database_spec L emails min_occurrences Henc)
    as (db & Hrun & Hmem).
  pose proof (corpus_size L emails min_occurrences db Hmem) as Hsize.
  pose proof (frequent_hashes_bound L emails min_occurrences) as Hb.
  exists db. split; [exact Hrun|]. split; [exact Hsize|].
  rewrite Hsize. split; [exact Hb|].
  intros Hlt. apply leibniz_equiv, size_empty_inv. rewrite Hsize.
  destruct (size (frequent_hashes L emails min_occurrences)); [reflexivity|].
  nia.
Qed.

Lemma signature_corpus_size_bound_witness :
  exists db,
    build_signature_database plain_libs (List.repeat team_mail 150) 100
    = Return (db, Z.of_nat (size db))
    /\ size db = size (frequent_hashes plain_libs (List.repeat team_mail 150) 100)
    /\ (Z.of_nat (size db) * 100
        <= Z.of_nat (List.length (List.repeat team_mail 150)))%Z
    /\ ((Z.of_nat (List.length (List.repeat team_mail 150)) < 100)%Z -> db = ∅).
Proof.
  apply (signature_corpus_size_bound plain_libs (List.repeat team_mail 150) 100).
  exact team_corpus_encodable.
Defined.

(** X7: the number [build_signature_database] returns does not depend on
    the order of the payloads (the footers kept do: each digest keeps the
    footer of the last payload counted under it). *)
Theorem signature_corpus_size_order :
  forall (L : Libs) (emails emails' : list pystr) (min_occurrences : Z),
    encodable_corpus L emails ->
    Permutation emails emails' ->
    exists db db' n,
      build_signature_database L emails min_occurrences = Return (db, n)
      /\ build_signature_database L emails' min_occurrences = Return (db', n).
Proof.
  intros L emails emails' min_occurrences Henc Hperm.
  assert (Henc' : encodable_corpus L emails').
  { intros e f He. apply (Henc e f).
    apply (Permutation_in e (Permutation_sym Hperm)). exact He. }
  destruct (build_signature_database_spec L emails min_occurrences Henc)
    as (db & Hrun & Hmem).
  destruct (build_signature_database_spec L emails' min_occurrences Henc')
    as (db' & Hrun' & Hmem').
  exists db, db', (Z.of_nat (size db)). split; [exact Hrun|].
  rewrite Hrun'. do 3 f_equal.
  rewrite (corpus_size L _ _ _ Hmem), (corpus_size L _ _ _ Hmem').
  f_equal. apply set_eq. intros h. rewrite !elem_of_frequent_hashes.
  assert (Hc : count_hash L emails' h = count_hash L emails h).
  { clear -Hperm. induction Hperm; cbn [count_hash]; lia. }
  rewrite Hc. reflexivity.
Qed.

(** ** Signature removal: what is left *)

Lemma startswith_firstn (w s : pystr) (i : nat) :
  startswith w (firstn i s) = true -> startswith w s = true.
Proof.
  revert s i. induction w as [|a w IH]; intros s i H; [reflexivity|].
  destruct i as [|i]; [discriminate|]. destruct s as [|b s]; [discriminate|].
  cbn [firstn startswith] in *. apply andb_true_iff in H as [H1 H2].
  rewrite H1. exact (IH _ _ H2).
Qed.

Lemma contains_firstn (w s : pystr) (i : nat) :
  contains w s = false -> contains w (firstn i s) = false.
Proof.
  revert i. induction s as [|c s IH]; intros i H.
  - rewrite List.firstn_nil. exact H.
  - apply orb_false_iff in H as [H1 H2]. destruct i as [|i].
    + cbn [firstn contains]. rewrite orb_false_r.
      destruct (startswith w []) eqn:E; [|reflexivity].
      rewrite (startswith_firstn w (c :: s) 0 E) in H1. discriminate.
    + cbn [firstn contains]. rewrite (IH i H2), orb_false_r.
      destruct (startswith w (c :: firstn i s)) eqn:E; [|reflexivity].
      rewrite (startswith_firstn w (c :: s) (S i) E) in H1. discriminate.
Qed.

(** Cutting at the first occurrence of [w] leaves no occurrence. *)
Lemma cut_at_startswith (w text : pystr) :
  w <> [] -> contains w (cut_at (startswith w) text) = false.
Proof.
  intros Hw. induction text as [|c s IH].
  - cbn [cut_at]. destruct w; [congruence|]. reflexivity.
  - cbn [cut_at]. destruct (startswith w (c :: s)) eqn:E.
    + destruct w; [congruence | reflexivity].
    + cbn [contains]. rewrite IH, orb_false_r.
      destruct (cut_at_firstn (startswith w) s) as (i & _ & ->).
      destruct (startswith w (c :: firstn i s)) eqn:E'; [|reflexivity].
      rewrite (startswith_firstn w (c :: s) (S i) E') in E. discriminate.
Qed.

Lemma cut_at_firstn_le (P : pystr -> bool) (text : pystr) (i : nat) :
  (i <= List.length text)%nat ->
  exists j, (j <= i)%nat /\ cut_at P (firstn i text) = firstn j text.
Proof.
  intros Hi. destruct (cut_at_firstn P (firstn i text)) as (j & Hj & ->).
  rewrite List.length_firstn in Hj. exists j. split; [lia|].
  rewrite List.firstn_firstn. f_equal. lia.
Qed.

(** X8: signature removal returns a prefix of its input, and what it
    returns no longer holds the delimiter line. *)
Theorem remove_signatures_leaves_prefix :
  forall (L : Libs) (text : pystr),
    (exists i,
        (i <= List.length text)%nat
        /\ _remove_signatures L text = firstn i text)
    /\ contains (py "\n-- \n") (_remove_signatures L text) = false.
Proof.
  intros L text. rewrite remove_signatures_cut. unfold cut_signatures.
  pose proof (cut_at_startswith (py "\n-- \n") text ltac:(discriminate)) as Hd.
  change (startswith (py "\n-- \n")) with delimiter_at in Hd.
  destruct (cut_at_firstn delimiter_at text) as (i0 & H0 & E0).
  rewrite E0 in *.
  destruct (cut_at_firstn_le (mobile_at L (py "Sent from my iPhone")) text i0 H0)
    as (i1 & H1 & ->).
  destruct (cut_at_firstn_le (mobile_at L (py "Sent from my iPad")) text i1
              ltac:(lia)) as (i2 & H2 & ->).
  destruct (cut_at_firstn_le (mobile_at L (py "Get Outlook for iOS")) text i2
              ltac:(lia)) as (i3 & H3 & ->).
  destruct (cut_at_firstn_le (mobile_at L (py "Get Outlook for Android")) text
              i3 ltac:(lia)) as (i4 & H4 & ->).
  split; [exists i4; split; [lia | reflexivity]|].
  replace (firstn i4 text) with (firstn i4 (firstn i0 text)).
  - apply contains_firstn. exact Hd.
  - rewrite List.firstn_firstn. f_equal. lia.
Qed.

(** ** Minimal cleaning: what it leaves alone *)

Lemma contains_skipn (w s : pystr) (i : nat) :
  contains w s = false -> startswith w (skipn i s) = false.
Proof.
  revert i. induction s as [|c s IH]; intros i H.
  - rewrite List.skipn_nil. simpl in H. rewrite orb_false_r in H. exact H.
  - apply orb_false_iff in H as [H1 H2].
    destruct i as [|i]; [exact H1 | apply IH; exact H2].
Qed.

Lemma ci_startswith_cased (L : Libs) (w s : pystr) :
  ci_startswith L false w s = startswith w s.
Proof.
  revert s. induction w as [|p w IH]; intros s; [reflexivity|].
  destruct s as [|c s]; [reflexivity|]. simpl. rewrite IH. f_equal.
  unfold lit_match. simpl. rewrite orb_false_r. apply N.eqb_sym.
Qed.

(** [re.sub] changes nothing where the pattern matches nowhere. *)
Lemma re_sub_fixed (L : Libs) (ic : bool) (r : regex) (t : list tpl_item)
    (text : pystr) :
  (forall i, match_here L ic r false (skipn i text) = None) ->
  re_sub L ic r t text = text.
Proof.
  intros H. unfold re_sub.
  pose proof (sub_go_no_match_before L ic r t text []) as Hs.
  rewrite List.app_nil_r in Hs. rewrite Hs.
  - cbn [sub_go]. specialize (H (List.length text)).
    rewrite List.skipn_all in H. rewrite H. apply List.app_nil_r.
  - intros i _. rewrite List.app_nil_r. apply H.
Qed.

Lemma angle_link_needs_open (L : Libs) (w s : pystr) :
  startswith w s = false ->
  match_here L false
    (RSeqs [RLit w; RGroup (RRep (CNoneOf [62]) 1 true); RLit (py ">")])
    false s = None.
Proof.
  intros H. unfold match_here.
  change (RSeqs [RLit w; RGroup (RRep (CNoneOf [62]) 1 true); RLit (py ">")])
    with (RSeq (RLit w)
               (RSeq (RGroup (RRep (CNoneOf [62]) 1 true)) (RLit (py ">")))).
  rewrite mt_RSeq, mt_RLit, ci_startswith_cased, H. reflexivity.
Qed.

Lemma run_newlines_startswith (L : Libs) (s : pystr) :
  (4 <= run L false (CChar 10) s)%nat ->
  startswith (py "\n\n\n\n") s = true.
Proof.
  change (py "\n\n\n\n") with [10; 10; 10; 10]. intros H.
  do 4 (destruct s as [|? s]; [simpl in H; lia|];
        rewrite run_newline_cons in H;
        match type of H with
        | context [?c =? 10] =>
            destruct (N.eqb_spec c 10) as [->|]; [|lia]
        end;
        apply le_S_n in H).
  reflexivity.
Qed.

(** X9: minimal cleaning leaves alone every text that holds neither four
    new lines in a row nor the opening of a mailto or tel link. *)
Theorem minimal_clean_fixed :
  forall (L : Libs) (text : pystr),
    contains (py "\n\n\n\n") text = false ->
    contains (py "<mailto:") text = false ->
    contains (py "<tel:") text = false ->
    _minimal_clean L text = text.
Proof.
  intros L text Hn Hm Ht. unfold _minimal_clean, mailto_re, tel_re.
  rewrite (re_sub_fixed L false blank_run4_re).
  - rewrite (re_sub_fixed L false _ [TGroup1] text).
    + apply re_sub_fixed. intros i. apply angle_link_needs_open.
      apply contains_skipn. exact Ht.
    + intros i. apply angle_link_needs_open. apply contains_skipn. exact Hm.
  - intros i. unfold blank_run4_re. rewrite match_run by lia.
    destruct (Nat.leb_spec 4 (run L false (CChar 10) (skipn i text))) as [H|];
      [|reflexivity].
    apply run_newlines_startswith in H.
    rewrite (contains_skipn _ _ i Hn) in H. discriminate.
Qed.

Lemma minimal_clean_fixed_witness :
  _minimal_clean plain_libs signed_mail = signed_mail.
Proof.
  apply (minimal_clean_fixed plain_libs signed_mail); reflexivity.
Defined.

(** ** The impact analysis *)

(** [s.count(sep)] is one less than the number of pieces of
    [s.split(sep)]. *)
Lemma count_go_split_go (sep : pystr) :
  forall s skip cur,
    Z.of_nat (List.length (split_go sep s skip cur))
    = (count_go sep s skip + 1)%Z.
Proof.
  induction s as [|c s IH]; intros skip cur; [reflexivity|].
  destruct skip as [|n]; cbn [split_go count_go].
  - destruct (startswith sep (c :: s)).
    + cbn [List.length]. rewrite Nat2Z.inj_succ, IH. lia.
    + apply IH.
  - apply IH.
Qed.

Lemma count_split (sep s : pystr) :
  count sep s = (Z.of_nat (List.length (split sep s)) - 1)%Z.
Proof. unfold count, split. rewrite (count_go_split_go sep s 0 []). lia. Qed.

(** X10: the line counts of [analyze_cleaning_impact] are numbers of line
    breaks, one less than the number of lines [split] gives (0 for the
    empty text and for a single line); the token estimates are the halves
    of the character counts, rounded down; the reduction in characters is
    the difference of the two counts. *)
Theorem analyze_cleaning_impact_counts :
  forall (original cleaned : pystr),
    original_lines (analyze_cleaning_impact original cleaned)
    = (Z.of_nat (List.length (split (py "\n") original)) - 1)%Z
    /\ cleaned_lines (analyze_cleaning_impact original cleaned)
       = (Z.of_nat (List.length (split (py "\n") cleaned)) - 1)%Z
    /\ (original_chars (analyze_cleaning_impact original cleaned)
        = cleaned_chars (analyze_cleaning_impact original cleaned)
          + reduction_chars (analyze_cleaning_impact original cleaned))%Z
    /\ (0 <= original_chars (analyze_cleaning_impact original cleaned)
             - 2 * estimated_original_tokens
                      (analyze_cleaning_impact original cleaned) <= 1)%Z
    /\ (0 <= cleaned_chars (analyze_cleaning_impact original cleaned)
             - 2 * estimated_cleaned_tokens
                      (analyze_cleaning_impact original cleaned) <= 1)%Z.
Proof.
  intros original cleaned.
  cbn [analyze_cleaning_impact original_lines cleaned_lines original_chars
       cleaned_chars reduction_chars estimated_original_tokens
       estimated_cleaned_tokens].
  rewrite !count_split. unfold len.
  repeat split; try lia.
  - pose proof (Z.div_mod (Z.of_nat (List.length original)) 2 ltac:(lia)).
    pose proof (Z.mod_pos_bound (Z.of_nat (List.length original)) 2 ltac:(lia)).
    lia.
  - pose proof (Z.div_mod (Z.of_nat (List.length original)) 2 ltac:(lia)).
    pose proof (Z.mod_pos_bound (Z.of_nat (List.length original)) 2 ltac:(lia)).
    lia.
  - pose proof (Z.div_mod (Z.of_nat (List.length cleaned)) 2 ltac:(lia)).
    pose proof (Z.mod_pos_bound (Z.of_nat (List.length cleaned)) 2 ltac:(lia)).
    lia.
  - pose proof (Z.div_mod (Z.of_nat (List.length cleaned)) 2 ltac:(lia)).
    pose proof (Z.mod_pos_bound (Z.of_nat (List.length cleaned)) 2 ltac:(lia)).
    lia.
Qed.

(** X11: applied to a payload and to the body [clean] returned for it,
    [analyze_cleaning_impact] reports the sizes and the reduction percent
    of the statistics of that result. *)
Theorem analyze_cleaning_impact_agrees :
  forall (L : Libs) (level : CleaningLevel) (payload : pystr)
         (info : option MessageInfo) (r : CleaningResult),
    clean L level payload info = Return r ->
    original_chars (analyze_cleaning_impact payload (body_clean r))
    = original_bytes (stats r)
    /\ cleaned_chars (analyze_cleaning_impact payload (body_clean r))
       = clean_bytes (stats r)
    /\ reduction_chars (analyze_cleaning_impact payload (body_clean r))
       = (original_bytes (stats r) - clean_bytes (stats r))%Z
    /\ impact_reduction_percent
         (analyze_cleaning_impact payload (body_clean r))
       = reduction_percent (stats r).
Proof.
  intros L level payload info r Hr.
  destruct (clean_result_shape L level payload info r Hr) as (text & ->).
  cbn [analyze_cleaning_impact result_of body_clean stats original_bytes
       clean_bytes reduction_percent original_chars cleaned_chars
       reduction_chars impact_reduction_percent].
  repeat split. unfold reduction_of.
  destruct (0 <? len payload)%Z; reflexivity.
Qed.

Lemma analyze_cleaning_impact_agrees_witness :
  exists r,
    clean plain_libs Standard signed_mail None = Return r
    /\ original_chars (analyze_cleaning_impact signed_mail (body_clean r))
       = original_bytes (stats r)
    /\ cleaned_chars (analyze_cleaning_impact signed_mail (body_clean r))
       = clean_bytes (stats r)
    /\ reduction_chars (analyze_cleaning_impact signed_mail (body_clean r))
       = (original_bytes (stats r) - clean_bytes (stats r))%Z
    /\ impact_reduction_percent
         (analyze_cleaning_impact signed_mail (body_clean r))
       = reduction_percent (stats r).
Proof.
  eexists. split; [vm_compute; reflexivity|].
  apply (analyze_cleaning_impact_agrees plain_libs Standard signed_mail None).
  vm_compute. reflexivity.
Defined.

(** ** The [mbox] command: the row of a message *)

Section MboxImport.

Variable L : Libs.
Variable E : CliLibs.

Lemma join_snoc_line (x v : pystr) (vs : list pystr) :
  join (py "\n") ((x ++ py "\n" ++ v) :: vs) = join (py "\n") (x :: v :: vs).
Proof.
  destruct vs as [|w vs].
  - reflexivity.
  - rewrite (join_cons _ _ (w :: vs)) by discriminate.
    rewrite (join_cons _ x (v :: w :: vs)) by discriminate.
    rewrite (join_cons _ v (w :: vs)) by discriminate.
    rewrite <- !List.app_assoc. reflexivity.
Qed.

Lemma header_columns_spec (headers : list (pystr * pystr)) :
  forall row,
    match decode_items L E headers with
    | Raise e => header_columns L E headers row = Raise e
    | Return decoded =>
        exists row',
          header_columns L E headers row = Return row'
          /\ forall k, row' !! k = extend_column (row !! k) (values_of k decoded)
    end.
Proof.
  induction headers as [|[key value] rest IH]; intros row.
  - cbn [decode_items header_columns]. exists row. split; [reflexivity|].
    intros k. unfold values_of. cbn [List.filter map].
    destruct (row !! k); reflexivity.
  - cbn [decode_items header_columns].
    destruct (decode_header_value E value) as [v|e]; [|reflexivity].
    cbn [bind].
    set (row1 := match row !! lower L key with
                 | Some existing =>
                     <[lower L key := existing ++ py "\n" ++ v]> row
                 | None => <[lower L key := v]> row
                 end).
    specialize (IH row1).
    destruct (decode_items L E rest) as [decoded|e]; [|exact IH].
    cbn [bind]. destruct IH as (row' & Hrun & Hcols).
    exists row'. split; [exact Hrun|]. intros k. rewrite Hcols.
    unfold values_of. cbn [List.filter fst].
    destruct (decide (lower L key = k)) as [<-|Hne].
    + rewrite bool_decide_eq_true_2 by reflexivity. cbn [map snd].
      fold (values_of (lower L key) decoded). unfold row1.
      destruct (row !! lower L key) as [x|] eqn:Ex.
      * rewrite lookup_insert_eq. cbn [extend_column].
        rewrite join_snoc_line. reflexivity.
      * rewrite lookup_insert_eq. reflexivity.
    + rewrite bool_decide_eq_false_2 by exact Hne.
      fold (values_of k decoded).
      assert (Hk : row1 !! k = row !! k).
      { unfold row1. destruct (row !! lower L key);
          apply lookup_insert_ne; exact Hne. }
      rewrite Hk. reflexivity.
Qed.

End MboxImport.

(** X12: the row [to_insert] yields for a message has, for each header
    name in lower case, the decoded values of all headers of that name, in
    the order of the message and one on a line (none is dropped, the last
    does not replace the others); the column [payload] holds the text of
    the message, also when the message has a header named Payload.  When
    a header value cannot be decoded the error comes out. *)
Theorem to_insert_columns :
  forall (L : Libs) (E : CliLibs) (message : Message),
    match decode_items L E (items message) with
    | Raise e => to_insert L E message = Raise e
    | Return decoded =>
        exists row,
          to_insert L E message = Return row
          /\ row !! py "payload" = Some (get_message_text E message)
          /\ forall k,
               k <> py "payload" ->
               row !! k = column_of (values_of k decoded)
    end.
Proof.
  intros L E message. unfold to_insert.
  pose proof (header_columns_spec L E (items message) ∅) as H.
  destruct (decode_items L E (items message)) as [decoded|e].
  - destruct H as (row' & -> & Hcols). cbn [bind]. eexists.
    split; [reflexivity|]. split; [apply lookup_insert_eq|].
    intros k Hk. rewrite lookup_insert_ne by congruence.
    rewrite Hcols, lookup_empty. reflexivity.
  - rewrite H. reflexivity.
Qed.

(** ** The separator of parts, from the import to the cleaner *)

Lemma split_go_piece (sep p rest cur : pystr) :
  sep <> [] ->
  (forall j, (j < List.length p)%nat ->
             startswith sep (skipn j (p ++ sep ++ rest)) = false) ->
  split_go sep (p ++ sep ++ rest) 0 cur
  = (rev cur ++ p) :: split_go sep rest 0 [].
Proof.
  intros Hsep. revert cur. induction p as [|c p IH]; intros cur H.
  - cbn [app]. rewrite List.app_nil_r.
    destruct sep as [|a sep]; [congruence|]. cbn [app split_go].
    assert (Hs : startswith (a :: sep) (a :: sep ++ rest) = true).
    { clear. change (a :: sep ++ rest) with ((a :: sep) ++ rest).
      induction (a :: sep) as [|x w IHw]; [reflexivity|].
      cbn [app startswith]. rewrite N.eqb_refl. exact IHw. }
    rewrite Hs. cbn [List.length]. rewrite Nat.sub_succ, Nat.sub_0_r.
    rewrite split_go_skip_app. reflexivity.
  - cbn [app split_go].
    pose proof (H 0%nat ltac:(simpl; lia)) as H0. cbn [skipn app] in H0.
    rewrite H0. rewrite IH.
    + cbn [rev]. rewrite <- List.app_assoc. reflexivity.
    + intros j Hj. apply (H (S j)). simpl. lia.
Qed.

Lemma split_go_last (sep p cur : pystr) :
  contains sep p = false -> split_go sep p 0 cur = [rev cur ++ p].
Proof.
  revert cur. induction p as [|c p IH]; intros cur H.
  - cbn [split_go]. rewrite List.app_nil_r. reflexivity.
  - apply orb_false_iff in H as [H1 H2]. cbn [split_go]. rewrite H1.
    rewrite (IH _ H2). cbn [rev]. rewrite <- List.app_assoc. reflexivity.
Qed.

Lemma startswith_app_l (w1 w2 s : pystr) :
  startswith (w1 ++ w2) s = true -> startswith w1 s = true.
Proof.
  revert s. induction w1 as [|a w1 IH]; intros s H; [reflexivity|].
  destruct s as [|b s]; [discriminate|]. cbn [app startswith] in *.
  apply andb_true_iff in H as [H1 H2]. rewrite H1. exact (IH _ H2).
Qed.

Lemma startswith_within (w t u : pystr) :
  startswith w (t ++ u) = true -> (List.length w <= List.length t)%nat ->
  startswith w t = true.
Proof.
  revert t. induction w as [|a w IH]; intros t H Hl; [reflexivity|].
  destruct t as [|b t]; [simpl in Hl; lia|]. cbn [app startswith] in *.
  apply andb_true_iff in H as [H1 H2]. rewrite H1. apply IH; [exact H2|].
  simpl in Hl. lia.
Qed.

Lemma startswith_beyond (w t u : pystr) :
  startswith w (t ++ u) = true -> (List.length t <= List.length w)%nat ->
  startswith (skipn (List.length t) w) u = true.
Proof.
  revert w. induction t as [|b t IH]; intros w H Hl; [exact H|].
  destruct w as [|a w]; [simpl in Hl; lia|]. cbn [app startswith] in H.
  apply andb_true_iff in H as [_ H2]. cbn [List.length skipn].
  apply IH; [exact H2|]. simpl in Hl. lia.
Qed.

Lemma part_separator_marker :
  part_separator = part_marker ++ py "\n\n".
Proof. reflexivity. Qed.

(** The separator does not begin inside a part that does not hold its
    opening. *)
Lemma no_early_separator (p rest : pystr) :
  contains part_marker p = false ->
  forall j, (j < List.length p)%nat ->
            startswith part_separator (skipn j (p ++ part_separator ++ rest))
            = false.
Proof.
  intros Hp j Hj.
  destruct (startswith part_separator (skipn j (p ++ part_separator ++ rest)))
    eqn:E; [|reflexivity].
  exfalso. rewrite List.skipn_app in E.
  replace (j - List.length p)%nat with 0%nat in E by lia. cbn [skipn] in E.
  pose proof (contains_skipn _ _ j Hp) as Hno.
  assert (Hlen : List.length (skipn j p) = (List.length p - j)%nat)
    by apply List.length_skipn.
  destruct (Nat.le_gt_cases 12 (List.length p - j)) as [Hbig|Hsmall].
  - rewrite part_separator_marker in E at 1.
    apply startswith_app_l in E.
    apply startswith_within in E; [congruence|].
    rewrite Hlen. change (List.length part_marker) with 12%nat. exact Hbig.
  - apply startswith_beyond in E;
      [|rewrite Hlen; change (List.length part_separator) with 14%nat; lia].
    rewrite Hlen in E.
    assert (Hk : (0 < List.length p - j < 12)%nat) by lia.
    revert E Hk. generalize (List.length p - j)%nat. intros k E Hk.
    destruct k as [|k]; [lia|].
    do 11 (destruct k as [|k]; [vm_compute in E; discriminate|]). lia.
Qed.

Lemma contains_marker_separator (p : pystr) :
  contains part_marker p = false -> contains part_separator p = false.
Proof.
  intros H. induction p as [|c p IH]; [reflexivity|].
  apply orb_false_iff in H as [H1 H2]. cbn [contains]. rewrite (IH H2).
  rewrite orb_false_r.
  destruct (startswith part_separator (c :: p)) eqn:E; [|reflexivity].
  rewrite part_separator_marker in E. apply startswith_app_l in E. congruence.
Qed.

(** Parts that do not hold the opening of the separator come back from the
    joined text. *)
Lemma split_join_parts (parts : list pystr) :
  parts <> [] ->
  Forall (fun p => contains part_marker p = false) parts ->
  split part_separator (join part_separator parts) = parts.
Proof.
  induction parts as [|p parts IH]; intros Hne Hall; [congruence|].
  inversion Hall as [|? ? Hp Hps]; subst. unfold split in *.
  destruct parts as [|q parts].
  - cbn [join]. rewrite split_go_last by (apply contains_marker_separator, Hp).
    reflexivity.
  - rewrite join_cons by discriminate.
    rewrite split_go_piece;
      [|discriminate | apply no_early_separator; exact Hp].
    cbn [rev app]. f_equal. apply IH; [discriminate | exact Hps].
Qed.

(** X13: the text [get_message_text] builds is empty when the message has
    no text part; else it is the parts joined by the separator, and
    splitting it at the separator, as [_extract_text] does, gives the
    parts back, as long as no part holds the opening of the separator (two
    new lines and [---PART---]): the cleaner then converts the text parts
    of the message, one by one and in order. *)
Theorem message_parts_round_trip :
  forall (L : Libs) (E : CliLibs) (message : Message),
    (text_parts E message = [] -> get_message_text E message = [])
    /\ (text_parts E message <> [] ->
        get_message_text E message
        = join part_separator (text_parts E message)
        /\ (Forall (fun p => contains part_marker p = false)
                   (text_parts E message) ->
            split part_separator (get_message_text E message)
            = text_parts E message
            /\ (looks_like_html L (get_message_text E message) = true ->
                _extract_text L (get_message_text E message)
                = (cleaned_parts <- convert_parts L (text_parts E message) ;;
                   Return (match cleaned_parts with
                           | [] => get_message_text E message
                           | _ :: _ => join (py "\n\n") cleaned_parts
                           end))))).
Proof.
  intros L E message.
  split.
  - unfold get_message_text. intros ->. reflexivity.
  - intros Hne.
    assert (Hjoin : get_message_text E message
                    = join part_separator (text_parts E message)).
    { unfold get_message_text.
      destruct (text_parts E message); [congruence | reflexivity]. }
    split; [exact Hjoin|]. intros Hall.
    assert (Hsplit : split part_separator (get_message_text E message)
                     = text_parts E message).
    { rewrite Hjoin. apply split_join_parts; assumption. }
    split; [exact Hsplit|]. intros Hhtml.
    unfold _extract_text, extract_html. rewrite Hhtml, Hsplit. reflexivity.
Qed.

(** ** The [clean] command *)

Section CleanCommand.

Variable L : Libs.
Variable E : CliLibs.
Variable level : CleaningLevel.

Lemma cleaned_row_of_columns (row : gmap pystr cell) (body_raw body_clean : pystr)
    (stats : Stats) :
  cleaned_row_of E row body_raw body_clean stats !! py "body_raw"
  = Some (CStr body_raw)
  /\ cleaned_row_of E row body_raw body_clean stats !! py "body_clean"
     = Some (CStr body_clean)
  /\ cleaned_row_of E row body_raw body_clean stats !! py "cleaning_stats"
     = Some (CStr (json_dumps E stats))
  /\ cleaned_row_of E row body_raw body_clean stats !! py "payload" = None
  /\ forall k,
       k <> py "body_raw" -> k <> py "body_clean" ->
       k <> py "cleaning_stats" -> k <> py "payload" ->
       cleaned_row_of E row body_raw body_clean stats !! k = row !! k.
Proof.
  unfold cleaned_row_of. split; [|split; [|split; [|split]]].
  - rewrite lookup_delete_ne by discriminate.
    rewrite !lookup_insert_ne by discriminate. apply lookup_insert_eq.
  - rewrite lookup_delete_ne by discriminate.
    rewrite lookup_insert_ne by discriminate. apply lookup_insert_eq.
  - rewrite lookup_delete_ne by discriminate. apply lookup_insert_eq.
  - apply lookup_delete_eq.
  - intros k H1 H2 H3 H4. rewrite lookup_delete_ne by congruence.
    rewrite !lookup_insert_ne by congruence. reflexivity.
Qed.

(** The body of the loop, by the row it writes. *)
Lemma clean_row_spec (st : CleanState) (row : gmap pystr cell) :
  clean_row L E level st row
  = (out <- cleaned_row L E level row ;;
     Return {| processed := processed st;
               total_original_bytes :=
                 (total_original_bytes st
                  + column_chars (py "body_raw") [out])%Z;
               total_clean_bytes :=
                 (total_clean_bytes st
                  + column_chars (py "body_clean") [out])%Z;
               cleaned_rows := cleaned_rows st ++ [out];
               upserted := upserted st |}).
Proof.
  unfold clean_row, cleaned_row.
  destruct (default (CStr []) (row !! py "payload")) as [|[|c payload]].
  - cbn [bind column_chars].
    destruct (cleaned_row_of_columns row [] [] no_payload_stats)
      as (-> & -> & _).
    f_equal. f_equal; unfold len; simpl; lia.
  - cbn [bind column_chars].
    destruct (cleaned_row_of_columns row [] [] no_payload_stats)
      as (-> & -> & _).
    f_equal. f_equal; unfold len; simpl; lia.
  - destruct (clean L level (c :: payload) (Some (message_info_of row)))
      as [result|e] eqn:Ec; [|reflexivity].
    cbn [bind column_chars].
    destruct (cleaned_row_of_columns row (c :: payload) (body_clean result)
                (stats result)) as (-> & -> & _).
    destruct (clean_result_shape L level _ _ _ Ec) as (text & ->).
    cbn [result_of stats body_clean original_bytes clean_bytes].
    f_equal. f_equal; lia.
Qed.

Lemma column_chars_app (column : pystr) (xs ys : list (gmap pystr cell)) :
  column_chars column (xs ++ ys)
  = (column_chars column xs + column_chars column ys)%Z.
Proof.
  induction xs as [|x xs IH]; [reflexivity|].
  cbn [app column_chars]. rewrite IH. lia.
Qed.

(** The loop, from any state whose batch is not full. *)
Lemma clean_loop_spec (rows : list (gmap pystr cell)) :
  forall st st' res,
    clean_loop L E level rows st = (st', res) ->
    (List.length (cleaned_rows st) < 1000)%nat ->
    exists pre outs batches,
      Forall2 (fun row out => cleaned_row L E level row = Return out) pre outs
      /\ upserted st' = upserted st ++ batches
      /\ Forall (fun batch => List.length batch = 1000%nat) batches
      /\ List.concat batches ++ cleaned_rows st' = cleaned_rows st ++ outs
      /\ total_original_bytes st'
         = (total_original_bytes st + column_chars (py "body_raw") outs)%Z
      /\ total_clean_bytes st'
         = (total_clean_bytes st + column_chars (py "body_clean") outs)%Z
      /\ match res with
         | None =>
             pre = rows
             /\ (List.length (cleaned_rows st') < 1000)%nat
             /\ processed st'
                = (processed st + Z.of_nat (List.length rows))%Z
         | Some e =>
             ((List.length (cleaned_rows st') < 1000)%nat
              /\ exists row post,
                   rows = pre ++ row :: post
                   /\ cleaned_row L E level row = Raise e)
             \/ (upsert_all E (upserted st') (cleaned_rows st') = Raise e
                 /\ exists post, rows = pre ++ post)
         end.
Proof.
  induction rows as [|row rest IH]; intros st st' res Hrun Hlt.
  - cbn [clean_loop] in Hrun. injection Hrun as <- <-.
    exists [], [], []. rewrite !List.app_nil_r. cbn [List.length column_chars].
    repeat split; try lia; constructor.
  - cbn [clean_loop] in Hrun. rewrite clean_row_spec in Hrun.
    destruct (cleaned_row L E level row) as [out|e] eqn:Eo; cbn [bind] in Hrun.
    + set (st1 := {| processed := processed st;
                     total_original_bytes :=
                       (total_original_bytes st
                        + column_chars (py "body_raw") [out])%Z;
                     total_clean_bytes :=
                       (total_clean_bytes st
                        + column_chars (py "body_clean") [out])%Z;
                     cleaned_rows := cleaned_rows st ++ [out];
                     upserted := upserted st |}) in *.
      assert (Hl1 : List.length (cleaned_rows st1)
                    = S (List.length (cleaned_rows st))).
      { unfold st1. cbn [cleaned_rows]. rewrite List.length_app.
        cbn [List.length]. lia. }
      assert (Hraw : forall outs,
                 (total_original_bytes st1 + column_chars (py "body_raw") outs
                  = total_original_bytes st
                    + column_chars (py "body_raw") (out :: outs))%Z).
      { intros outs. unfold st1. cbn [total_original_bytes].
        change (out :: outs) with ([out] ++ outs).
        rewrite (column_chars_app _ [out] outs). lia. }
      assert (Hcln : forall outs,
                 (total_clean_bytes st1 + column_chars (py "body_clean") outs
                  = total_clean_bytes st
                    + column_chars (py "body_clean") (out :: outs))%Z).
      { intros outs. unfold st1. cbn [total_clean_bytes].
        change (out :: outs) with ([out] ++ outs).
        rewrite (column_chars_app _ [out] outs). lia. }
      unfold count_and_flush in Hrun.
      destruct (Nat.leb_spec 1000 (List.length (cleaned_rows st1))) as [Hfull|Hnot].
      * destruct (upsert_all E (upserted st1) (cleaned_rows st1)) as [[]|e]
          eqn:Eu; cbn [bind] in Hrun.
        -- destruct (IH _ _ _ Hrun) as
             (pre & outs & batches & Hf & Hu & Hb & Hc & Ho & Hcl & Hres).
           { cbn [cleaned_rows List.length]. lia. }
           cbn [processed total_original_bytes total_clean_bytes cleaned_rows
                upserted] in Hu, Hc, Ho, Hcl, Hres.
           exists (row :: pre), (out :: outs), (cleaned_rows st1 :: batches).
           split; [constructor; assumption|].
           split; [rewrite Hu, <- List.app_assoc; reflexivity|].
           split; [constructor; [lia | exact Hb]|].
           split.
           { cbn [List.concat]. rewrite <- List.app_assoc, Hc. cbn [app].
             unfold st1. cbn [cleaned_rows]. rewrite <- List.app_assoc.
             reflexivity. }
           split; [rewrite Ho; apply Hraw|].
           split; [rewrite Hcl; apply Hcln|].
           destruct res as [e|].
           ++ destruct Hres as [(Hl & r & post & -> & Hr) | (Hup & post & ->)].
              ** left. split; [exact Hl|]. exists r, post.
                 split; [reflexivity | exact Hr].
              ** right. split; [exact Hup|]. exists post. reflexivity.
           ++ destruct Hres as (-> & Hl & Hp). split; [reflexivity|].
              split; [exact Hl|]. rewrite Hp. unfold st1.
              cbn [processed List.length]. lia.
        -- injection Hrun as <- <-.
           exists [row], [out], []. cbn [app List.concat].
           split; [constructor; [exact Eo | constructor]|].
           split; [unfold st1; cbn [upserted]; rewrite List.app_nil_r;
                   reflexivity|].
           split; [constructor|].
           split; [reflexivity|].
           split; [rewrite <- Hraw; cbn [column_chars]; lia|].
           split; [rewrite <- Hcln; cbn [column_chars]; lia|].
           right. split; [exact Eu|]. exists rest. reflexivity.
      * destruct (IH _ _ _ Hrun) as
          (pre & outs & batches & Hf & Hu & Hb & Hc & Ho & Hcl & Hres).
        { cbn [cleaned_rows]. exact Hnot. }
        cbn [processed total_original_bytes total_clean_bytes cleaned_rows
             upserted] in Hu, Hc, Ho, Hcl, Hres.
        exists (row :: pre), (out :: outs), batches.
        split; [constructor; assumption|].
        split; [exact Hu|].
        split; [exact Hb|].
        split.
        { rewrite Hc. unfold st1. cbn [cleaned_rows].
          rewrite <- List.app_assoc. reflexivity. }
        split; [rewrite Ho; apply Hraw|].
        split; [rewrite Hcl; apply Hcln|].
        destruct res as [e|].
        -- destruct Hres as [(Hl & r & post & -> & Hr) | (Hup & post & ->)].
           ++ left. split; [exact Hl|]. exists r, post.
              split; [reflexivity | exact Hr].
           ++ right. split; [exact Hup|]. exists post. reflexivity.
        -- destruct Hres as (-> & Hl & Hp). split; [reflexivity|].
           split; [exact Hl|]. rewrite Hp. unfold st1.
           cbn [processed List.length]. lia.
    + injection Hrun as <- <-.
      exists [], [], []. rewrite !List.app_nil_r.
      cbn [List.length column_chars].
      split; [constructor|]. split; [reflexivity|]. split; [constructor|].
      split; [reflexivity|]. split; [lia|]. split; [lia|].
      left. split; [exact Hlt|]. exists row, rest.
      split; [reflexivity | exact Eo].
Qed.

End CleanCommand.

Section CleanCommandRun.

Variable L : Libs.
Variable E : CliLibs.
Variable level : CleaningLevel.

Lemma cleaned_row_payload_chars (row out : gmap pystr cell) :
  cleaned_row L E level row = Return out ->
  column_chars (py "body_raw") [out] = column_chars (py "payload") [row].
Proof.
  unfold cleaned_row. cbn [column_chars].
  destruct (row !! py "payload") as [[|[|c payload]]|] eqn:Ep;
    cbn [default from_option id].
  - intros H. injection H as <-.
    destruct (cleaned_row_of_columns E row [] [] no_payload_stats) as (-> & _).
    reflexivity.
  - intros H. injection H as <-.
    destruct (cleaned_row_of_columns E row [] [] no_payload_stats) as (-> & _).
    reflexivity.
  - destruct (clean L level (c :: payload) (Some (message_info_of row)))
      as [result|e]; [|discriminate].
    cbn [bind]. intros H. injection H as <-.
    destruct (cleaned_row_of_columns E row (c :: payload) (body_clean result)
                (stats result)) as (-> & _).
    reflexivity.
  - intros H. injection H as <-.
    destruct (cleaned_row_of_columns E row [] [] no_payload_stats) as (-> & _).
    reflexivity.
Qed.

Lemma cleaned_rows_payload_chars (rows outs : list (gmap pystr cell)) :
  Forall2 (fun row out => cleaned_row L E level row = Return out) rows outs ->
  column_chars (py "body_raw") outs = column_chars (py "payload") rows.
Proof.
  induction 1 as [|row out rows outs Hr _ IH]; [reflexivity|].
  change (out :: outs) with ([out] ++ outs).
  change (row :: rows) with ([row] ++ rows).
  rewrite !column_chars_app, IH, (cleaned_row_payload_chars row out Hr).
  reflexivity.
Qed.

(** The loop from the initial state. *)
Lemma clean_loop_run (rows : list (gmap pystr cell)) (st : CleanState)
    (res : option pyexc) :
  clean_loop L E level rows initial_state = (st, res) ->
  exists pre outs,
    Forall2 (fun row out => cleaned_row L E level row = Return out) pre outs
    /\ Forall (fun batch => List.length batch = 1000%nat) (upserted st)
    /\ List.concat (upserted st) ++ cleaned_rows st = outs
    /\ total_original_bytes st = column_chars (py "body_raw") outs
    /\ total_clean_bytes st = column_chars (py "body_clean") outs
    /\ match res with
       | None =>
           pre = rows
           /\ (List.length (cleaned_rows st) < 1000)%nat
           /\ processed st = Z.of_nat (List.length rows)
       | Some e =>
           ((List.length (cleaned_rows st) < 1000)%nat
            /\ exists row post,
                 rows = pre ++ row :: post
                 /\ cleaned_row L E level row = Raise e)
           \/ (upsert_all E (upserted st) (cleaned_rows st) = Raise e
               /\ exists post, rows = pre ++ post)
       end.
Proof.
  intros Hrun.
  destruct (clean_loop_spec L E level rows _ _ _ Hrun)
    as (pre & outs & batches & Hf & Hu & Hb & Hc & Ho & Hcl & Hres).
  { cbn. lia. }
  cbn [initial_state upserted cleaned_rows processed total_original_bytes
       total_clean_bytes app] in *.
  exists pre, outs. rewrite <- Hu in Hb, Hc.
  repeat (split; [first [assumption | lia]|]).
  destruct res; [exact Hres|].
  destruct Hres as (H1 & H2 & H3). repeat split; [assumption.. | lia].
Qed.

Lemma flush_rest_spec (st st' : CleanState) :
  flush_rest E st = Return st' ->
  List.concat (upserted st') = List.concat (upserted st) ++ cleaned_rows st
  /\ processed st' = processed st
  /\ total_original_bytes st' = total_original_bytes st
  /\ total_clean_bytes st' = total_clean_bytes st
  /\ upserted st'
     = upserted st ++ match cleaned_rows st with
                      | [] => []
                      | _ :: _ => [cleaned_rows st]
                      end.
Proof.
  unfold flush_rest. destruct (cleaned_rows st) as [|r rs] eqn:Ec.
  - intros H. injection H as <-. rewrite !List.app_nil_r. auto.
  - destruct (upsert_all E (upserted st) (r :: rs)) as [[]|e]; [|discriminate].
    cbn [bind]. intros H. injection H as <-.
    cbn [upserted processed total_original_bytes total_clean_bytes].
    rewrite List.concat_app. cbn [List.concat]. rewrite List.app_nil_r. auto.
Qed.

End CleanCommandRun.

(** A command that returned ran its loop to the end. *)
Lemma clean_command_returned (L : Libs) (E : CliLibs) (level : CleaningLevel)
    (build_signature_db : bool) (rows : list (gmap pystr cell))
    (st : CleanState) (report : CleanReport) :
  clean_command L E level build_signature_db rows = (st, Return report) ->
  exists st0 found,
    clean_loop L E level rows initial_state = (st0, None)
    /\ flush_rest E st0 = Return st
    /\ report = report_of found st.
Proof.
  unfold clean_command.
  destruct (if build_signature_db then _ else _) as [found|e];
    [|discriminate].
  destruct (clean_loop L E level rows initial_state) as [st0 [e|]];
    [discriminate|].
  destruct (flush_rest E st0) as [st1|e] eqn:Hflush; [|discriminate].
  destruct (enable_fts E (upserted st1)) as [[]|e]; [|discriminate].
  intros H. injection H as <- <-. exists st0, found.
  split; [reflexivity|]. split; [exact Hflush | reflexivity].
Qed.


(** X15: the report of the [clean] command counts every row of the
    source; its original size is the number of characters of the payload
    column of the source, which is that of the column [body_raw] written;
    its cleaned size is the number of characters of the column
    [body_clean] written. *)
Theorem clean_command_report_totals :
  forall (L : Libs) (E : CliLibs) (level : CleaningLevel)
         (build_signature_db : bool) (rows : list (gmap pystr cell))
         (st : CleanState) (report : CleanReport),
    clean_command L E level build_signature_db rows = (st, Return report) ->
    emails_processed report = Z.of_nat (List.length rows)
    /\ original_size report = column_chars (py "payload") rows
    /\ original_size report
       = column_chars (py "body_raw") (List.concat (upserted st))
    /\ cleaned_size report
       = column_chars (py "body_clean") (List.concat (upserted st)).
Proof.
  intros L E level flag rows st report Hrun.
  destruct (clean_command_returned L E level flag rows st report Hrun)
    as (st0 & found & Hloop & Hflush & ->).
  destruct (clean_loop_run L E level rows st0 None Hloop)
    as (pre & outs & Hf & Hb & Hc & Ho & Hcl & -> & Hl & Hp).
  destruct (flush_rest_spec E st0 st Hflush) as (Hcat & Hp' & Ho' & Hcl' & _).
  rewrite Hcat, Hc.
  cbn [report_of emails_processed original_size cleaned_size].
  rewrite Hp', Ho', Hcl', Hp, Ho, Hcl.
  rewrite (cleaned_rows_payload_chars L E level rows outs Hf). auto.
Qed.




Lemma clean_command_report_totals_witness :
  exists st report,
    clean_command plain_libs plain_cli_libs Standard false sample_rows
    = (st, Return report)
    /\ emails_processed report = Z.of_nat (List.length sample_rows)
    /\ original_size report = column_chars (py "payload") sample_rows
    /\ original_size report
       = column_chars (py "body_raw") (List.concat (upserted st))
    /\ cleaned_size report
       = column_chars (py "body_clean") (List.concat (upserted st)).
Proof.
  destruct (clean_command plain_libs plain_cli_libs Standard false sample_rows)
    as [st [report|e]] eqn:Hrun.
  - exists st, report. split; [reflexivity|].
    exact (clean_command_report_totals _ _ _ _ _ _ _ Hrun).
  - exfalso. vm_compute in Hrun. discriminate Hrun.
Defined.


(** ** The signature analysis of the command *)

Lemma build_returns_encodable (L : Libs) (emails : list pystr)
    (min_occurrences : Z) (r : gset pystr * Z) :
  build_signature_database L emails min_occurrences = Return r ->
  encodable_corpus L emails.
Proof.
  intros Hrun email footer Hin Hf Hlen.
  pose proof (encode_outcome (normalize_footer L footer)) as Ho.
  destruct (existsb is_surrogate (normalize_footer L footer)) eqn:Es;
    [|exact Ho].
  exfalso. unfold build_signature_database in Hrun.
  rewrite (scan_emails_surrogate L emails email footer Hin Hf Hlen Es) in Hrun.
  discriminate Hrun.
Qed.

Lemma all_payloads_length (rows : list (gmap pystr cell)) :
  (List.length (all_payloads rows) <= List.length rows)%nat.
Proof.
  unfold all_payloads. induction rows as [|row rows IH]; [simpl; lia|].
  cbn [omap list_omap List.length].
  destruct (row !! py "payload") as [[|[|c p]]|]; cbn [List.length]; lia.
Qed.

(** X17: with [--build-signature-db] the threshold is at least 100
    whatever the size of the table, so the command that returns reports at
    most 100 signatures, and none when fewer than 100 rows have a
    payload. *)
Theorem clean_command_signature_count :
  forall (L : Libs) (E : CliLibs) (level : CleaningLevel)
         (rows : list (gmap pystr cell)) (st : CleanState)
         (report : CleanReport),
    clean_command L E level true rows = (st, Return report) ->
    exists n,
      sig_count report = Some n
      /\ (0 <= n <= 100)%Z
      /\ ((List.length (all_payloads rows) < 100)%nat -> n = 0%Z).
Proof.
  intros L E level rows st report. unfold clean_command.
  destruct (build_signature_database L (all_payloads rows)
              (Z.max 100 (Z.of_nat (List.length rows) / 100)))
    as [[db n]|e] eqn:Hb; cbn [bind]; [|discriminate].
  destruct (clean_loop L E level rows initial_state) as [st0 [e|]];
    [discriminate|].
  destruct (flush_rest E st0) as [st1|e]; [|discriminate].
  destruct (enable_fts E (upserted st1)) as [[]|e]; [|discriminate].
  intros H. injection H as <- <-. cbn [report_of sig_count snd].
  exists n. split; [reflexivity|].
  pose proof (build_returns_encodable L _ _ _ Hb) as Henc.
  destruct (build_signature_database_spec L (all_payloads rows)
              (Z.max 100 (Z.of_nat (List.length rows) / 100)) Henc)
    as (db' & Hrun & Hmem).
  rewrite Hrun in Hb. injection Hb as -> <-.
  pose proof (corpus_size L _ _ _ Hmem) as Hsize.
  pose proof (frequent_hashes_bound L (all_payloads rows)
                (Z.max 100 (Z.of_nat (List.length rows) / 100))) as Hbound.
  rewrite <- Hsize in Hbound.
  pose proof (all_payloads_length rows) as Hlen.
  set (total := Z.of_nat (List.length rows)) in *.
  set (m := Z.of_nat (size db)) in *.
  assert (Hm : (0 <= m)%Z) by (unfold m; lia).
  assert (Ht : (0 <= total)%Z) by (unfold total; lia).
  pose proof (Z.div_mod total 100 ltac:(lia)) as Hdm.
  pose proof (Z.mod_pos_bound total 100 ltac:(lia)) as Hmod.
  set (q := (total / 100)%Z) in *.
  assert (Hq : (0 <= q)%Z) by (apply Z.div_pos; lia).
  split; [|intros Hfew]; destruct (Z.max_spec 100 q) as [[_ E']|[_ E']];
    rewrite E' in Hbound; nia.
Qed.

Lemma clean_command_signature_count_witness :
  exists st report n,
    clean_command plain_libs plain_cli_libs Standard true sample_rows
    = (st, Return report)
    /\ sig_count report = Some n
    /\ (0 <= n <= 100)%Z
    /\ ((List.length (all_payloads sample_rows) < 100)%nat -> n = 0%Z).
Proof.
  destruct (clean_command plain_libs plain_cli_libs Standard true sample_rows)
    as [st [report|e]] eqn:Hrun.
  - destruct (clean_command_signature_count _ _ _ _ _ _ Hrun) as (n & Hn).
    exists st, report, n. split; [reflexivity | exact Hn].
  - exfalso. vm_compute in Hrun. discriminate Hrun.
Defined.

(** ** Quoted replies: what the fallback leaves *)

Lemma unquoted_stale (l : pystr) : ~ In 10 l -> unquoted false l = true.
Proof.
  induction l as [|c l IH]; intros Hn; [reflexivity|].
  cbn [unquoted].
  destruct (N.eqb_spec c 10) as [->|_]; [exfalso; apply Hn; left; reflexivity|].
  assert (Hl : ~ In 10 l) by (intros H; apply Hn; right; exact H).
  rewrite (IH Hl). destruct (isspace c); reflexivity.
Qed.

Lemma unquoted_line (l r : pystr) :
  ~ In 10 l ->
  forall f, unquoted f (l ++ 10 :: r) = unquoted f l && unquoted true r.
Proof.
  intros Hn. induction l as [|c l IH]; intros f.
  - cbn [app unquoted]. change (10 =? 10) with true. reflexivity.
  - cbn [app unquoted].
    destruct (N.eqb_spec c 10) as [->|_]; [exfalso; apply Hn; left; reflexivity|].
    assert (Hl : ~ In 10 l) by (intros H; apply Hn; right; exact H).
    destruct (isspace c); [apply (IH Hl)|].
    destruct (f && (c =? 62)); [reflexivity | apply (IH Hl)].
Qed.

Lemma lstrip_app_blank (p w : pystr) :
  lstrip p <> [] -> lstrip (p ++ w) = lstrip p ++ w.
Proof.
  induction p as [|c p IH]; intros H; [simpl in H; congruence|].
  cbn [app lstrip] in *. destruct (isspace c); [apply IH; exact H | reflexivity].
Qed.

Lemma lstrip_blank (w : pystr) : forallb isspace w = true -> lstrip w = [].
Proof.
  induction w as [|c w IH]; intros H; [reflexivity|].
  cbn [forallb] in H. apply andb_true_iff in H as [Hc Hw].
  cbn [lstrip]. rewrite Hc. exact (IH Hw).
Qed.

(** Trimming at the right does not change the first character left by
    trimming at the left. *)
Lemma startswith_strip (x : N) (l : pystr) :
  startswith [x] (strip l) = startswith [x] (lstrip l).
Proof.
  unfold strip. destruct (rstrip_prefix l) as (w & Hw & Hsp).
  rewrite Hw at 2. destruct (lstrip (rstrip l)) as [|c p] eqn:E.
  - assert (Hall : lstrip (rstrip l ++ w) = []).
    { destruct (lstrip_suffix (rstrip l)) as (w0 & Hw0 & Hsp0).
      rewrite E, List.app_nil_r in Hw0. rewrite Hw0.
      apply lstrip_blank. rewrite List.forallb_app, Hsp0, Hsp. reflexivity. }
    rewrite Hall. reflexivity.
  - rewrite lstrip_app_blank by (rewrite E; discriminate).
    rewrite E. reflexivity.
Qed.

Lemma unquoted_of_line (l : pystr) :
  ~ In 10 l -> startswith (py ">") (strip l) = false ->
  unquoted true l = true.
Proof.
  change (py ">") with [62]. rewrite startswith_strip.
  induction l as [|c l IH]; intros Hn H; [reflexivity|].
  cbn [unquoted].
  destruct (N.eqb_spec c 10) as [->|_]; [exfalso; apply Hn; left; reflexivity|].
  assert (Hl : ~ In 10 l) by (intros H'; apply Hn; right; exact H').
  cbn [lstrip] in H. destruct (isspace c); [apply (IH Hl H)|].
  cbn [startswith] in H. rewrite andb_true_r, N.eqb_sym in H.
  rewrite H. cbn [andb]. apply unquoted_stale. exact Hl.
Qed.

Lemma unquoted_join (ls : list pystr) :
  Forall (fun l => ~ In 10 l /\ startswith (py ">") (strip l) = false) ls ->
  unquoted true (join (py "\n") ls) = true.
Proof.
  change (py "\n") with [10].
  induction ls as [|l ls IH]; intros H; [reflexivity|].
  inversion H as [|? ? [Hn Hl] Hls]; subst.
  destruct ls as [|l' ls].
  - cbn [join]. apply unquoted_of_line; assumption.
  - rewrite join_cons by discriminate. cbn [app].
    rewrite (unquoted_line l _ Hn), (unquoted_of_line l Hn Hl), (IH Hls).
    reflexivity.
Qed.

Lemma unquoted_lines_of (u : pystr) :
  forall f,
    unquoted f u = true ->
    match split (py "\n") u with
    | [] => True
    | l :: ls =>
        (f = true -> startswith (py ">") (strip l) = false)
        /\ Forall (fun l => startswith (py ">") (strip l) = false) ls
    end.
Proof.
  change (py "\n") with [10]. change (py ">") with [62].
  induction u as [|c u IH]; intros f H.
  - cbn. split; [reflexivity | constructor].
  - rewrite split_char_cons. cbn [unquoted] in H.
    destruct (N.eqb_spec c 10) as [->|Hc].
    + change (10 =? 10) with true. cbv iota.
      specialize (IH true H). split; [reflexivity|].
      destruct (split [10] u) as [|l ls]; [constructor|].
      destruct IH as [IH1 IH2]. constructor; [apply IH1; reflexivity | exact IH2].
    + assert (Hc' : (10 =? c) = false) by (apply N.eqb_neq; congruence).
      rewrite Hc'.
      destruct (isspace c) eqn:Esp.
      * specialize (IH f H).
        destruct (split [10] u) as [|l ls]; [exact I|].
        destruct IH as [IH1 IH2]. split; [|exact IH2].
        intros Hf. specialize (IH1 Hf).
        rewrite startswith_strip in *. cbn [lstrip]. rewrite Esp. exact IH1.
      * destruct (f && (c =? 62)) eqn:Eq; [discriminate|].
        specialize (IH false H).
        destruct (split [10] u) as [|l ls]; [exact I|].
        destruct IH as [_ IH2]. split; [|exact IH2].
        intros ->. cbn [andb] in Eq.
        rewrite startswith_strip. cbn [lstrip]. rewrite Esp.
        cbn [startswith]. rewrite N.eqb_sym, Eq. reflexivity.
Qed.

Lemma unquoted_skipn (n : nat) :
  forall s f, unquoted f s = true -> exists f', unquoted f' (skipn n s) = true.
Proof.
  induction n as [|n IH]; intros s f H; [exists f; exact H|].
  destruct s as [|c s]; [exists f; exact H|]. cbn [skipn unquoted] in *.
  destruct (c =? 10); [exact (IH _ _ H)|].
  destruct (isspace c); [exact (IH _ _ H)|].
  destruct (f && (c =? 62)); [discriminate | exact (IH _ _ H)].
Qed.

Lemma unquoted_block_end (r : pystr) (f f' : bool) :
  at_block_end r = true -> unquoted f r = true -> unquoted f' r = true.
Proof.
  unfold at_block_end. destruct r as [|c r]; [reflexivity|].
  rewrite orb_false_r. change (py "\n\n") with [10; 10]. cbn [startswith].
  intros H. apply andb_true_iff in H as [Hc _]. rewrite N.eqb_sym in Hc.
  cbn [unquoted]. rewrite Hc. trivial.
Qed.

(** Deleting pieces that end at a blank-line boundary or at the end of the
    text makes no line a quoted one. *)
Lemma unquoted_deletes (B : pystr -> nat -> Prop) (s s' : pystr) :
  (forall s n, B s n -> at_block_end (skipn n s) = true) ->
  deletes B s s' ->
  forall f, unquoted f s = true -> unquoted f s' = true.
Proof.
  intros HB Hd. induction Hd as [|c s s' _ IH|s n s' _ Hb _ IH]; intros f H.
  - reflexivity.
  - cbn [unquoted] in *. destruct (c =? 10); [exact (IH _ H)|].
    destruct (isspace c); [exact (IH _ H)|].
    destruct (f && (c =? 62)); [discriminate | exact (IH _ H)].
  - apply IH. destruct (unquoted_skipn n s f H) as (f' & Hf').
    exact (unquoted_block_end _ f' f (HB _ _ Hb) Hf').
Qed.

(** The normalizer makes no line a quoted one. *)

Lemma unquoted_blank_run (L : Libs) (s : pystr) (f : bool) :
  unquoted f s
  = unquoted f (skipn (run L false (COneOf [32; 9]) s) s).
Proof.
  induction s as [|c s IH]; [reflexivity|].
  cbn [run]. rewrite blank_match. unfold is_blank.
  destruct (N.eqb_spec c 32) as [->|H32]; [exact IH|].
  destruct (N.eqb_spec c 9) as [->|H9]; [exact IH | reflexivity].
Qed.

Lemma collapse_blanks_unquoted (L : Libs) (s : pystr) :
  forall f, unquoted f s = true -> unquoted f (collapse_blanks L s) = true.
Proof.
  induction s as [s IH] using length_induction. intros f H.
  destruct s as [|c s]; [rewrite collapse_blanks_nil; reflexivity|].
  destruct (is_blank c) eqn:Ec.
  - rewrite (collapse_blanks_run L c s Ec). cbn [unquoted].
    change (32 =? 10) with false. change (isspace 32) with true. cbv iota.
    apply IH; [rewrite List.length_skipn; simpl; lia|].
    rewrite <- unquoted_blank_run.
    unfold is_blank in Ec. cbn [unquoted] in H.
    destruct (N.eqb_spec c 32) as [->|H32]; [exact H|].
    destruct (N.eqb_spec c 9) as [->|H9]; [exact H | discriminate].
  - rewrite (collapse_blanks_keep L c s Ec). cbn [unquoted] in *.
    destruct (c =? 10); [apply IH; [simpl; lia | exact H]|].
    destruct (isspace c); [apply IH; [simpl; lia | exact H]|].
    destruct (f && (c =? 62)); [discriminate|].
    apply IH; [simpl; lia | exact H].
Qed.

Lemma unquoted_newline_run (L : Libs) (s : pystr) (f : bool) :
  (0 < run L false (CChar 10) s)%nat ->
  unquoted f s = unquoted true (skipn (run L false (CChar 10) s) s).
Proof.
  revert f. induction s as [|c s IH]; intros f H; [simpl in H; lia|].
  rewrite run_newline_cons in *. destruct (N.eqb_spec c 10) as [->|]; [|lia].
  cbn [skipn unquoted]. change (10 =? 10) with true. cbv iota.
  destruct (Nat.eq_dec (run L false (CChar 10) s) 0%nat) as [E0|Hne].
  - rewrite E0. reflexivity.
  - apply IH. lia.
Qed.

Lemma cap_blank_lines_unquoted (L : Libs) (s : pystr) :
  forall f, unquoted f s = true -> unquoted f (cap_blank_lines L s) = true.
Proof.
  induction s as [s IH] using length_induction. intros f H.
  destruct s as [|c s]; [rewrite cap_blank_lines_nil; reflexivity|].
  rewrite cap_blank_lines_cons.
  destruct (Nat.leb_spec 3 (run L false (CChar 10) (c :: s))) as [H3|H3].
  - cbn [unquoted]. change (10 =? 10) with true. cbv iota.
    apply IH; [rewrite List.length_skipn; cbn [List.length]; lia|].
    rewrite <- (unquoted_newline_run L (c :: s) f) by lia. exact H.
  - cbn [unquoted] in *. destruct (c =? 10); [apply IH; [simpl; lia | exact H]|].
    destruct (isspace c); [apply IH; [simpl; lia | exact H]|].
    destruct (f && (c =? 62)); [discriminate|].
    apply IH; [simpl; lia | exact H].
Qed.

Lemma unquoted_app_inv (p w : pystr) :
  forall f, unquoted f (p ++ w) = true -> unquoted f p = true.
Proof.
  induction p as [|c p IH]; intros f H; [reflexivity|].
  cbn [app unquoted] in *. destruct (c =? 10); [exact (IH _ H)|].
  destruct (isspace c); [exact (IH _ H)|].
  destruct (f && (c =? 62)); [discriminate | exact (IH _ H)].
Qed.

Lemma unquoted_rstrip (l : pystr) (f : bool) :
  unquoted f l = true -> unquoted f (rstrip l) = true.
Proof.
  intros H. destruct (rstrip_prefix l) as (w & Hw & _). rewrite Hw in H.
  exact (unquoted_app_inv _ _ _ H).
Qed.

Lemma unquoted_join_rstrip (ls : list pystr) :
  Forall (fun l : pystr => ~ In 10 l) ls ->
  forall f, unquoted f (join [10] ls) = true ->
            unquoted f (join [10] (map rstrip ls)) = true.
Proof.
  induction ls as [|l ls IH]; intros Hall f H; [reflexivity|].
  inversion Hall as [|? ? Hl Hls]; subst. specialize (IH Hls).
  destruct ls as [|l' ls].
  - cbn [map join] in *. apply unquoted_rstrip. exact H.
  - cbn [map]. cbn [map] in IH.
    rewrite (join_cons [10] l (l' :: ls)) in H by discriminate.
    rewrite (join_cons [10] (rstrip l) (rstrip l' :: map rstrip ls))
      by discriminate.
    cbn [app] in *.
    rewrite (unquoted_line l _ Hl) in H.
    rewrite (unquoted_line (rstrip l) _ (rstrip_no_newline l Hl)).
    apply andb_true_iff in H as [H1 H2].
    rewrite (unquoted_rstrip _ _ H1), (IH _ H2). reflexivity.
Qed.

Lemma rstrip_lines_unquoted (s : pystr) :
  forall f, unquoted f s = true -> unquoted f (rstrip_lines s) = true.
Proof.
  intros f H. unfold rstrip_lines. change (py "\n") with [10].
  apply unquoted_join_rstrip; [apply split_char_pieces|].
  rewrite join_split by discriminate. exact H.
Qed.

Lemma unquoted_lstrip (s : pystr) :
  unquoted true s = true -> unquoted true (lstrip s) = true.
Proof.
  induction s as [|c s IH]; intros H; [reflexivity|].
  cbn [lstrip]. destruct (isspace c) eqn:Ec; [|exact H].
  apply IH. cbn [unquoted] in H. rewrite Ec in H.
  destruct (c =? 10); exact H.
Qed.

Lemma normalize_whitespace_unquoted (L : Libs) (s : pystr) :
  unquoted true s = true -> unquoted true (_normalize_whitespace L s) = true.
Proof.
  intros H. rewrite normalize_whitespace_steps. unfold strip.
  apply unquoted_lstrip, unquoted_rstrip, rstrip_lines_unquoted.
  apply cap_blank_lines_unquoted, collapse_blanks_unquoted. exact H.
Qed.

Lemma quoted_fallback_unquoted (L : Libs) (text : pystr) :
  unquoted true (quoted_fallback L text) = true.
Proof.
  unfold quoted_fallback.
  assert (Hend : forall title s n,
             divider_block L title s n -> at_block_end (skipn n s) = true).
  { intros title s n (_ & He & _). exact He. }
  eapply (unquoted_deletes (divider_block L (py "Forwarded Message")));
    [apply Hend | apply re_sub_deletes; intros adv s n g;
                  apply divider_block_extent |].
  eapply (unquoted_deletes (divider_block L (py "Original Message")));
    [apply Hend | apply re_sub_deletes; intros adv s n g;
                  apply divider_block_extent |].
  apply unquoted_join. apply List.Forall_forall. intros l Hl.
  apply List.filter_In in Hl as [Hin Hq]. split.
  - pose proof (split_char_pieces 10 text) as Hp.
    rewrite List.Forall_forall in Hp. apply Hp. exact Hin.
  - apply negb_true_iff in Hq. exact Hq.
Qed.

Lemma unquoted_lines_all (u : pystr) :
  unquoted true u = true ->
  Forall (fun line => startswith (py ">") (strip line) = false)
         (split (py "\n") u).
Proof.
  intros Hu. pose proof (unquoted_lines_of _ true Hu) as Hl.
  destruct (split (py "\n") u) as [|l ls]; [constructor|].
  destruct Hl as [H1 H2]. constructor; [apply H1; reflexivity | exact H2].
Qed.

(** X18: in what the fallback of [_remove_quoted_replies] returns, no
    line begins, after white space, with [>]: the quoted lines are
    dropped, and deleting the Original Message and Forwarded Message
    blocks, which end at a blank line or at the end of the text, joins no
    two lines into a quoted one.  The normalizer keeps it so: as long as
    the quoted-text routine yields no string, the body cleaned at level
    Aggressive has no quoted line. *)
Theorem quoted_fallback_leaves_no_quoted_line :
  forall (L : Libs),
    (forall text,
        Forall (fun line => startswith (py ">") (strip line) = false)
               (split (py "\n") (quoted_fallback L text)))
    /\ (forall payload info r,
          (forall text, unwrap_fails L text) ->
          clean L Aggressive payload info = Return r ->
          Forall (fun line => startswith (py ">") (strip line) = false)
                 (split (py "\n") (body_clean r))).
Proof.
  intros L. split.
  - intros text. apply unquoted_lines_all, quoted_fallback_unquoted.
  - intros payload info r Hq Hr. rewrite clean_aggressive in Hr.
    destruct (_extract_text L payload) as [t|e]; [|discriminate].
    cbn [bind] in Hr.
    rewrite (remove_quoted_replies_fallback L _ (Hq _)) in Hr.
    cbn [bind] in Hr. injection Hr as <-. cbn [result_of body_clean].
    apply unquoted_lines_all, normalize_whitespace_unquoted.
    apply quoted_fallback_unquoted.
Qed.

(** ** Inline images: what is left alone *)

(** X19: markup in which [<img], in any case, occurs nowhere goes through
    the replacement of inline images unchanged. *)
Theorem replace_inline_images_fixed :
  forall (L : Libs) (html : pystr),
    ci_contains L true (py "<img") html = false ->
    _replace_inline_images L html = html.
Proof.
  intros L html H. unfold _replace_inline_images.
  rewrite (re_sub_fixed L true img_cid_re).
  - apply re_sub_fixed. intros i. apply img_alt_needs_open.
    apply ci_contains_skipn. exact H.
  - intros i. apply img_cid_needs_open. apply ci_contains_skipn. exact H.
Qed.

Lemma replace_inline_images_fixed_witness :
  _replace_inline_images plain_libs (py "<p>Hello <b>world</b></p>")
  = py "<p>Hello <b>world</b></p>".
Proof.
  apply (replace_inline_images_fixed plain_libs). reflexivity.
Defined.

Lemma signature_corpus_surrogate_raises_witness :
  build_signature_database plain_libs [team_mail; surrogate_mail] 100
  = Raise UnicodeEncodeError.
Proof.
  eapply (signature_corpus_surrogate_raises plain_libs
            [team_mail; surrogate_mail] 100 surrogate_mail).
  - right. left. reflexivity.
  - vm_compute. reflexivity.
  - vm_compute. reflexivity.
  - vm_compute. reflexivity.
Defined.

Lemma two_mail_corpus_encodable :
  encodable_corpus plain_libs [team_mail; fifty_mail].
Proof.
  intros e footer He Hf _.
  destruct He as [<- | [<- | []]]; vm_compute in Hf; injection Hf as <-;
    eexists; vm_compute; reflexivity.
Qed.

Lemma signature_corpus_size_order_witness :
  exists db db' n,
    build_signature_database plain_libs [team_mail; fifty_mail] 1
    = Return (db, n)
    /\ build_signature_database plain_libs [fifty_mail; team_mail] 1
       = Return (db', n).
Proof.
  apply (signature_corpus_size_order plain_libs [team_mail; fifty_mail]
           [fifty_mail; team_mail] 1 two_mail_corpus_encodable).
  apply perm_swap.
Defined.

Lemma normalize_whitespace_normal_form_witness :
  exists r,
    clean plain_libs Standard signed_mail None = Return r
    /\ normal_form (body_clean r).
Proof.
  eexists. split; [vm_compute; reflexivity|].
  apply (proj2 (normalize_whitespace_normal_form plain_libs)
           Standard signed_mail None).
  vm_compute. reflexivity.
Defined.

Lemma quoted_fallback_leaves_no_quoted_line_witness :
  exists r,
    clean plain_libs Aggressive quoted_mail None = Return r
    /\ Forall (fun line => startswith (py ">") (strip line) = false)
              (split (py "\n") (body_clean r)).
Proof.
  eexists. split; [vm_compute; reflexivity|].
  apply (proj2 (quoted_fallback_leaves_no_quoted_line plain_libs)
           quoted_mail None).
  - exact plain_libs_unwrap_fails.
  - vm_compute. reflexivity.
Defined.

Lemma to_insert_columns_witness :
  exists row,
    to_insert plain_libs plain_cli_libs two_part_message = Return row
    /\ row !! py "payload" = Some (py "Hello\n\n---PART---\n\n<p>Hello</p>")
    /\ row !! py "subject" = Some (py "Hi\nagain")
    /\ row !! py "to" = Some (py "ann@example.org")
    /\ row !! py "cc" = None.
Proof.
  pose proof (to_insert_columns plain_libs plain_cli_libs two_part_message)
    as H.
  assert (Hd : decode_items plain_libs plain_cli_libs (items two_part_message)
               = Return [(py "subject", py "Hi");
                         (py "to", py "ann@example.org");
                         (py "subject", py "again")])
    by (vm_compute; reflexivity).
  rewrite Hd in H. destruct H as (row & Hrow & Hp & Hk).
  exists row. split; [exact Hrow|].
  split; [rewrite Hp; vm_compute; reflexivity|].
  split; [rewrite Hk by discriminate; vm_compute; reflexivity|].
  split; rewrite Hk by discriminate; vm_compute; reflexivity.
Defined.

Lemma message_parts_round_trip_witness :
  split part_separator (get_message_text plain_cli_libs two_part_message)
  = [py "Hello"; py "<p>Hello</p>"]
  /\ _extract_text plain_libs
       (get_message_text plain_cli_libs two_part_message)
     = Return (py "Hello\n\n<p>Hello</p>").
Proof.
  destruct (message_parts_round_trip plain_libs plain_cli_libs
              two_part_message) as [_ H].
  destruct H as [_ H]; [vm_compute; discriminate|].
  destruct H as [Hsplit Hextract].
  { repeat constructor. }
  split.
  - rewrite Hsplit. vm_compute. reflexivity.
  - rewrite Hextract by (vm_compute; reflexivity). vm_compute. reflexivity.
Defined.

(** ** A second disclaimer *)

Lemma occurs_at_app_right (w p q : pystr) (j : nat) :
  occurs_at w q j -> occurs_at w (p ++ q) (List.length p + j).
Proof.
  intros [Hj Hs]. split.
  - rewrite List.length_app. lia.
  - rewrite List.skipn_app, List.skipn_all2 by lia.
    replace (List.length p + j - List.length p)%nat with j by lia.
    exact Hs.
Qed.

(** X20: boilerplate removal deletes one span only.  A further copy of the
    disclaimer marker that begins 600 characters or more after the first
    one is still in the text afterwards, and a second pass deletes
    again. *)
Theorem remove_boilerplate_once :
  forall (text : pystr) (start j : nat),
    first_occurrence csr_marker text 0 start ->
    occurs_at csr_marker text j ->
    (start + 600 <= j)%nat ->
    contains csr_marker (_remove_boilerplate text) = true
    /\ (len (_remove_boilerplate (_remove_boilerplate text))
        < len (_remove_boilerplate text))%Z.
Proof.
  intros text start j Hst Hj Hfar.
  assert (Hc : contains csr_marker text = true).
  { apply contains_spec. exists j. exact Hj. }
  assert (Hkept : contains csr_marker (_remove_boilerplate text) = true).
  { destruct (remove_boilerplate_cut text Hc)
      as (start' & e & Hst' & He & ->).
    rewrite (first_occurrence_unique _ _ _ _ _ Hst' Hst) in *.
    apply contains_spec.
    exists (List.length (firstn start text) + (j - e))%nat.
    apply occurs_at_app_right.
    assert (Hl : (j <= List.length text)%nat) by apply Hj.
    apply occurs_at_skipn; [lia|].
    replace (e + (j - e))%nat with j by lia. exact Hj. }
  split; [exact Hkept|].
  destruct (remove_boilerplate_cut _ Hkept) as (s2 & e2 & Hs2 & He2 & Heq).
  assert (Hocc : occurs_at csr_marker (_remove_boilerplate text) s2)
    by apply Hs2.
  apply occurs_at_length in Hocc.
  change (List.length csr_marker) with 19%nat in Hocc.
  rewrite Heq at 1. unfold len.
  rewrite List.length_app, List.length_firstn, List.length_skipn. lia.
Qed.

Lemma remove_boilerplate_once_witness :
  contains csr_marker (_remove_boilerplate twice_disclaimed) = true
  /\ (len (_remove_boilerplate (_remove_boilerplate twice_disclaimed))
      < len (_remove_boilerplate twice_disclaimed))%Z.
Proof.
  apply (remove_boilerplate_once twice_disclaimed 0 619).
  - split; [lia|]. split; [|intros j Hj; lia].
    split; [apply Nat.leb_le|]; vm_compute; reflexivity.
  - split; [apply Nat.leb_le|]; vm_compute; reflexivity.
  - lia.
Defined.
